(** * GreenGrid microgrid simulator: Battery, Grid, EnergyManagementSystem
      and the Simulation loop, embedded from the Python sources.

    Python floats are read in two ways.  The theorems on the dispatch step,
    the grid and the simulation loop read them as real numbers (exact
    arithmetic) and model the explicit [round(x, 6)] of the dispatch
    functions: they rest on the branch structure of the code, on
    monotonicity, or carry the six-decimal tolerance.  What depends on the
    rounding of float arithmetic itself (the bounds of the battery, the
    round trip, the state of charge, the recovery of the inverter) is
    stated over module [Fl], the same code over an interface of float
    operations, read over binary64 and over the reals with a rounding after
    every operation.  Object state is passed explicitly through a small
    state-and-exception monad; Python exceptions ([ValueError],
    [ZeroDivisionError]) are results of the monad. *)

From Stdlib Require Import Reals Lra Lia ZArith List String Bool Zfloor.
From Stdlib Require PrimFloat.
Import ListNotations.
Local Open Scope R_scope.

(* ===================================================================== *)
(** * Python primitives *)
(* ===================================================================== *)

Module Py.

(** [x < y], [x <= y], [x > y], [x >= y] and [x == y] on floats. *)
Definition ltb (x y : R) : bool := if Rlt_dec x y then true else false.
Definition leb (x y : R) : bool := if Rle_dec x y then true else false.
Definition gtb (x y : R) : bool := ltb y x.
Definition geb (x y : R) : bool := leb y x.
Definition eqb (x y : R) : bool := if Req_dec_T x y then true else false.

(** Builtin [min(a, b)]: the first argument is kept unless the second is
    strictly smaller. *)
Definition min (a b : R) : R := if ltb b a then b else a.

(** Nearest integer, ties to even: the rounding mode of [round]. *)
Definition round_half_even (y : R) : Z :=
  let f := Zfloor y in
  let d := y - IZR f in
  if ltb d (1 / 2) then f
  else if ltb (1 / 2) d then (f + 1)%Z
  else if Z.even f then f else (f + 1)%Z.

(** Builtin [round(x, ndigits)] on exact values. *)
Definition round (x : R) (ndigits : nat) : R :=
  IZR (round_half_even (x * 10 ^ ndigits)) / 10 ^ ndigits.

(** [int(x)]: truncation towards zero. *)
Definition int (x : R) : Z := if leb 0 x then Zfloor x else Zceil x.

(** Exceptions the modelled code can raise. *)
Inductive exn : Type :=
| ValueError (msg : string)
| ZeroDivisionError (msg : string)
| KeyError (key : string)
| IndexError (msg : string).

Inductive result (A : Type) : Type :=
| Ok (a : A)
| Raise (e : exn).
Arguments Ok {A} a.
Arguments Raise {A} e.

(** Computations over a mutable state [S] that return an [A] or raise.
    The state reached when the exception is raised is kept, as the
    mutations of a Python object are. *)
Definition M (S A : Type) : Type := S -> result A * S.

Definition ret {S A} (a : A) : M S A := fun s => (Ok a, s).

Definition bind {S A B} (m : M S A) (k : A -> M S B) : M S B :=
  fun s =>
    match m s with
    | (Ok a, s') => k a s'
    | (Raise e, s') => (Raise e, s')
    end.

Definition raise {S A} (e : exn) : M S A := fun s => (Raise e, s).
Definition get {S} : M S S := fun s => (Ok s, s).
Definition put {S} (s : S) : M S unit := fun _ => (Ok tt, s).

(** Run a method of a component object held in a field of a larger one. *)
Definition zoom {S T A} (proj : S -> T) (upd : T -> S -> S) (m : M T A)
  : M S A :=
  fun s => let (r, t) := m (proj s) in (r, upd t s).

(** Float true division [x / y]. *)
Definition truediv {S} (x y : R) : M S R :=
  if eqb y 0 then raise (ZeroDivisionError "float division by zero")
  else ret (x / y).

(** Integer floor division [x // y] and remainder [x % y]. *)
Definition floordiv {S} (x y : Z) : M S Z :=
  if Z.eqb y 0 then raise (ZeroDivisionError "integer division or modulo by zero")
  else ret (x / y)%Z.
Definition mod_ {S} (x y : Z) : M S Z :=
  if Z.eqb y 0 then raise (ZeroDivisionError "integer division or modulo by zero")
  else ret (x mod y)%Z.

(** List indexing [l[i]]; a negative index counts from the end. *)
Definition getitem {S A} (l : list A) (i : Z) : M S A :=
  let n := Z.of_nat (List.length l) in
  let j := if Z.ltb i 0 then (n + i)%Z else i in
  match (if Z.ltb j 0 then None else nth_error l (Z.to_nat j)) with
  | Some a => ret a
  | None => raise (IndexError "list index out of range")
  end.

(** [math.sqrt]. *)
Definition math_sqrt {S} (x : R) : M S R :=
  if ltb x 0 then raise (ValueError "math domain error") else ret (sqrt x).

End Py.

Import Py.

Declare Scope py_scope.
Delimit Scope py_scope with py.
Notation "x <- m ;; k" := (bind m (fun x => k))
  (at level 61, m at next level, right associativity) : py_scope.
Notation "m ;;; k" := (bind m (fun _ => k))
  (at level 61, right associativity) : py_scope.
Local Open Scope py_scope.

(* ===================================================================== *)
(** * Simulator/src/Battery.py *)
(* ===================================================================== *)

Record Battery : Type := mkBattery {
  _capacity_kwh : R;
  _efficiency : R;
  _min_soc : R;
  _energy_kwh : R;
  _min_energy_kwh : R;
  _one_way_efficiency : R
}.

Definition set_energy_kwh (self : Battery) (e : R) : Battery :=
  {| _capacity_kwh := _capacity_kwh self;
     _efficiency := _efficiency self;
     _min_soc := _min_soc self;
     _energy_kwh := e;
     _min_energy_kwh := _min_energy_kwh self;
     _one_way_efficiency := _one_way_efficiency self |}.

Module Battery_.

(** [Battery.__init__]: starts at 50% state of charge. *)
Definition __init__ (capacity_kwh efficiency min_soc : R) : result Battery :=
  match math_sqrt efficiency tt with
  | (Ok owe, _) =>
      Ok {| _capacity_kwh := capacity_kwh;
            _efficiency := efficiency;
            _min_soc := min_soc;
            _energy_kwh := capacity_kwh * 0.5;
            _min_energy_kwh := capacity_kwh * min_soc;
            _one_way_efficiency := owe |}
  | (Raise e, _) => Raise e
  end.

Definition get_soc : M Battery R :=
  self <- get ;;
  q <- truediv (_energy_kwh self) (_capacity_kwh self) ;;
  ret (q * 100).

Definition is_empty (self : Battery) : bool :=
  leb (_energy_kwh self) (_min_energy_kwh self).

(** [Battery.charge] over exact arithmetic ([Fl.charge] is the same code
    over floats, where [energy + (capacity - energy)] need not be the
    capacity). *)
Definition charge (energy_kwh : R) : M Battery R :=
  self <- get ;;
  let usable_energy := energy_kwh * _one_way_efficiency self in
  let space_available := _capacity_kwh self - _energy_kwh self in
  let energy_to_store := min usable_energy space_available in
  energy_consumed_from_source <-
    truediv energy_to_store (_one_way_efficiency self) ;;
  put (set_energy_kwh self (_energy_kwh self + energy_to_store)) ;;;
  ret energy_consumed_from_source.

(** [Battery.discharge] over exact arithmetic ([Fl.discharge] is the same
    code over floats, where [energy - (energy - min_energy)] need not be
    the floor). *)
Definition discharge (energy_kwh : R) : M Battery R :=
  self <- get ;;
  required_energy <- truediv energy_kwh (_one_way_efficiency self) ;;
  let max_available := _energy_kwh self - _min_energy_kwh self in
  let actual_extracted := min required_energy max_available in
  put (set_energy_kwh self (_energy_kwh self - actual_extracted)) ;;;
  let supplied := actual_extracted * _one_way_efficiency self in
  ret supplied.

End Battery_.

(* ===================================================================== *)
(** * Simulator/src/Grid.py *)
(* ===================================================================== *)

Record Grid : Type := mkGrid {
  _import_cost_per_kwh : R;
  _export_revenue_per_kwh : R;
  _export_limit_kw : R;
  _total_energy_imported_kwh : R;
  _total_energy_exported_kwh : R;
  _total_import_cost : R;
  _total_export_revenue : R
}.

Module Grid_.

Definition __init__ (import_cost_per_kwh export_revenue_per_kwh
                     export_limit_kw : R) : Grid :=
  {| _import_cost_per_kwh := import_cost_per_kwh;
     _export_revenue_per_kwh := export_revenue_per_kwh;
     _export_limit_kw := export_limit_kw;
     _total_energy_imported_kwh := 0;
     _total_energy_exported_kwh := 0;
     _total_import_cost := 0;
     _total_export_revenue := 0 |}.

(** [Grid.import_energy] and [Grid.export_energy] over exact arithmetic:
    the totals are exact sums here, while on floats every [+=] rounds, so
    that no identity between the running totals (such as the total cost
    being the total energy times the price) is stated of them. *)
Definition import_energy (power_kw time_step_hours : R) : M Grid R :=
  self <- get ;;
  let energy_kwh := power_kw * time_step_hours in
  let cost := energy_kwh * _import_cost_per_kwh self in
  put {| _import_cost_per_kwh := _import_cost_per_kwh self;
         _export_revenue_per_kwh := _export_revenue_per_kwh self;
         _export_limit_kw := _export_limit_kw self;
         _total_energy_imported_kwh :=
           _total_energy_imported_kwh self + energy_kwh;
         _total_energy_exported_kwh := _total_energy_exported_kwh self;
         _total_import_cost := _total_import_cost self + cost;
         _total_export_revenue := _total_export_revenue self |} ;;;
  ret cost.

Definition export_energy (power_kw time_step_hours : R) : M Grid R :=
  self <- get ;;
  let actual_power_kw := min power_kw (_export_limit_kw self) in
  let energy_kwh := actual_power_kw * time_step_hours in
  let revenue := energy_kwh * _export_revenue_per_kwh self in
  put {| _import_cost_per_kwh := _import_cost_per_kwh self;
         _export_revenue_per_kwh := _export_revenue_per_kwh self;
         _export_limit_kw := _export_limit_kw self;
         _total_energy_imported_kwh := _total_energy_imported_kwh self;
         _total_energy_exported_kwh :=
           _total_energy_exported_kwh self + energy_kwh;
         _total_import_cost := _total_import_cost self;
         _total_export_revenue := _total_export_revenue self + revenue |} ;;;
  ret actual_power_kw.

Definition get_net_balance (self : Grid) : R :=
  _total_export_revenue self - _total_import_cost self.

End Grid_.

(* ===================================================================== *)
(** * Simulator/src/EnergyManagementSystem.py *)
(* ===================================================================== *)

Notation "' pat <- m ;; k" := (bind m (fun pat => k))
  (at level 61, pat pattern, m at next level, right associativity) : py_scope.

(** The two objects a dispatch call mutates. *)
Record Store : Type := mkStore {
  battery : Battery;
  grid : Grid
}.

Definition on_battery {A} (m : M Battery A) : M Store A :=
  zoom battery (fun b s => {| battery := b; grid := grid s |}) m.

Definition on_grid {A} (m : M Grid A) : M Store A :=
  zoom grid (fun g s => {| battery := battery s; grid := g |}) m.

(** The dictionary returned by every dispatch function. *)
Record Flows : Type := mkFlows {
  solar_to_load : R;
  solar_to_battery : R;
  solar_to_grid : R;
  battery_to_load : R;
  grid_to_load : R;
  unmet_load : R;
  curtailed : R
}.

Record EnergyManagementSystem : Type := mkEMS {
  _strategy : string
}.

Module EMS.

(** The closing [return {...}] shared by the three dispatch functions:
    [unmet_load = grid_to_load], every field rounded to 6 decimals. *)
Definition flows_dict (solar_to_load solar_to_battery solar_to_grid
                       battery_to_load grid_to_load curtailed : R) : Flows :=
  let unmet_load := grid_to_load in
  {| solar_to_load := round solar_to_load 6;
     solar_to_battery := round solar_to_battery 6;
     solar_to_grid := round solar_to_grid 6;
     battery_to_load := round battery_to_load 6;
     grid_to_load := round grid_to_load 6;
     unmet_load := round unmet_load 6;
     curtailed := round curtailed 6 |}.

Definition _load_priority (solar_kw load_kw time_step_hours : R)
  : M Store Flows :=
  if geb solar_kw load_kw then
    let solar_to_load := load_kw in
    let excess := solar_kw - load_kw in
    '(solar_to_battery, excess) <-
      (if gtb excess 0 then
         let offered_energy := excess * time_step_hours in
         charged_energy <- on_battery (Battery_.charge offered_energy) ;;
         solar_to_battery <- truediv charged_energy time_step_hours ;;
         let rejected_energy := offered_energy - charged_energy in
         remaining_power <- truediv rejected_energy time_step_hours ;;
         ret (solar_to_battery, remaining_power)
       else ret (0, excess)) ;;
    '(solar_to_grid, curtailed) <-
      (if gtb excess 0 then
         exported <- on_grid (Grid_.export_energy excess time_step_hours) ;;
         ret (exported, if ltb exported excess then excess - exported else 0)
       else ret (0, 0)) ;;
    ret (flows_dict solar_to_load solar_to_battery solar_to_grid 0 0 curtailed)
  else
    let solar_to_load := solar_kw in
    let deficit := load_kw - solar_kw in
    '(battery_to_load, deficit) <-
      (if gtb deficit 0 then
         let requested_energy := deficit * time_step_hours in
         discharged_energy <- on_battery (Battery_.discharge requested_energy) ;;
         discharged_power <- truediv discharged_energy time_step_hours ;;
         ret (discharged_power, deficit - discharged_power)
       else ret (0, deficit)) ;;
    grid_to_load <-
      (if gtb deficit 0 then
         on_grid (Grid_.import_energy deficit time_step_hours) ;;;
         ret deficit
       else ret 0) ;;
    ret (flows_dict solar_to_load 0 0 battery_to_load grid_to_load 0).

Definition _charge_priority (solar_kw load_kw time_step_hours : R)
  : M Store Flows :=
  if geb solar_kw load_kw then
    let offered_energy := solar_kw * time_step_hours in
    charged_energy <- on_battery (Battery_.charge offered_energy) ;;
    solar_to_battery <- truediv charged_energy time_step_hours ;;
    let rejected_energy := offered_energy - charged_energy in
    solar_remaining <- truediv rejected_energy time_step_hours ;;
    if geb solar_remaining load_kw then
      let solar_to_load := load_kw in
      let excess := solar_remaining - load_kw in
      '(solar_to_grid, curtailed) <-
        (if gtb excess 0 then
           exported <- on_grid (Grid_.export_energy excess time_step_hours) ;;
           ret (exported, if ltb exported excess then excess - exported else 0)
         else ret (0, 0)) ;;
      ret (flows_dict solar_to_load solar_to_battery solar_to_grid 0 0 curtailed)
    else
      let solar_to_load := solar_remaining in
      let deficit := load_kw - solar_remaining in
      on_grid (Grid_.import_energy deficit time_step_hours) ;;;
      let grid_to_load := deficit in
      ret (flows_dict solar_to_load solar_to_battery 0 0 grid_to_load 0)
  else
    let solar_to_load := solar_kw in
    let deficit := load_kw - solar_kw in
    '(battery_to_load, deficit) <-
      (if gtb deficit 0 then
         let requested_energy := deficit * time_step_hours in
         discharged_energy <- on_battery (Battery_.discharge requested_energy) ;;
         discharged_power <- truediv discharged_energy time_step_hours ;;
         ret (discharged_power, deficit - discharged_power)
       else ret (0, deficit)) ;;
    grid_to_load <-
      (if gtb deficit 0 then
         on_grid (Grid_.import_energy deficit time_step_hours) ;;;
         ret deficit
       else ret 0) ;;
    ret (flows_dict solar_to_load 0 0 battery_to_load grid_to_load 0).

Definition _produce_priority (solar_kw load_kw time_step_hours : R)
  : M Store Flows :=
  exported <- on_grid (Grid_.export_energy solar_kw time_step_hours) ;;
  let solar_to_grid := exported in
  let solar_remaining := solar_kw - exported in
  '(solar_to_battery, solar_remaining) <-
    (if gtb solar_remaining 0 then
       let offered_energy := solar_remaining * time_step_hours in
       charged_energy <- on_battery (Battery_.charge offered_energy) ;;
       solar_to_battery <- truediv charged_energy time_step_hours ;;
       let rejected_energy := offered_energy - charged_energy in
       solar_remaining <- truediv rejected_energy time_step_hours ;;
       ret (solar_to_battery, solar_remaining)
     else ret (0, solar_remaining)) ;;
  '(solar_to_load, deficit, curtailed) <-
    (if gtb solar_remaining 0 then
       let solar_to_load := min solar_remaining load_kw in
       let deficit := load_kw - solar_to_load in
       ret (solar_to_load, deficit,
            if gtb solar_remaining solar_to_load
            then solar_remaining - solar_to_load else 0)
     else ret (0, load_kw, 0)) ;;
  '(battery_to_load, deficit) <-
    (if gtb deficit 0 then
       let requested_energy := deficit * time_step_hours in
       discharged_energy <- on_battery (Battery_.discharge requested_energy) ;;
       discharged_power <- truediv discharged_energy time_step_hours ;;
       ret (discharged_power, deficit - discharged_power)
     else ret (0, deficit)) ;;
  grid_to_load <-
    (if gtb deficit 0 then
       on_grid (Grid_.import_energy deficit time_step_hours) ;;;
       ret deficit
     else ret 0) ;;
  ret (flows_dict solar_to_load solar_to_battery solar_to_grid
         battery_to_load grid_to_load curtailed).

Definition distribute_energy (self : EnergyManagementSystem)
    (solar_kw load_kw time_step_hours : R) : M Store Flows :=
  if String.eqb (_strategy self) "LOAD_PRIORITY" then
    _load_priority solar_kw load_kw time_step_hours
  else if String.eqb (_strategy self) "CHARGE_PRIORITY" then
    _charge_priority solar_kw load_kw time_step_hours
  else if String.eqb (_strategy self) "PRODUCE_PRIORITY" then
    _produce_priority solar_kw load_kw time_step_hours
  else
    raise (ValueError ("Unknown strategy: " ++ _strategy self)).

End EMS.

(* ===================================================================== *)
(** * The [random] module *)
(* ===================================================================== *)

(** The process-wide pseudo-random generator: a state and the functions of
    the module the simulator calls.  Nothing is assumed about the values
    drawn; each call maps the generator state to a result and a new
    state. *)
Class RandomModule : Type := {
  rng : Type;
  random_seed_ : Z -> rng;                          (* random.seed(a) *)
  random_random : M rng R;                          (* random.random() *)
  random_uniform : R -> R -> M rng R;               (* random.uniform(a, b) *)
  random_choices : list Z -> list R -> M rng Z;     (* random.choices(p, weights=w)[0] *)
  random_randint : Z -> Z -> M rng Z                (* random.randint(a, b) *)
}.

(* ===================================================================== *)
(** * Simulator/src/Inverter.py *)
(* ===================================================================== *)

Record Inverter : Type := mkInverter {
  _max_output_kw : R;
  _failure_rate : R;
  _min_failure_duration : Z;
  _max_failure_duration : Z;
  _is_failing : bool;
  _failure_hours_remaining : R
}.

Definition set_failure (self : Inverter) (failing : bool) (hours : R)
  : Inverter :=
  {| _max_output_kw := _max_output_kw self;
     _failure_rate := _failure_rate self;
     _min_failure_duration := _min_failure_duration self;
     _max_failure_duration := _max_failure_duration self;
     _is_failing := failing;
     _failure_hours_remaining := hours |}.

Module Inverter_.

Definition __init__ (max_output_kw failure_rate : R)
    (min_failure_duration max_failure_duration : Z) : Inverter :=
  {| _max_output_kw := max_output_kw;
     _failure_rate := failure_rate;
     _min_failure_duration := min_failure_duration;
     _max_failure_duration := max_failure_duration;
     _is_failing := false;
     _failure_hours_remaining := 0 |}.

Definition apply_limit (self : Inverter) (solar_generation : R) : R :=
  if _is_failing self then 0
  else min solar_generation (_max_output_kw self).

(** [check_failure] works on the inverter and on the generator. *)
Definition check_failure `{RandomModule} : M (Inverter * rng) unit :=
  st <- get ;;
  let self := fst st in
  if _is_failing self then ret tt
  else
    x <- zoom snd (fun g st => (fst st, g)) random_random ;;
    if ltb x (_failure_rate self) then
      st <- get ;;
      put (set_failure (fst st) true (_failure_hours_remaining (fst st)),
           snd st) ;;;
      hours <- zoom snd (fun g st => (fst st, g))
                 (random_randint (_min_failure_duration self)
                    (_max_failure_duration self)) ;;
      st <- get ;;
      put (set_failure (fst st) true (IZR hours), snd st)
    else ret tt.

(** [Inverter.update] over exact arithmetic ([Fl.update] is the same code
    over floats, where repeated subtraction drifts and the step at which a
    failure ends can move by one). *)
Definition update (hours_passed : R) : M Inverter unit :=
  self <- get ;;
  if _is_failing self then
    put (set_failure self (_is_failing self)
           (_failure_hours_remaining self - hours_passed)) ;;;
    self <- get ;;
    if leb (_failure_hours_remaining self) 0 then
      put (set_failure self false 0)
    else ret tt
  else ret tt.

Definition is_operational (self : Inverter) : bool :=
  if _is_failing self then false else true.

End Inverter_.

(* ===================================================================== *)
(** * Simulator/src/Load.py *)
(* ===================================================================== *)

Record Load : Type := mkLoad {
  _base_load_kw : R;
  _peak_hours_max_kw : R;
  _peak_hours_start : Z;
  _peak_hours_end : Z;
  _scheduled_events : list (Z * R * R * R)
}.

Module Load_.

Definition __init__ (base_load_kw peak_hours_max_kw : R)
    (peak_hours_start peak_hours_end : Z) : Load :=
  {| _base_load_kw := base_load_kw;
     _peak_hours_max_kw := peak_hours_max_kw;
     _peak_hours_start := peak_hours_start;
     _peak_hours_end := peak_hours_end;
     _scheduled_events :=
       [ (6%Z, 0.7, 1.0, 1.5);
         (7%Z, 0.5, 0.8, 1.2);
         (8%Z, 0.4, 0.8, 1.2);
         (12%Z, 0.6, 1.0, 1.5);
         (22%Z, 0.3, 0.5, 1.0) ] |}.

(** The [for] loop over the scheduled events. *)
Fixpoint scheduled `{RandomModule} (events : list (Z * R * R * R))
    (hour_of_day : Z) (total_demand : R) : M rng R :=
  match events with
  | [] => ret total_demand
  | (event_hour, probability, min_kw, max_kw) :: rest =>
      total_demand <-
        (if Z.eqb hour_of_day event_hour then
           x <- random_random ;;
           if ltb x probability then
             extra <- random_uniform min_kw max_kw ;;
             ret (total_demand + extra)
           else ret total_demand
         else ret total_demand) ;;
      scheduled rest hour_of_day total_demand
  end.

Definition generate `{RandomModule} (self : Load) (hour : R) : M rng R :=
  let hour_of_day := int hour in
  let total_demand := _base_load_kw self in
  total_demand <-
    (if (Z.leb (_peak_hours_start self) hour_of_day
         && Z.ltb hour_of_day (_peak_hours_end self))%bool then
       extra <- random_uniform 1.0 (_peak_hours_max_kw self) ;;
       ret (total_demand + extra)
     else scheduled (_scheduled_events self) hour_of_day total_demand) ;;
  x <- random_random ;;
  if ltb x 0.3 then
    extra <- random_uniform 0.0 0.8 ;;
    ret (total_demand + extra)
  else ret total_demand.

End Load_.

(* ===================================================================== *)
(** * Simulator/src/CloudCoverage.py *)
(* ===================================================================== *)

Record CloudCoverage : Type := mkCloudCoverage {
  _season : string
}.

Module CloudCoverage_.

(** The class attribute [PROBABILITIES], a dictionary keyed by season. *)
Definition PROBABILITIES (season : string) : option (list R) :=
  if String.eqb season "spring" then Some [0.1; 0.3; 0.4; 0.2]
  else if String.eqb season "summer" then Some [0.05; 0.15; 0.3; 0.5]
  else if String.eqb season "fall" then Some [0.2; 0.4; 0.3; 0.1]
  else if String.eqb season "winter" then Some [0.3; 0.4; 0.2; 0.1]
  else None.

Definition COVERAGE_RANGES : list (R * R) :=
  [ (0.0, 0.2); (0.2, 0.6); (0.6, 0.8); (0.8, 0.9) ].

Definition __init__ (season : string) : result CloudCoverage :=
  match PROBABILITIES season with
  | Some _ => Ok {| _season := season |}
  | None => Raise (ValueError ("Invalid season: " ++ season))
  end.

Definition get_daily_coverage `{RandomModule} (self : CloudCoverage)
  : M rng R :=
  match PROBABILITIES (_season self) with
  | None => raise (KeyError (_season self))
  | Some probabilities =>
      level <- random_choices [0; 1; 2; 3]%Z probabilities ;;
      '(min_coverage, max_coverage) <- getitem COVERAGE_RANGES level ;;
      coverage <- random_uniform min_coverage max_coverage ;;
      ret coverage
  end.

End CloudCoverage_.

(* ===================================================================== *)
(** * SolarPanel *)
(* ===================================================================== *)

Record SolarPanel : Type := mkSolarPanel {
  _peak_power_kw : R
}.

Module SolarPanel_.

(** Modelled from the spec: [SolarPanel.generate] of the simulator package
    ([Simulator/src/SolarPanel.py], imported by [Simulation.py]) is not
    among the sources.  The spec gives it as a pure function of the hour
    and the cloud coverage: zero outside the daylight window (hour < 6 or
    hour >= 18), and inside it
    [peak x sin(pi x (hour - 6) / 12) x (1 - cloud_coverage)]; the sibling
    [src/SolarPanel.py] has the same body. *)
Definition generate (self : SolarPanel) (hour_of_day cloud_coverage : R) : R :=
  if (ltb hour_of_day 6 || geb hour_of_day 18)%bool then 0
  else
    let hours_since_sunrise := hour_of_day - 6 in
    let sun_angle := hours_since_sunrise * (PI / 12) in
    let base_generation := _peak_power_kw self * sin sun_angle in
    let actual_generation := base_generation * (1 - cloud_coverage) in
    actual_generation.

End SolarPanel_.

(* ===================================================================== *)
(** * Simulator/src/Simulation.py *)
(* ===================================================================== *)

(** The configuration file, one field per key that is read; [None] for an
    optional key that is absent. *)
Record Config : Type := mkConfig {
  simulation_duration_days : Z;
  simulation_season : string;
  simulation_time_step_minutes : Z;
  simulation_random_seed : option Z;
  battery_count : option Z;
  battery_unit_capacity_kwh : R;
  battery_efficiency : R;
  battery_min_soc : R;
  solar_count : option Z;
  solar_unit_peak_power_kw : R;
  inverter_count : option Z;
  inverter_unit_max_output_kw : R;
  inverter_failure_rate : R;
  inverter_min_failure_duration_hours : Z;
  inverter_max_failure_duration_hours : Z;
  load_base_load_kw : R;
  load_peak_hours_max_kw : R;
  load_peak_hours_start : Z;
  load_peak_hours_end : Z;
  grid_import_cost_per_kwh : R;
  grid_export_revenue_per_kwh : R;
  grid_export_limit_kw : R;
  energy_management_strategy : string
}.

(** One entry of [hourly_data].  The timestamp is kept as the number of
    minutes since the configured start date. *)
Record StepRecord : Type := mkStepRecord {
  h_timestamp : Z;
  h_step : Z;
  h_hour : R;
  h_solar_generated_kw : R;
  h_solar_available_kw : R;
  h_load_demand_kw : R;
  h_cloud_coverage : R;
  h_battery_soc : R;
  h_solar_to_load : R;
  h_solar_to_battery : R;
  h_solar_to_grid : R;
  h_battery_to_load : R;
  h_grid_to_load : R;
  h_unmet_load : R;
  h_curtailed : R;
  h_inverter_operational : bool
}.

(** One entry of [daily_summaries]. *)
Record DaySummary : Type := mkDaySummary {
  d_day : Z;
  d_solar_generated_kwh : R;
  d_load_consumed_kwh : R;
  d_grid_imported_kwh : R;
  d_grid_exported_kwh : R;
  d_curtailed_kwh : R;
  d_battery_soc_end : R;
  d_self_sufficiency_percent : R
}.

(** One entry of [events_log]: the message is
    "Inverter FAILURE (remaining: <hours>h)". *)
Record Event : Type := mkEvent {
  e_timestamp : Z;
  e_failure_hours_remaining : R
}.

(** The numbers of the dictionary [_compile_results] returns (its other
    entries repeat the configuration and the collected data). *)
Record Results : Type := mkResults {
  r_total_solar_generated_kwh : R;
  r_total_load_consumed_kwh : R;
  r_total_grid_imported_kwh : R;
  r_total_grid_exported_kwh : R;
  r_total_curtailed_kwh : R;
  r_self_sufficiency_percent : R;
  r_total_import_cost : R;
  r_total_export_revenue : R;
  r_net_cost : R;
  r_average_soc_percent : R;
  r_final_soc_percent : R;
  r_times_full : Z;
  r_times_empty : Z;
  r_inverter_failures : Z;
  r_inverter_downtime_hours : R;
  r_hours_with_unmet_load : R;
  r_unmet_load_percentage : R
}.

(** The local variables of [_simulation_loop]. *)
Record Locals : Type := mkLocals {
  current_step : Z;
  daily_solar : R;
  daily_load : R;
  daily_grid_import : R;
  daily_grid_export : R;
  daily_curtailed : R;
  current_day : Z
}.

(** [while cond: body] over the local variables, with a bound on the number
    of iterations. *)
Fixpoint while {S L : Type} (fuel : nat) (cond : L -> bool)
    (body : L -> M S L) (l : L) : M S L :=
  match fuel with
  | O => ret l
  | Datatypes.S n =>
      if cond l then l' <- body l ;; while n cond body l' else ret l
  end.

(** [env.timeout(delay)] of SimPy, for the single process of a run. *)
Definition env_timeout {S : Type} (delay : Z) : M S unit :=
  if Z.ltb delay 0 then raise (ValueError "Negative delay") else ret tt.

Section SimulationModel.

Context `{RandomModule}.

(** The attributes of a [Simulation] object, and the state of the global
    generator it draws from. *)
Record Simulation : Type := mkSimulation {
  config : Config;
  actual_seed : Z;
  sim_battery : Battery;
  solar_panel : SolarPanel;
  cloud_coverage : CloudCoverage;
  inverter : Inverter;
  load : Load;
  sim_grid : Grid;
  ems : EnergyManagementSystem;
  hourly_data : list StepRecord;
  daily_summaries : list DaySummary;
  events_log : list Event;
  duration_days : Z;
  time_step_minutes : Z;
  current_cloud_coverage : R;
  random_state : rng
}.

Definition with_mutable (self : Simulation) (b : Battery) (i : Inverter)
    (g : Grid) (hd : list StepRecord) (ds : list DaySummary)
    (ev : list Event) (cc : R) (rs : rng) : Simulation :=
  {| config := config self;
     actual_seed := actual_seed self;
     sim_battery := b;
     solar_panel := solar_panel self;
     cloud_coverage := cloud_coverage self;
     inverter := i;
     load := load self;
     sim_grid := g;
     ems := ems self;
     hourly_data := hd;
     daily_summaries := ds;
     events_log := ev;
     duration_days := duration_days self;
     time_step_minutes := time_step_minutes self;
     current_cloud_coverage := cc;
     random_state := rs |}.

Definition set_store (st : Store) (self : Simulation) : Simulation :=
  with_mutable self (battery st) (inverter self) (grid st)
    (hourly_data self) (daily_summaries self) (events_log self)
    (current_cloud_coverage self) (random_state self).

Definition set_battery (b : Battery) (self : Simulation) : Simulation :=
  with_mutable self b (inverter self) (sim_grid self)
    (hourly_data self) (daily_summaries self) (events_log self)
    (current_cloud_coverage self) (random_state self).

Definition set_inverter (i : Inverter) (self : Simulation) : Simulation :=
  with_mutable self (sim_battery self) i (sim_grid self)
    (hourly_data self) (daily_summaries self) (events_log self)
    (current_cloud_coverage self) (random_state self).

Definition set_random_state (rs : rng) (self : Simulation) : Simulation :=
  with_mutable self (sim_battery self) (inverter self) (sim_grid self)
    (hourly_data self) (daily_summaries self) (events_log self)
    (current_cloud_coverage self) rs.

Definition set_inverter_random (p : Inverter * rng) (self : Simulation)
  : Simulation :=
  with_mutable self (sim_battery self) (fst p) (sim_grid self)
    (hourly_data self) (daily_summaries self) (events_log self)
    (current_cloud_coverage self) (snd p).

Definition set_hourly_data (hd : list StepRecord) (self : Simulation)
  : Simulation :=
  with_mutable self (sim_battery self) (inverter self) (sim_grid self)
    hd (daily_summaries self) (events_log self)
    (current_cloud_coverage self) (random_state self).

Definition set_daily_summaries (ds : list DaySummary) (self : Simulation)
  : Simulation :=
  with_mutable self (sim_battery self) (inverter self) (sim_grid self)
    (hourly_data self) ds (events_log self)
    (current_cloud_coverage self) (random_state self).

Definition set_events_log (ev : list Event) (self : Simulation)
  : Simulation :=
  with_mutable self (sim_battery self) (inverter self) (sim_grid self)
    (hourly_data self) (daily_summaries self) ev
    (current_cloud_coverage self) (random_state self).

Definition set_current_cloud_coverage (cc : R) (self : Simulation)
  : Simulation :=
  with_mutable self (sim_battery self) (inverter self) (sim_grid self)
    (hourly_data self) (daily_summaries self) (events_log self)
    cc (random_state self).

(** Calls on the objects the simulation owns. *)
Definition on_store {A} (m : M Store A) : M Simulation A :=
  zoom (fun self => mkStore (sim_battery self) (sim_grid self)) set_store m.

Definition on_sim_battery {A} (m : M Battery A) : M Simulation A :=
  zoom sim_battery set_battery m.

Definition on_inverter {A} (m : M Inverter A) : M Simulation A :=
  zoom inverter set_inverter m.

Definition on_random {A} (m : M rng A) : M Simulation A :=
  zoom random_state set_random_state m.

Definition on_inverter_random {A} (m : M (Inverter * rng) A)
  : M Simulation A :=
  zoom (fun self => (inverter self, random_state self)) set_inverter_random m.

(** [Simulation.__init__]: the configuration is already parsed;
    [time_us] stands for [int(time.time() * 1000000)], read only when the
    configuration has no seed. *)
Definition __init__ (cfg : Config) (time_us : Z) : result Simulation :=
  let seed :=
    match simulation_random_seed cfg with
    | None => (time_us mod 2147483647)%Z
    | Some config_seed => config_seed
    end in
  let rs := random_seed_ seed in
  let count (c : option Z) := match c with Some n => n | None => 1%Z end in
  let battery_total :=
    IZR (count (battery_count cfg)) * battery_unit_capacity_kwh cfg in
  let solar_total :=
    IZR (count (solar_count cfg)) * solar_unit_peak_power_kw cfg in
  let inverter_total :=
    IZR (count (inverter_count cfg)) * inverter_unit_max_output_kw cfg in
  match Battery_.__init__ battery_total (battery_efficiency cfg)
          (battery_min_soc cfg) with
  | Raise e => Raise e
  | Ok b =>
      match CloudCoverage_.__init__ (simulation_season cfg) with
      | Raise e => Raise e
      | Ok cc =>
          match CloudCoverage_.get_daily_coverage cc rs with
          | (Raise e, _) => Raise e
          | (Ok coverage, rs') =>
              Ok {| config := cfg;
                    actual_seed := seed;
                    sim_battery := b;
                    solar_panel := {| _peak_power_kw := solar_total |};
                    cloud_coverage := cc;
                    inverter :=
                      Inverter_.__init__ inverter_total
                        (inverter_failure_rate cfg)
                        (inverter_min_failure_duration_hours cfg)
                        (inverter_max_failure_duration_hours cfg);
                    load :=
                      Load_.__init__ (load_base_load_kw cfg)
                        (load_peak_hours_max_kw cfg)
                        (load_peak_hours_start cfg)
                        (load_peak_hours_end cfg);
                    sim_grid :=
                      Grid_.__init__ (grid_import_cost_per_kwh cfg)
                        (grid_export_revenue_per_kwh cfg)
                        (grid_export_limit_kw cfg);
                    ems := {| _strategy := energy_management_strategy cfg |};
                    hourly_data := [];
                    daily_summaries := [];
                    events_log := [];
                    duration_days := simulation_duration_days cfg;
                    time_step_minutes := simulation_time_step_minutes cfg;
                    current_cloud_coverage := coverage;
                    random_state := rs' |}
          end
      end
  end.

Definition _log_daily_summary (day : Z)
    (solar load_ grid_import grid_export curtailed_ self_sufficiency : R)
  : M Simulation unit :=
  soc <- on_sim_battery Battery_.get_soc ;;
  self <- get ;;
  put (set_daily_summaries
         (daily_summaries self ++
          [ {| d_day := day + 1;
               d_solar_generated_kwh := solar;
               d_load_consumed_kwh := load_;
               d_grid_imported_kwh := grid_import;
               d_grid_exported_kwh := grid_export;
               d_curtailed_kwh := curtailed_;
               d_battery_soc_end := soc;
               d_self_sufficiency_percent := self_sufficiency |} ])
         self).

(** One iteration of the [while] loop of [_simulation_loop]. *)
Definition loop_body (time_step_hours : R) (steps_per_day : Z) (l : Locals)
  : M Simulation Locals :=
  self <- get ;;
  let minutes_since_midnight :=
    ((current_step l * time_step_minutes self) mod (24 * 60))%Z in
  let hour_of_day := IZR minutes_since_midnight / 60.0 in
  let current_date := (current_step l * time_step_minutes self)%Z in
  let solar_available :=
    SolarPanel_.generate (solar_panel self) hour_of_day
      (current_cloud_coverage self) in
  let solar_generated :=
    if Inverter_.is_operational (inverter self)
    then Inverter_.apply_limit (inverter self) solar_available
    else 0 in
  load_demand <- on_random (Load_.generate (load self) hour_of_day) ;;
  flows <- on_store (EMS.distribute_energy (ems self) solar_generated
                       load_demand time_step_hours) ;;
  soc <- on_sim_battery Battery_.get_soc ;;
  self <- get ;;
  put (set_hourly_data
         (hourly_data self ++
          [ {| h_timestamp := current_date;
               h_step := current_step l;
               h_hour := hour_of_day;
               h_solar_generated_kw := solar_generated;
               h_solar_available_kw := solar_available;
               h_load_demand_kw := load_demand;
               h_cloud_coverage := current_cloud_coverage self;
               h_battery_soc := soc;
               h_solar_to_load := solar_to_load flows;
               h_solar_to_battery := solar_to_battery flows;
               h_solar_to_grid := solar_to_grid flows;
               h_battery_to_load := battery_to_load flows;
               h_grid_to_load := grid_to_load flows;
               h_unmet_load := unmet_load flows;
               h_curtailed := curtailed flows;
               h_inverter_operational :=
                 Inverter_.is_operational (inverter self) |} ])
         self) ;;;
  let daily_solar :=
    daily_solar l
    + (solar_to_load flows + solar_to_battery flows + solar_to_grid flows)
      * time_step_hours in
  let daily_load := daily_load l + load_demand * time_step_hours in
  let daily_grid_import :=
    daily_grid_import l + grid_to_load flows * time_step_hours in
  let daily_grid_export :=
    daily_grid_export l + solar_to_grid flows * time_step_hours in
  let daily_curtailed :=
    daily_curtailed l + curtailed flows * time_step_hours in
  env_timeout (time_step_minutes self) ;;;
  let current_step := (current_step l + 1)%Z in
  on_inverter (Inverter_.update time_step_hours) ;;;
  r <- mod_ current_step steps_per_day ;;
  if (Z.eqb r 0 && Z.gtb current_step 0)%bool then
    let daily_self_sufficiency :=
      if gtb daily_load 0
      then (1 - daily_grid_import / daily_load) * 100 else 0 in
    _log_daily_summary (current_day l) daily_solar daily_load
      daily_grid_import daily_grid_export daily_curtailed
      daily_self_sufficiency ;;;
    on_inverter_random Inverter_.check_failure ;;;
    self <- get ;;
    (if _is_failing (inverter self) then
       put (set_events_log
              (events_log self ++
               [ {| e_timestamp := current_date;
                    e_failure_hours_remaining :=
                      _failure_hours_remaining (inverter self) |} ])
              self)
     else ret tt) ;;;
    coverage <- on_random
                  (CloudCoverage_.get_daily_coverage (cloud_coverage self)) ;;
    self <- get ;;
    put (set_current_cloud_coverage coverage self) ;;;
    ret {| current_step := current_step;
           daily_solar := 0;
           daily_load := 0;
           daily_grid_import := 0;
           daily_grid_export := 0;
           daily_curtailed := 0;
           current_day := current_day l + 1 |}
  else
    ret {| current_step := current_step;
           daily_solar := daily_solar;
           daily_load := daily_load;
           daily_grid_import := daily_grid_import;
           daily_grid_export := daily_grid_export;
           daily_curtailed := daily_curtailed;
           current_day := current_day l |}.

Definition _simulation_loop : M Simulation unit :=
  self <- get ;;
  total_steps <- floordiv (duration_days self * 24 * 60)
                   (time_step_minutes self) ;;
  let time_step_hours := IZR (time_step_minutes self) / 60.0 in
  steps_per_day <- floordiv (24 * 60) (time_step_minutes self) ;;
  l <- while (Z.to_nat total_steps)
         (fun l => Z.ltb (current_step l) total_steps)
         (loop_body time_step_hours steps_per_day)
         {| current_step := 0;
            daily_solar := 0;
            daily_load := 0;
            daily_grid_import := 0;
            daily_grid_export := 0;
            daily_curtailed := 0;
            current_day := 0 |} ;;
  if (gtb (daily_solar l) 0 || gtb (daily_load l) 0)%bool then
    let daily_self_sufficiency :=
      if gtb (daily_load l) 0
      then (1 - daily_grid_import l / daily_load l) * 100 else 0 in
    _log_daily_summary (current_day l) (daily_solar l) (daily_load l)
      (daily_grid_import l) (daily_grid_export l) (daily_curtailed l)
      daily_self_sufficiency
  else ret tt.

(** Builtin [sum] over floats, and [sum(1 for x in xs if p(x))]. *)
Definition sum (xs : list R) : R := fold_left Rplus xs 0.

Definition count {A : Type} (p : A -> bool) (xs : list A) : Z :=
  Z.of_nat (List.length (filter p xs)).

(** [Simulation._compile_results]: the statistics of a run, computed from
    the collected data.  Its divisions are guarded; the one call that can
    raise is [self.battery.get_soc()], on a battery of capacity 0.  Every
    entry of [events_log] carries a FAILURE message, so the failures are
    counted by the length of the log. *)
Definition _compile_results : M Simulation Results :=
  self <- get ;;
  let total_solar := sum (map d_solar_generated_kwh (daily_summaries self)) in
  let total_load := sum (map d_load_consumed_kwh (daily_summaries self)) in
  let total_grid_import :=
    sum (map d_grid_imported_kwh (daily_summaries self)) in
  let total_grid_export :=
    sum (map d_grid_exported_kwh (daily_summaries self)) in
  let total_curtailed := sum (map d_curtailed_kwh (daily_summaries self)) in
  let total_import_cost :=
    total_grid_import * grid_import_cost_per_kwh (config self) in
  let total_export_revenue :=
    total_grid_export * grid_export_revenue_per_kwh (config self) in
  let net_cost := total_import_cost - total_export_revenue in
  let soc_values := map h_battery_soc (hourly_data self) in
  let avg_soc :=
    match soc_values with
    | [] => 0
    | _ => sum soc_values / IZR (Z.of_nat (List.length soc_values))
    end in
  final_soc <- on_sim_battery Battery_.get_soc ;;
  let min_soc_threshold := battery_min_soc (config self) * 100 in
  let max_soc_threshold := 100.0 in
  let battery_full_count :=
    count (fun h => geb (h_battery_soc h) (max_soc_threshold - 0.1))
      (hourly_data self) in
  let battery_empty_count :=
    count (fun h => leb (h_battery_soc h) (min_soc_threshold + 0.1))
      (hourly_data self) in
  let inverter_failures := Z.of_nat (List.length (events_log self)) in
  let downtime_hours :=
    IZR (count (fun h => negb (h_inverter_operational h)) (hourly_data self))
    * (IZR (time_step_minutes self) / 60.0) in
  let time_step_hours := IZR (time_step_minutes self) / 60.0 in
  let unmet_load_hours :=
    IZR (count (fun h => gtb (h_unmet_load h) 0) (hourly_data self))
    * time_step_hours in
  let total_hours :=
    IZR (Z.of_nat (List.length (hourly_data self))) * time_step_hours in
  let unmet_load_percentage :=
    if gtb total_hours 0 then unmet_load_hours / total_hours * 100 else 0 in
  let self_sufficiency :=
    if gtb total_load 0 then (1 - total_grid_import / total_load) * 100
    else 0 in
  ret {| r_total_solar_generated_kwh := total_solar;
         r_total_load_consumed_kwh := total_load;
         r_total_grid_imported_kwh := total_grid_import;
         r_total_grid_exported_kwh := total_grid_export;
         r_total_curtailed_kwh := total_curtailed;
         r_self_sufficiency_percent := self_sufficiency;
         r_total_import_cost := total_import_cost;
         r_total_export_revenue := total_export_revenue;
         r_net_cost := net_cost;
         r_average_soc_percent := avg_soc;
         r_final_soc_percent := final_soc;
         r_times_full := battery_full_count;
         r_times_empty := battery_empty_count;
         r_inverter_failures := inverter_failures;
         r_inverter_downtime_hours := downtime_hours;
         r_hours_with_unmet_load := unmet_load_hours;
         r_unmet_load_percentage := unmet_load_percentage |}.

(** [Simulation.run]: the loop, then the statistics. *)
Definition run : M Simulation Results :=
  self <- get ;;
  total_steps <- floordiv (duration_days self * 24 * 60)
                   (time_step_minutes self) ;;
  _simulation_loop ;;;
  _compile_results.

(** A complete run from a configuration: the simulation is built and run;
    of the outcome only whether it returned or raised is kept, with the
    simulation as the run left it. *)
Definition simulate (cfg : Config) (time_us : Z) : result unit * option Simulation :=
  match __init__ cfg time_us with
  | Raise e => (Raise e, None)
  | Ok sim =>
      match run sim with
      | (Ok _, sim') => (Ok tt, Some sim')
      | (Raise e, sim') => (Raise e, Some sim')
      end
  end.

End SimulationModel.

(* ===================================================================== *)
(** * Specification vocabulary *)
(* ===================================================================== *)

(** Half a unit of the sixth decimal: the error of one [round(x, 6)]. *)
Definition eps6 : R := / 2 * / 10 ^ 6.

(** The battery invariant of the data model. *)
Definition within_bounds (b : Battery) : Prop :=
  _min_energy_kwh b <= _energy_kwh b <= _capacity_kwh b.

(** The documented example components. *)
Definition example_battery : Battery :=
  mkBattery 13.5 0.9 0.05 6.75 0.675 (sqrt 0.9).

Definition example_grid : Grid := Grid_.__init__ 0.0075 0.009 20.

Definition example_store : Store := mkStore example_battery example_grid.

(** ** Vocabulary for the strategy-independence of the random draws *)

(** The configuration with another dispatch strategy. *)
Definition with_strategy (cfg : Config) (strategy : string) : Config :=
  {| simulation_duration_days := simulation_duration_days cfg;
     simulation_season := simulation_season cfg;
     simulation_time_step_minutes := simulation_time_step_minutes cfg;
     simulation_random_seed := simulation_random_seed cfg;
     battery_count := battery_count cfg;
     battery_unit_capacity_kwh := battery_unit_capacity_kwh cfg;
     battery_efficiency := battery_efficiency cfg;
     battery_min_soc := battery_min_soc cfg;
     solar_count := solar_count cfg;
     solar_unit_peak_power_kw := solar_unit_peak_power_kw cfg;
     inverter_count := inverter_count cfg;
     inverter_unit_max_output_kw := inverter_unit_max_output_kw cfg;
     inverter_failure_rate := inverter_failure_rate cfg;
     inverter_min_failure_duration_hours :=
       inverter_min_failure_duration_hours cfg;
     inverter_max_failure_duration_hours :=
       inverter_max_failure_duration_hours cfg;
     load_base_load_kw := load_base_load_kw cfg;
     load_peak_hours_max_kw := load_peak_hours_max_kw cfg;
     load_peak_hours_start := load_peak_hours_start cfg;
     load_peak_hours_end := load_peak_hours_end cfg;
     grid_import_cost_per_kwh := grid_import_cost_per_kwh cfg;
     grid_export_revenue_per_kwh := grid_export_revenue_per_kwh cfg;
     grid_export_limit_kw := grid_export_limit_kw cfg;
     energy_management_strategy := strategy |}.

(** The columns of a step record that come from the weather, the panel
    and the load: cloud coverage, available solar power, load demand. *)
Definition env_columns (h : StepRecord) : R * R * R :=
  (h_cloud_coverage h, h_solar_available_kw h, h_load_demand_kw h).

Section Independence.

Context `{RandomModule}.

(** What the dispatch strategy cannot influence: the generator, the
    inverter, the weather of the day, the static components and the three
    columns logged so far. *)
Record EnvView : Type := mkEnvView {
  v_solar_panel : SolarPanel;
  v_cloud_coverage : CloudCoverage;
  v_inverter : Inverter;
  v_load : Load;
  v_duration_days : Z;
  v_time_step_minutes : Z;
  v_current_cloud_coverage : R;
  v_random_state : rng;
  v_columns : list (R * R * R)
}.

Definition env_of (self : Simulation) : EnvView :=
  {| v_solar_panel := solar_panel self;
     v_cloud_coverage := cloud_coverage self;
     v_inverter := inverter self;
     v_load := load self;
     v_duration_days := duration_days self;
     v_time_step_minutes := time_step_minutes self;
     v_current_cloud_coverage := current_cloud_coverage self;
     v_random_state := random_state self;
     v_columns := map env_columns (hourly_data self) |}.

(** Two computations started in states with the same view that both return
    end in states with the same view, with results related by [Rres]. *)
Definition lockstep {A : Type} (Rres : A -> A -> Prop)
    (m1 m2 : M Simulation A) : Prop :=
  forall a b ra a' rb b',
    env_of a = env_of b ->
    m1 a = (Ok ra, a') -> m2 b = (Ok rb, b') ->
    Rres ra rb /\ env_of a' = env_of b'.

(** A computation that leaves the view alone. *)
Definition keeps_env {A : Type} (m : M Simulation A) : Prop :=
  forall a r a', m a = (r, a') -> env_of a' = env_of a.

End Independence.

(** ** Vocabulary for runs that complete *)

(** [m] started in [s] returns, with a result and a state satisfying [Q]. *)
Definition runs {S A : Type} (Q : A -> S -> Prop) (m : M S A) (s : S) : Prop :=
  exists a s', m s = (Ok a, s') /\ Q a s'.

(** Every result [m] returns satisfies [Q]. *)
Definition returns {S A : Type} (Q : A -> Prop) (m : M S A) : Prop :=
  forall s a s', m s = (Ok a, s') -> Q a.

(** A generator whose functions always return, [choices] returning a
    member of the population. *)
Record total_random `{RandomModule} : Prop := {
  random_total : forall g, exists x g', random_random g = (Ok x, g');
  uniform_total :
    forall a b g, exists x g', random_uniform a b g = (Ok x, g');
  choices_total :
    forall pop w g, pop <> [] ->
      exists x g', random_choices pop w g = (Ok x, g') /\ In x pop;
  randint_total :
    forall a b g, exists x g', random_randint a b g = (Ok x, g')
}.

(** A simulation whose configuration lets every step run: a recognised
    strategy and season, a battery with non-zero capacity and one-way
    efficiency, and a time step between one minute and one day. *)
Definition sane `{RandomModule} (self : Simulation) : Prop :=
  _one_way_efficiency (sim_battery self) <> 0 /\
  _capacity_kwh (sim_battery self) <> 0 /\
  In (_strategy (ems self))
    ["LOAD_PRIORITY"; "CHARGE_PRIORITY"; "PRODUCE_PRIORITY"]%string /\
  (0 < time_step_minutes self <= 24 * 60)%Z /\
  CloudCoverage_.PROBABILITIES (_season (cloud_coverage self)) <> None.

(** A configuration from which [__init__] builds a sane simulation. *)
Definition sane_config (cfg : Config) : Prop :=
  0 < battery_efficiency cfg /\
  IZR (match battery_count cfg with Some n => n | None => 1%Z end)
    * battery_unit_capacity_kwh cfg <> 0 /\
  In (energy_management_strategy cfg)
    ["LOAD_PRIORITY"; "CHARGE_PRIORITY"; "PRODUCE_PRIORITY"]%string /\
  (0 < simulation_time_step_minutes cfg <= 24 * 60)%Z /\
  CloudCoverage_.PROBABILITIES (simulation_season cfg) <> None.

(** A small deterministic generator, used to run examples: the state
    counts the draws. *)
Definition counting_random : RandomModule :=
  {| rng := nat;
     random_seed_ := Z.to_nat;
     random_random := fun n => (Ok (/ 2), Datatypes.S n);
     random_uniform := fun a b n => (Ok (a + (b - a) * / 2), Datatypes.S n);
     random_choices :=
       fun pop _ n =>
         (Ok (nth (Nat.modulo n (List.length pop)) pop 0%Z), Datatypes.S n);
     random_randint := fun a _ n => (Ok a, Datatypes.S n) |}.

Definition example_config : Config :=
  {| simulation_duration_days := 2;
     simulation_season := "summer";
     simulation_time_step_minutes := 60;
     simulation_random_seed := Some 42%Z;
     battery_count := None;
     battery_unit_capacity_kwh := 13.5;
     battery_efficiency := 0.9;
     battery_min_soc := 0.05;
     solar_count := Some 2%Z;
     solar_unit_peak_power_kw := 2.5;
     inverter_count := None;
     inverter_unit_max_output_kw := 4;
     inverter_failure_rate := 0.005;
     inverter_min_failure_duration_hours := 4;
     inverter_max_failure_duration_hours := 72;
     load_base_load_kw := 0.5;
     load_peak_hours_max_kw := 3;
     load_peak_hours_start := 18;
     load_peak_hours_end := 21;
     grid_import_cost_per_kwh := 0.0075;
     grid_export_revenue_per_kwh := 0.009;
     grid_export_limit_kw := 20;
     energy_management_strategy := "LOAD_PRIORITY" |}.

(* ===================================================================== *)
(** * Further functions of the sources *)
(* ===================================================================== *)

(** A client call on a grid, and a finite sequence of them. *)
Inductive grid_call : Type :=
| Import (power_kw time_step_hours : R)
| Export (power_kw time_step_hours : R).

Definition grid_call_power (c : grid_call) : R :=
  match c with Import p _ => p | Export p _ => p end.

Definition grid_call_step (c : grid_call) : R :=
  match c with Import _ dt => dt | Export _ dt => dt end.

Definition gcall (c : grid_call) : M Grid R :=
  match c with
  | Import p dt => Grid_.import_energy p dt
  | Export p dt => Grid_.export_energy p dt
  end.

Fixpoint gcalls (cs : list grid_call) : M Grid (list R) :=
  match cs with
  | [] => ret []
  | c :: cs' => r <- gcall c ;; rs <- gcalls cs' ;; ret (r :: rs)
  end.

(** ** src/SolarPanel.py *)

Record SolarPanelSrc : Type := mkSolarPanelSrc {
  _peak_capacity_kw : R
}.

Module SolarPanelSrc_.

Definition __init__ (peak_capacity_kw : R) : SolarPanelSrc :=
  {| _peak_capacity_kw := peak_capacity_kw |}.

(** [SolarPanel.generate] with the sine of the reals: only its sign and
    its bound by 1 on the daylight window are used, not identities such as
    [sin (PI - x) = sin x], which [math.sin] has up to rounding only. *)
Definition generate (self : SolarPanelSrc) (hour_of_day cloud_coverage : R)
  : R :=
  if (ltb hour_of_day 6 || geb hour_of_day 18)%bool then 0
  else
    let hours_since_sunrise := hour_of_day - 6 in
    let sun_angle := hours_since_sunrise * (PI / 12) in
    let base_generation := _peak_capacity_kw self * sin sun_angle in
    let actual_generation := base_generation * (1 - cloud_coverage) in
    actual_generation.

End SolarPanelSrc_.

(** ** The contract of the [random] module *)

(** What the documentation of the module promises about the values:
    [random()] is in [0, 1), [uniform(a, b)] lies between [a] and [b],
    [choices] returns a member of a non-empty population and
    [randint(a, b)] an integer of [a..b] when [a <= b]. *)
Record bounded_random `{RandomModule} : Prop := {
  random_range :
    forall g x g', random_random g = (Ok x, g') -> 0 <= x < 1;
  uniform_range :
    forall a b g x g', random_uniform a b g = (Ok x, g') ->
      Rmin a b <= x <= Rmax a b;
  choices_member :
    forall pop w g x g', pop <> [] ->
      random_choices pop w g = (Ok x, g') -> In x pop;
  randint_range :
    forall a b g x g', (a <= b)%Z ->
      random_randint a b g = (Ok x, g') -> (a <= x <= b)%Z
}.

(** ** Sequences of calls on an inverter *)

(** A client call on an inverter; [check_failure] also draws from the
    generator. *)
Inductive inverter_call : Type :=
| Update (hours_passed : R)
| CheckFailure.

Definition icall `{RandomModule} (c : inverter_call)
  : M (Inverter * rng) unit :=
  match c with
  | Update h => zoom fst (fun i st => (i, snd st)) (Inverter_.update h)
  | CheckFailure => Inverter_.check_failure
  end.

Fixpoint icalls `{RandomModule} (cs : list inverter_call)
  : M (Inverter * rng) unit :=
  match cs with
  | [] => ret tt
  | c :: cs' => icall c ;;; icalls cs'
  end.

(* ===================================================================== *)
(** * Battery.py and Inverter.update on floats *)
(* ===================================================================== *)

(** Python computes on binary64 floats: every arithmetic operation returns
    the exact result rounded to a float.  The embedding of [Battery] above
    reads the code over the reals, which is what the structural theorems
    need.  Module [Fl] is the same code over an interface of float
    operations.  It is read twice: over binary64 itself ([Binary64.ops],
    the primitive floats, which compute what CPython computes), and over
    the reals with an explicit rounding after every operation
    ([rounded fl]), which is where the theorems that depend on rounding are
    stated. *)

Module Fl.

Class FloatOps : Type := mkFloatOps {
  num : Type;
  fadd : num -> num -> num;
  fsub : num -> num -> num;
  fmul : num -> num -> num;
  fdiv : num -> num -> num;
  fsqrt : num -> num;
  fltb : num -> num -> bool;
  fleb : num -> num -> bool;
  feqb : num -> num -> bool;
  (** the literals [0], [0.5], [100] and [99.9] *)
  lit_0 : num;
  lit_0_5 : num;
  lit_100 : num;
  lit_99_9 : num
}.

Section Code.

Context {ops : FloatOps}.

(** Builtin [min(a, b)]. *)
Definition min (a b : num) : num := if fltb b a then b else a.

(** [x / y] on floats. *)
Definition truediv {S} (x y : num) : M S num :=
  if feqb y lit_0 then raise (ZeroDivisionError "float division by zero")
  else ret (fdiv x y).

(** [math.sqrt]. *)
Definition math_sqrt {S} (x : num) : M S num :=
  if fltb x lit_0 then raise (ValueError "math domain error")
  else ret (fsqrt x).

Record Battery : Type := mkBattery {
  _capacity_kwh : num;
  _efficiency : num;
  _min_soc : num;
  _energy_kwh : num;
  _min_energy_kwh : num;
  _one_way_efficiency : num
}.

Definition set_energy_kwh (self : Battery) (e : num) : Battery :=
  {| _capacity_kwh := _capacity_kwh self;
     _efficiency := _efficiency self;
     _min_soc := _min_soc self;
     _energy_kwh := e;
     _min_energy_kwh := _min_energy_kwh self;
     _one_way_efficiency := _one_way_efficiency self |}.

(** [Battery.__init__]. *)
Definition __init__ (capacity_kwh efficiency min_soc : num) : result Battery :=
  match math_sqrt efficiency tt with
  | (Ok owe, _) =>
      Ok {| _capacity_kwh := capacity_kwh;
            _efficiency := efficiency;
            _min_soc := min_soc;
            _energy_kwh := fmul capacity_kwh lit_0_5;
            _min_energy_kwh := fmul capacity_kwh min_soc;
            _one_way_efficiency := owe |}
  | (Raise e, _) => Raise e
  end.

Definition get_soc : M Battery num :=
  self <- get ;;
  q <- truediv (_energy_kwh self) (_capacity_kwh self) ;;
  ret (fmul q lit_100).

(** [is_full()] with its default threshold. *)
Definition is_full : M Battery bool :=
  soc <- get_soc ;;
  ret (fleb lit_99_9 soc).

Definition is_empty (self : Battery) : bool :=
  fleb (_energy_kwh self) (_min_energy_kwh self).

Definition charge (energy_kwh : num) : M Battery num :=
  self <- get ;;
  let usable_energy := fmul energy_kwh (_one_way_efficiency self) in
  let space_available := fsub (_capacity_kwh self) (_energy_kwh self) in
  let energy_to_store := min usable_energy space_available in
  energy_consumed_from_source <-
    truediv energy_to_store (_one_way_efficiency self) ;;
  put (set_energy_kwh self (fadd (_energy_kwh self) energy_to_store)) ;;;
  ret energy_consumed_from_source.

Definition discharge (energy_kwh : num) : M Battery num :=
  self <- get ;;
  required_energy <- truediv energy_kwh (_one_way_efficiency self) ;;
  let max_available := fsub (_energy_kwh self) (_min_energy_kwh self) in
  let actual_extracted := min required_energy max_available in
  put (set_energy_kwh self (fsub (_energy_kwh self) actual_extracted)) ;;;
  let supplied := fmul actual_extracted (_one_way_efficiency self) in
  ret supplied.

(** A client call on a battery, and a finite sequence of them. *)
Inductive battery_call : Type :=
| Charge (energy_kwh : num)
| Discharge (energy_kwh : num).

Definition call_arg (c : battery_call) : num :=
  match c with Charge e => e | Discharge e => e end.

Definition call (c : battery_call) : M Battery num :=
  match c with Charge e => charge e | Discharge e => discharge e end.

Fixpoint calls (cs : list battery_call) : M Battery (list num) :=
  match cs with
  | [] => ret []
  | c :: cs' => x <- call c ;; xs <- calls cs' ;; ret (x :: xs)
  end.

(** The bounds of the data model, as comparisons of floats. *)
Definition within_bounds (b : Battery) : bool :=
  (fleb (_min_energy_kwh b) (_energy_kwh b)
   && fleb (_energy_kwh b) (_capacity_kwh b))%bool.

(** The failure clock of [Inverter]: the two fields [update] works on. *)
Record FailureClock : Type := mkFailureClock {
  _is_failing : bool;
  _failure_hours_remaining : num
}.

(** [Inverter.update]. *)
Definition update (hours_passed : num) : M FailureClock unit :=
  self <- get ;;
  if _is_failing self then
    put {| _is_failing := _is_failing self;
           _failure_hours_remaining :=
             fsub (_failure_hours_remaining self) hours_passed |} ;;;
    self <- get ;;
    if fleb (_failure_hours_remaining self) lit_0 then
      put {| _is_failing := false; _failure_hours_remaining := lit_0 |}
    else ret tt
  else ret tt.

Fixpoint updates (n : nat) (hours_passed : num) : M FailureClock unit :=
  match n with
  | O => ret tt
  | Datatypes.S n' => update hours_passed ;;; updates n' hours_passed
  end.

End Code.

End Fl.

(** ** The floats of the program *)

Module Binary64.

Import PrimFloat.

#[warnings="-inexact-float"]
Definition ops : Fl.FloatOps :=
  {| Fl.num := float;
     Fl.fadd := add;
     Fl.fsub := sub;
     Fl.fmul := mul;
     Fl.fdiv := div;
     Fl.fsqrt := sqrt;
     Fl.fltb := ltb;
     Fl.fleb := leb;
     Fl.feqb := eqb;
     Fl.lit_0 := 0%float;
     Fl.lit_0_5 := 0.5%float;
     Fl.lit_100 := 100%float;
     Fl.lit_99_9 := 99.9%float |}.

(** [Battery(13.5, 0.9, 0.05)], the battery of the documentation, and
    [Battery(7.3, 0.9, 0.05)]. *)
#[warnings="-inexact-float"]
Definition documented_battery : result (@Fl.Battery ops) :=
  Fl.__init__ (ops := ops) 13.5%float 0.9%float 0.05%float.

#[warnings="-inexact-float"]
Definition small_battery : result (@Fl.Battery ops) :=
  Fl.__init__ (ops := ops) 7.3%float 0.9%float 0.05%float.

(** The calls of the examples: [discharge(20)]; [discharge(1.7)] then
    [charge(1000)]; [charge(1)] then [discharge(1)]. *)
Definition discharge_20 : list (@Fl.battery_call ops) :=
  [Fl.Discharge (ops := ops) 20%float].

#[warnings="-inexact-float"]
Definition discharge_then_fill : list (@Fl.battery_call ops) :=
  [Fl.Discharge (ops := ops) 1.7%float; Fl.Charge (ops := ops) 1000%float].

Definition round_trip_1 : list (@Fl.battery_call ops) :=
  [Fl.Charge (ops := ops) 1%float; Fl.Discharge (ops := ops) 1%float].

(** The literals [1.0] and [0.95]. *)
Definition lit_1 : float := 1%float.

#[warnings="-inexact-float"]
Definition lit_0_95 : float := 0.95%float.

(** Ten updates of 0.1 h on a failure of 1 h. *)
#[warnings="-inexact-float"]
Definition ten_updates : result unit * @Fl.FailureClock ops :=
  Fl.updates (ops := ops) 10 0.1%float
    (Fl.mkFailureClock (ops := ops) true 1%float).

(** The calls run on a freshly built battery. *)
Definition run_calls (b0 : result (@Fl.Battery ops))
    (cs : list (@Fl.battery_call ops))
  : option (list float * @Fl.Battery ops) :=
  match b0 with
  | Raise _ => None
  | Ok b =>
      match Fl.calls cs b with
      | (Ok outs, b') => Some (outs, b')
      | (Raise _, _) => None
      end
  end.

End Binary64.

(** ** The reals with a rounding after every operation *)

(** [rounded fl] reads the code over the reals, every operation followed by
    the rounding function [fl]; comparisons are exact, as they are on
    floats. *)
Definition rounded (fl : R -> R) : Fl.FloatOps :=
  {| Fl.num := R;
     Fl.fadd := fun x y => fl (x + y);
     Fl.fsub := fun x y => fl (x - y);
     Fl.fmul := fun x y => fl (x * y);
     Fl.fdiv := fun x y => fl (x / y);
     Fl.fsqrt := fun x => fl (sqrt x);
     Fl.fltb := ltb;
     Fl.fleb := leb;
     Fl.feqb := eqb;
     Fl.lit_0 := 0;
     Fl.lit_0_5 := fl 0.5;
     Fl.lit_100 := fl 100;
     Fl.lit_99_9 := fl 99.9 |}.

(** What is assumed of the rounding: the standard model of floating-point
    arithmetic.  The rounded value is within a relative error [u] (the unit
    roundoff) of the exact one, rounding is monotone, and a value that is
    already a float is not changed.  Round-to-nearest on binary64 has these
    properties with [u = 2^-53] as long as no operation overflows or
    underflows. *)
Record rounding (u : R) (fl : R -> R) : Prop := mkRounding {
  unit_roundoff_range : 0 <= u <= / 100;
  fl_error : forall x, Rabs (fl x - x) <= u * Rabs x;
  fl_monotone : forall x y, x <= y -> fl x <= fl y;
  fl_idempotent : forall x, fl (fl x) = fl x
}.

(** Exact arithmetic is the rounding that changes nothing. *)
Definition exact (x : R) : R := x.

(** A rounding that moves the values of one window [(a, b]] up to [b] and
    leaves every other value alone: the smallest example of a rounding
    that is not exact. *)
Definition snap_up (a b x : R) : R :=
  if (ltb a x && leb x b)%bool then b else x.

(** The rounding of the examples: its window [(0.94868, 0.9487]] holds
    [sqrt 0.9], the one-way efficiency of the documented battery, which it
    rounds to 0.9487; [window_battery] is [Battery(13.5, 0.9, 0.05)] as the
    constructor builds it with this rounding. *)
Definition window : R -> R := snap_up 0.94868 0.9487.

Definition window_u : R := (0.9487 - 0.94868) / 0.94868.

Definition window_battery : @Fl.Battery (rounded window) :=
  Fl.mkBattery (ops := rounded window) 13.5 0.9 0.05 6.75 0.675 0.9487.

(** A battery read over the rounded reals whose constants are as the
    constructor makes them (a positive one-way efficiency, a floor between
    0 and the capacity) and whose stored energy is a float. *)
Definition well_formed {fl : R -> R} (b : @Fl.Battery (rounded fl)) : Prop :=
  0 < Fl._one_way_efficiency b /\
  0 <= Fl._min_energy_kwh b <= Fl._capacity_kwh b /\
  fl (Fl._energy_kwh b) = Fl._energy_kwh b.

(** The bounds of the data model up to rounding: the stored energy may pass
    the floor or the capacity by [4 u capacity_kwh]. *)
Definition within_bounds_up_to (u : R) {fl : R -> R}
    (b : @Fl.Battery (rounded fl)) : Prop :=
  Fl._min_energy_kwh b - 4 * u * Fl._capacity_kwh b <= Fl._energy_kwh b
  /\ Fl._energy_kwh b <= Fl._capacity_kwh b + 4 * u * Fl._capacity_kwh b.

(* ===================================================================== *)
(** * Facts about the primitives *)
(* ===================================================================== *)

Lemma ltb_true (x y : R) : x < y -> ltb x y = true.
Proof. intros H; unfold ltb; destruct (Rlt_dec x y); [reflexivity | contradiction]. Qed.

Lemma ltb_false (x y : R) : y <= x -> ltb x y = false.
Proof. intros H; unfold ltb; destruct (Rlt_dec x y); [lra | reflexivity]. Qed.

Lemma ltb_spec (x y : R) : reflect (x < y) (ltb x y).
Proof. unfold ltb; destruct (Rlt_dec x y); constructor; assumption. Qed.

Lemma leb_spec (x y : R) : reflect (x <= y) (leb x y).
Proof. unfold leb; destruct (Rle_dec x y); constructor; assumption. Qed.

Lemma gtb_spec (x y : R) : reflect (x > y) (gtb x y).
Proof. unfold gtb; destruct (ltb_spec y x); constructor; lra. Qed.

Lemma geb_spec (x y : R) : reflect (x >= y) (geb x y).
Proof. unfold geb; destruct (leb_spec y x); constructor; lra. Qed.

Lemma eqb_spec (x y : R) : reflect (x = y) (eqb x y).
Proof. unfold eqb; destruct (Req_dec_T x y); constructor; assumption. Qed.

(** The builtin [min] computes the minimum of the two reals. *)
Lemma min_Rmin (a b : R) : min a b = Rmin a b.
Proof.
  unfold min, Rmin.
  destruct (ltb_spec b a), (Rle_dec a b); try reflexivity; lra.
Qed.

Lemma min_le_l (a b : R) : min a b <= a.
Proof. rewrite min_Rmin; apply Rmin_l. Qed.

Lemma min_le_r (a b : R) : min a b <= b.
Proof. rewrite min_Rmin; apply Rmin_r. Qed.

Lemma min_glb (a b c : R) : c <= a -> c <= b -> c <= min a b.
Proof. rewrite min_Rmin; apply Rmin_glb. Qed.

Lemma min_cases (a b : R) :
  (min a b = a /\ a <= b) \/ (min a b = b /\ b < a).
Proof. unfold min; destruct (ltb_spec b a); [right | left]; split; lra. Qed.

Lemma truediv_ok (S : Type) (x y : R) (s : S) :
  y <> 0 -> truediv x y s = (Ok (x / y), s).
Proof.
  intros Hy; unfold truediv.
  destruct (eqb_spec y 0); [contradiction | reflexivity].
Qed.

Lemma truediv_zero (S : Type) (x : R) (s : S) :
  truediv x 0 s = (Raise (ZeroDivisionError "float division by zero"), s).
Proof.
  unfold truediv; destruct (eqb_spec 0 0); [reflexivity | congruence].
Qed.

(** Rounding to the nearest integer moves a value by at most one half. *)
Lemma round_half_even_error (y : R) :
  Rabs (IZR (round_half_even y) - y) <= 1 / 2.
Proof.
  unfold round_half_even.
  pose proof (Zfloor_bound y) as [Hlo Hhi].
  destruct (ltb_spec (y - IZR (Zfloor y)) (1 / 2)).
  - apply Rabs_le; lra.
  - destruct (ltb_spec (1 / 2) (y - IZR (Zfloor y))).
    + rewrite plus_IZR; apply Rabs_le; lra.
    + destruct (Z.even (Zfloor y)).
      * apply Rabs_le; lra.
      * rewrite plus_IZR; apply Rabs_le; lra.
Qed.

Lemma round_half_even_IZR (z : Z) : round_half_even (IZR z) = z.
Proof.
  unfold round_half_even; rewrite ZfloorZ.
  rewrite ltb_true by lra; reflexivity.
Qed.

Lemma pow10_pos (n : nat) : 0 < 10 ^ n.
Proof. apply pow_lt; lra. Qed.

(** [round(x, n)] is within half a unit of the [n]-th decimal of [x]. *)
Lemma round_error (x : R) (n : nat) :
  Rabs (round x n - x) <= / 2 * / 10 ^ n.
Proof.
  unfold round.
  pose proof (pow10_pos n) as Hp.
  pose proof (round_half_even_error (x * 10 ^ n)) as He.
  replace (IZR (round_half_even (x * 10 ^ n)) / 10 ^ n - x)
    with ((IZR (round_half_even (x * 10 ^ n)) - x * 10 ^ n) * / 10 ^ n)
    by (field; lra).
  rewrite Rabs_mult, (Rabs_pos_eq (/ 10 ^ n))
    by (left; apply Rinv_0_lt_compat; assumption).
  apply Rmult_le_compat_r; [left; apply Rinv_0_lt_compat; assumption | lra].
Qed.

Lemma round_IZR (z : Z) (n : nat) : round (IZR z) n = IZR z.
Proof.
  unfold round.
  pose proof (pow10_pos n) as Hp.
  replace (IZR z * 10 ^ n) with (IZR (z * 10 ^ Z.of_nat n)).
  - rewrite round_half_even_IZR, mult_IZR, <- pow_IZR; field; lra.
  - rewrite mult_IZR, <- pow_IZR; reflexivity.
Qed.

Lemma round_0 (n : nat) : round 0 n = 0.
Proof.
  unfold round; rewrite Rmult_0_l, round_half_even_IZR.
  unfold Rdiv; apply Rmult_0_l.
Qed.

Lemma Rabs_le_bounds (a b : R) : Rabs a <= b -> - b <= a <= b.
Proof. unfold Rabs; destruct (Rcase_abs a); lra. Qed.

Lemma round6_lower (x : R) : x - eps6 <= round x 6.
Proof. pose proof (round_error x 6) as H; apply Rabs_le_bounds in H; unfold eps6; lra. Qed.

Lemma round6_upper (x : R) : round x 6 <= x + eps6.
Proof. pose proof (round_error x 6) as H; apply Rabs_le_bounds in H; unfold eps6; lra. Qed.


(* ===================================================================== *)
(** * Battery *)
(* ===================================================================== *)

Section BatteryFacts.

Variable b : Battery.
Hypothesis owe_nonzero : _one_way_efficiency b <> 0.

(** What [charge] computes when the division is defined. *)
Lemma charge_spec (e : R) :
  let stored := Rmin (e * _one_way_efficiency b)
                     (_capacity_kwh b - _energy_kwh b) in
  Battery_.charge e b =
    (Ok (stored / _one_way_efficiency b),
     set_energy_kwh b (_energy_kwh b + stored)).
Proof.
  cbv zeta; unfold Battery_.charge, bind, get.
  rewrite truediv_ok by assumption.
  unfold put, ret; rewrite min_Rmin; reflexivity.
Qed.

(** What [discharge] computes when the division is defined. *)
Lemma discharge_spec (e : R) :
  let extracted := Rmin (e / _one_way_efficiency b)
                        (_energy_kwh b - _min_energy_kwh b) in
  Battery_.discharge e b =
    (Ok (extracted * _one_way_efficiency b),
     set_energy_kwh b (_energy_kwh b - extracted)).
Proof.
  cbv zeta; unfold Battery_.discharge, bind, get.
  rewrite truediv_ok by assumption.
  unfold put, ret; rewrite min_Rmin; reflexivity.
Qed.

End BatteryFacts.

Lemma init_spec (capacity_kwh efficiency min_soc : R) :
  0 <= efficiency ->
  Battery_.__init__ capacity_kwh efficiency min_soc =
    Ok (mkBattery capacity_kwh efficiency min_soc (capacity_kwh * 0.5)
          (capacity_kwh * min_soc) (sqrt efficiency)).
Proof.
  intros He; unfold Battery_.__init__, math_sqrt.
  rewrite ltb_false by lra; reflexivity.
Qed.

(** ** The documented scenario: Battery(13.5, 0.9, 0.05) and charge(10.0) *)

Lemma sqrt09_bounds : 0.94868 < sqrt 0.9 < 0.94869.
Proof.
  assert (Hpos : 0 < sqrt 0.9) by (apply sqrt_lt_R0; lra).
  assert (Hsq : sqrt 0.9 * sqrt 0.9 = 0.9) by (apply sqrt_sqrt; lra).
  split; nra.
Qed.

Lemma scenario_battery :
  Battery_.__init__ 13.5 0.9 0.05 =
    Ok (mkBattery 13.5 0.9 0.05 (13.5 * 0.5) (13.5 * 0.05) (sqrt 0.9)).
Proof. apply init_spec; lra. Qed.

(** On the scenario battery the headroom is 6.75 kWh, which is less than
    the 10 x sqrt(0.9) kWh that [charge(10.0)] could store. *)
Lemma scenario_charge :
  Battery_.charge 10 (mkBattery 13.5 0.9 0.05 (13.5 * 0.5) (13.5 * 0.05) (sqrt 0.9)) =
    (Ok (6.75 / sqrt 0.9),
     mkBattery 13.5 0.9 0.05 13.5 (13.5 * 0.05) (sqrt 0.9)).
Proof.
  pose proof sqrt09_bounds as Hs.
  rewrite charge_spec by (simpl; lra); simpl.
  rewrite Rmin_right by lra.
  unfold set_energy_kwh; simpl.
  repeat f_equal; lra.
Qed.

(** With headroom for the whole usable energy, [charge] stores
    [E x one_way_efficiency] and reports the whole offer [E] as consumed. *)
Lemma charge_with_headroom (b : Battery) (e : R) :
  _one_way_efficiency b <> 0 ->
  e * _one_way_efficiency b <= _capacity_kwh b - _energy_kwh b ->
  Battery_.charge e b =
    (Ok e, set_energy_kwh b (_energy_kwh b + e * _one_way_efficiency b)).
Proof.
  intros Hnz Hroom.
  rewrite charge_spec by assumption; simpl.
  rewrite Rmin_left by assumption.
  repeat f_equal; field; assumption.
Qed.

(** C3, refuted as stated.  On Battery(13.5, 0.9, 0.05) at 50% state of
    charge the headroom (6.75 kWh) is smaller than 10 x sqrt(0.9), so
    [charge(10.0)] stores 6.75 kWh and returns about 7.115 kWh; and on a
    battery of the same efficiency that does have the headroom
    (Battery(27, 0.9, 0.05)), [charge(10.0)] stores 10 x sqrt(0.9) but
    returns 10.0, not 9.4868. *)
Lemma charge_scenario_counterexample :
  (exists b0 consumed b1,
      Battery_.__init__ 13.5 0.9 0.05 = Ok b0 /\
      Battery_.charge 10 b0 = (Ok consumed, b1) /\
      _capacity_kwh b0 - _energy_kwh b0 < 10 * sqrt 0.9 /\
      _energy_kwh b1 - _energy_kwh b0 = 6.75 /\
      _energy_kwh b1 - _energy_kwh b0 < 10 * sqrt 0.9 - 2 /\
      consumed < 9.4868 - 2) /\
  (exists b0 consumed b1,
      Battery_.__init__ 27 0.9 0.05 = Ok b0 /\
      Battery_.charge 10 b0 = (Ok consumed, b1) /\
      10 * sqrt 0.9 <= _capacity_kwh b0 - _energy_kwh b0 /\
      _energy_kwh b1 - _energy_kwh b0 = 10 * sqrt 0.9 /\
      consumed = 10 /\
      consumed > 9.4868 + 0.5).
Proof.
  pose proof sqrt09_bounds as Hs.
  split.
  - do 3 eexists.
    split; [apply scenario_battery |].
    split; [apply scenario_charge |].
    simpl.
    assert (6.75 / sqrt 0.9 < 7.2).
    { apply (Rmult_lt_reg_r (sqrt 0.9)); [lra |].
      unfold Rdiv; rewrite Rmult_assoc, Rinv_l by lra; lra. }
    repeat split; lra.
  - do 3 eexists.
    split; [apply init_spec; lra |].
    split; [apply charge_with_headroom; simpl; lra |].
    simpl; repeat split; lra.
Qed.

(** C3, amended.  Battery(13.5, 0.9, 0.05) at 50% has 6.75 kWh of
    headroom, so [charge(10.0)] stores 6.75 kWh and returns
    6.75 / sqrt(0.9) (between 7.11 and 7.12 kWh); and in every battery
    state with one-way efficiency sqrt(0.9) whose headroom is at least
    10 x sqrt(0.9), [charge(10.0)] stores 10 x sqrt(0.9) (between 9.4868
    and 9.4869 kWh) and returns consumed = 10.0 kWh. *)
Theorem charge_scenario_amended :
  (exists b0 b1,
      Battery_.__init__ 13.5 0.9 0.05 = Ok b0 /\
      Battery_.charge 10 b0 = (Ok (6.75 / sqrt 0.9), b1) /\
      _energy_kwh b1 - _energy_kwh b0 = 6.75 /\
      7.11 < 6.75 / sqrt 0.9 < 7.12) /\
  (forall b : Battery,
      _one_way_efficiency b = sqrt 0.9 ->
      10 * sqrt 0.9 <= _capacity_kwh b - _energy_kwh b ->
      exists b1,
        Battery_.charge 10 b = (Ok 10, b1) /\
        _energy_kwh b1 - _energy_kwh b = 10 * sqrt 0.9 /\
        9.4868 < 10 * sqrt 0.9 < 9.4869).
Proof.
  pose proof sqrt09_bounds as Hs.
  split.
  - do 2 eexists.
    split; [apply scenario_battery |].
    split; [apply scenario_charge |].
    simpl.
    assert (Hq : 6.75 / sqrt 0.9 * sqrt 0.9 = 6.75) by (field; lra).
    repeat split; nra.
  - intros b Howe Hroom.
    eexists; split.
    + apply charge_with_headroom; rewrite Howe; lra.
    + simpl; rewrite Howe; repeat split; lra.
Qed.

Lemma charge_scenario_amended_witness :
  exists b1,
    Battery_.charge 10 (mkBattery 27 0.9 0.05 13.5 1.35 (sqrt 0.9)) = (Ok 10, b1) /\
    _energy_kwh b1 - 13.5 = 10 * sqrt 0.9 /\
    9.4868 < 10 * sqrt 0.9 < 9.4869.
Proof.
  pose proof sqrt09_bounds as Hs.
  apply (proj2 charge_scenario_amended
           (mkBattery 27 0.9 0.05 13.5 1.35 (sqrt 0.9))); simpl; lra.
Defined.

(** ** Charge followed by discharge *)

(** When the floor does not bind, [discharge] delivers the whole request
    and takes [E / one_way_efficiency] out of the store. *)
Lemma discharge_above_floor (b : Battery) (e : R) :
  _one_way_efficiency b <> 0 ->
  e / _one_way_efficiency b <= _energy_kwh b - _min_energy_kwh b ->
  Battery_.discharge e b =
    (Ok e, set_energy_kwh b (_energy_kwh b - e / _one_way_efficiency b)).
Proof.
  intros Hnz Hfloor.
  rewrite discharge_spec by assumption; simpl.
  rewrite Rmin_left by assumption.
  repeat f_equal; field; assumption.
Qed.

(** Over exact arithmetic: on Battery(13.5, 0.9, 0.05) at 50%, neither
    the capacity nor the floor binds for E = 1, and [charge(1)] followed
    by [discharge(1)] delivers 1 kWh, not 1 x 0.9 kWh. *)
Example round_trip_over_reals :
  exists b0 consumed b1 delivered b2,
    Battery_.__init__ 13.5 0.9 0.05 = Ok b0 /\
    1 * _one_way_efficiency b0 <= _capacity_kwh b0 - _energy_kwh b0 /\
    Battery_.charge 1 b0 = (Ok consumed, b1) /\
    1 / _one_way_efficiency b1 <= _energy_kwh b1 - _min_energy_kwh b1 /\
    Battery_.discharge 1 b1 = (Ok delivered, b2) /\
    delivered = 1 /\
    Rabs (delivered - 1 * _efficiency b0) = 0.1.
Proof.
  pose proof sqrt09_bounds as Hs.
  assert (Hinv : 1 / sqrt 0.9 < 1.1).
  { apply (Rmult_lt_reg_r (sqrt 0.9)); [lra |].
    unfold Rdiv; rewrite Rmult_assoc, Rinv_l by lra; lra. }
  do 5 eexists.
  split; [apply scenario_battery |].
  split; [simpl; lra |].
  split; [apply charge_with_headroom; simpl; lra |].
  split; [simpl; lra |].
  split; [apply discharge_above_floor; simpl; lra |].
  split; [reflexivity |].
  simpl; rewrite Rabs_pos_eq; lra.
Qed.

(* ===================================================================== *)
(** * Grid *)
(* ===================================================================== *)

Lemma export_energy_spec (g : Grid) (p dt : R) :
  Grid_.export_energy p dt g =
    (Ok (min p (_export_limit_kw g)),
     mkGrid (_import_cost_per_kwh g) (_export_revenue_per_kwh g)
       (_export_limit_kw g) (_total_energy_imported_kwh g)
       (_total_energy_exported_kwh g + min p (_export_limit_kw g) * dt)
       (_total_import_cost g)
       (_total_export_revenue g
        + min p (_export_limit_kw g) * dt * _export_revenue_per_kwh g)).
Proof. reflexivity. Qed.

Lemma import_energy_spec (g : Grid) (p dt : R) :
  Grid_.import_energy p dt g =
    (Ok (p * dt * _import_cost_per_kwh g),
     mkGrid (_import_cost_per_kwh g) (_export_revenue_per_kwh g)
       (_export_limit_kw g)
       (_total_energy_imported_kwh g + p * dt)
       (_total_energy_exported_kwh g)
       (_total_import_cost g + p * dt * _import_cost_per_kwh g)
       (_total_export_revenue g)).
Proof. reflexivity. Qed.

(** C7. For every grid state, every offered power above the export limit
    and every step duration [dt > 0], [export_energy(p, dt)] returns
    exactly [export_limit_kw]; the limit itself is left unchanged by the
    call (so the next call is capped in the same way), and the exported
    energy is booked as [export_limit_kw x dt]. *)
Theorem export_energy_capped (g : Grid) (p dt : R) :
  p > _export_limit_kw g -> dt > 0 ->
  exists g',
    Grid_.export_energy p dt g = (Ok (_export_limit_kw g), g') /\
    _export_limit_kw g' = _export_limit_kw g /\
    _total_energy_exported_kwh g' =
      _total_energy_exported_kwh g + _export_limit_kw g * dt.
Proof.
  intros Hp Hdt.
  rewrite export_energy_spec.
  assert (Hmin : min p (_export_limit_kw g) = _export_limit_kw g).
  { unfold min; rewrite ltb_true by lra; reflexivity. }
  rewrite Hmin; eexists; repeat split.
Qed.

Lemma export_energy_capped_witness :
  exists g',
    Grid_.export_energy 25 0.25 (Grid_.__init__ 0.0075 0.009 20) = (Ok 20, g') /\
    _export_limit_kw g' = 20 /\
    _total_energy_exported_kwh g' = 0 + 20 * 0.25.
Proof.
  apply (export_energy_capped (Grid_.__init__ 0.0075 0.009 20)); simpl; lra.
Defined.

(* ===================================================================== *)
(** * EnergyManagementSystem *)
(* ===================================================================== *)

Lemma bind_run (S A B : Type) (m : M S A) (k : A -> M S B) (s s' : S) (a : A) :
  m s = (Ok a, s') -> bind m k s = k a s'.
Proof. intros H; unfold bind; rewrite H; reflexivity. Qed.

Lemma run_bind_any (S A A' B : Type) (m : M S A) (f : A -> M S A')
    (k : A' -> M S B) (s : S) :
  bind (bind m f) k s = bind m (fun a => bind (f a) k) s.
Proof. unfold bind; destruct (m s) as [[a | e] s']; reflexivity. Qed.

Lemma bind_raise (S A B : Type) (m : M S A) (k : A -> M S B) (s s' : S) (e : exn) :
  m s = (Raise e, s') -> bind m k s = (Raise e, s').
Proof. intros H; unfold bind; rewrite H; reflexivity. Qed.

(** C9. With a strategy string other than the three recognised names,
    [distribute_energy] raises [ValueError] instead of returning a flow
    breakdown, and the battery and the grid are as before the call. *)
Theorem unknown_strategy_raises
    (strategy : string) (solar_kw load_kw time_step_hours : R) (s : Store) :
  strategy <> "LOAD_PRIORITY"%string ->
  strategy <> "CHARGE_PRIORITY"%string ->
  strategy <> "PRODUCE_PRIORITY"%string ->
  EMS.distribute_energy (mkEMS strategy) solar_kw load_kw time_step_hours s =
    (Raise (ValueError ("Unknown strategy: " ++ strategy)), s).
Proof.
  intros H1 H2 H3; unfold EMS.distribute_energy; simpl.
  apply String.eqb_neq in H1, H2, H3.
  rewrite H1, H2, H3; reflexivity.
Qed.

Lemma unknown_strategy_raises_witness :
  EMS.distribute_energy (mkEMS "SELL_PRIORITY") 10 3 1 example_store =
    (Raise (ValueError "Unknown strategy: SELL_PRIORITY"), example_store).
Proof.
  apply unknown_strategy_raises; discriminate.
Defined.

(** ** Running the dispatch functions step by step *)

Lemma eqb_false (x y : R) : x <> y -> eqb x y = false.
Proof. intros H; destruct (eqb_spec x y); [contradiction | reflexivity]. Qed.

Lemma rejected_power (p c dt : R) : dt <> 0 -> (p * dt - c) / dt = p - c / dt.
Proof. intros H; field; assumption. Qed.

Section Run.

Context {B : Type}.
Variable s : Store.

Lemma run_ret (A : Type) (k : A -> M Store B) (a : A) :
  bind (ret a) k s = k a s.
Proof. reflexivity. Qed.

Lemma run_bind (A A' : Type) (m : M Store A) (f : A -> M Store A')
    (k : A' -> M Store B) :
  bind (bind m f) k s = bind m (fun a => bind (f a) k) s.
Proof. unfold bind; destruct (m s) as [[a | e] s']; reflexivity. Qed.

Lemma run_truediv (k : R -> M Store B) (x y : R) :
  y <> 0 -> bind (truediv x y) k s = k (x / y) s.
Proof. intros H; apply bind_run, truediv_ok, H. Qed.

Lemma run_charge (k : R -> M Store B) (e : R) :
  _one_way_efficiency (battery s) <> 0 ->
  let stored := Rmin (e * _one_way_efficiency (battery s))
                  (_capacity_kwh (battery s) - _energy_kwh (battery s)) in
  bind (on_battery (Battery_.charge e)) k s =
    k (stored / _one_way_efficiency (battery s))
      (mkStore (set_energy_kwh (battery s) (_energy_kwh (battery s) + stored))
         (grid s)).
Proof.
  intros H stored; apply bind_run.
  unfold on_battery, zoom; rewrite charge_spec by assumption; reflexivity.
Qed.

Lemma run_discharge (k : R -> M Store B) (e : R) :
  _one_way_efficiency (battery s) <> 0 ->
  let extracted := Rmin (e / _one_way_efficiency (battery s))
                     (_energy_kwh (battery s) - _min_energy_kwh (battery s)) in
  bind (on_battery (Battery_.discharge e)) k s =
    k (extracted * _one_way_efficiency (battery s))
      (mkStore (set_energy_kwh (battery s) (_energy_kwh (battery s) - extracted))
         (grid s)).
Proof.
  intros H extracted; apply bind_run.
  unfold on_battery, zoom; rewrite discharge_spec by assumption; reflexivity.
Qed.

Lemma run_charge_zero (k : R -> M Store B) (e : R) :
  _one_way_efficiency (battery s) = 0 ->
  bind (on_battery (Battery_.charge e)) k s =
    (Raise (ZeroDivisionError "float division by zero"),
     mkStore (battery s) (grid s)).
Proof.
  intros H; apply bind_raise.
  unfold on_battery, zoom, Battery_.charge, bind, get.
  rewrite H, truediv_zero; reflexivity.
Qed.

Lemma run_discharge_zero (k : R -> M Store B) (e : R) :
  _one_way_efficiency (battery s) = 0 ->
  bind (on_battery (Battery_.discharge e)) k s =
    (Raise (ZeroDivisionError "float division by zero"),
     mkStore (battery s) (grid s)).
Proof.
  intros H; apply bind_raise.
  unfold on_battery, zoom, Battery_.discharge, bind, get.
  rewrite H, truediv_zero; reflexivity.
Qed.

Lemma run_truediv_zero (k : R -> M Store B) (x : R) :
  bind (truediv x 0) k s =
    (Raise (ZeroDivisionError "float division by zero"), s).
Proof. apply bind_raise, truediv_zero. Qed.

Lemma run_export (k : R -> M Store B) (p dt : R) :
  let g := grid s in
  bind (on_grid (Grid_.export_energy p dt)) k s =
    k (min p (_export_limit_kw g))
      (mkStore (battery s)
         (mkGrid (_import_cost_per_kwh g) (_export_revenue_per_kwh g)
            (_export_limit_kw g) (_total_energy_imported_kwh g)
            (_total_energy_exported_kwh g + min p (_export_limit_kw g) * dt)
            (_total_import_cost g)
            (_total_export_revenue g
             + min p (_export_limit_kw g) * dt * _export_revenue_per_kwh g))).
Proof. reflexivity. Qed.

Lemma run_import (k : R -> M Store B) (p dt : R) :
  let g := grid s in
  bind (on_grid (Grid_.import_energy p dt)) k s =
    k (p * dt * _import_cost_per_kwh g)
      (mkStore (battery s)
         (mkGrid (_import_cost_per_kwh g) (_export_revenue_per_kwh g)
            (_export_limit_kw g)
            (_total_energy_imported_kwh g + p * dt)
            (_total_energy_exported_kwh g)
            (_total_import_cost g + p * dt * _import_cost_per_kwh g)
            (_total_export_revenue g))).
Proof. reflexivity. Qed.

End Run.

Ltac ems_cbn :=
  cbn [battery grid set_energy_kwh snd fst
       _capacity_kwh _efficiency _min_soc _energy_kwh _min_energy_kwh
       _one_way_efficiency _import_cost_per_kwh _export_revenue_per_kwh
       _export_limit_kw _total_energy_imported_kwh _total_energy_exported_kwh
       _total_import_cost _total_export_revenue] in *.

Ltac ems_test c :=
  lazymatch c with
  | gtb ?a ?b => destruct (gtb_spec a b)
  | geb ?a ?b => destruct (geb_spec a b)
  | ltb ?a ?b => destruct (ltb_spec a b)
  end.

(** Branch on a test only once it is the next statement to run. *)
Ltac ems_case :=
  match goal with
  | |- context [bind (if ?c then _ else _) _ _] => ems_test c
  | |- context [(if ?c then _ else _) (mkStore _ _)] => ems_test c
  end.

Ltac ems_step :=
  first
    [ rewrite run_ret
    | rewrite run_bind
    | rewrite run_truediv by assumption
    | rewrite run_truediv_zero
    | rewrite run_charge by (ems_cbn; assumption)
    | rewrite run_charge_zero by reflexivity
    | rewrite run_discharge_zero by reflexivity
    | rewrite run_discharge by (ems_cbn; assumption)
    | rewrite run_export
    | rewrite run_import
    | rewrite rejected_power by assumption
    | progress cbv beta iota zeta
    | progress ems_cbn
    | progress unfold set_energy_kwh
    | ems_case ].

Ltac ems_run := repeat ems_step.

Ltac flows_cbn :=
  cbn [EMS.flows_dict solar_to_load solar_to_battery solar_to_grid
       battery_to_load grid_to_load unmet_load curtailed].

(** ** Energy balance of one dispatch step *)

(** The six roundings of the returned dictionary move each sum by at most
    half a unit of the sixth decimal per term. *)
Lemma flows_dict_balance (sl sb sg bl gl cu solar_kw load_kw : R) :
  sl + sb + sg + cu <= solar_kw ->
  load_kw <= sl + bl + gl ->
  let f := EMS.flows_dict sl sb sg bl gl cu in
  solar_to_load f + solar_to_battery f + solar_to_grid f + curtailed f
    <= solar_kw + 4 * eps6 /\
  solar_to_load f + battery_to_load f + grid_to_load f
    >= load_kw - 3 * eps6.
Proof.
  intros Hs Hl f; unfold f; flows_cbn.
  pose proof (round6_upper sl); pose proof (round6_upper sb).
  pose proof (round6_upper sg); pose proof (round6_upper cu).
  pose proof (round6_lower sl); pose proof (round6_lower bl).
  pose proof (round6_lower gl).
  split; lra.
Qed.

(** Power taken by the battery out of an offer, and power delivered by
    the battery for a request, never exceed the offer or the request. *)
Lemma charged_power_le (p dt owe room : R) :
  0 < owe -> 0 < dt -> Rmin (p * dt * owe) room / owe / dt <= p.
Proof.
  intros Howe Hdt.
  pose proof (Rmin_l (p * dt * owe) room) as Hmin.
  apply (Rmult_le_reg_r (dt * owe)); [nra |].
  replace (Rmin (p * dt * owe) room / owe / dt * (dt * owe))
    with (Rmin (p * dt * owe) room) by (field; lra).
  lra.
Qed.

Lemma discharged_power_le (d dt owe avail : R) :
  0 < owe -> 0 < dt -> Rmin (d * dt / owe) avail * owe / dt <= d.
Proof.
  intros Howe Hdt.
  pose proof (Rmin_l (d * dt / owe) avail) as Hmin.
  apply (Rmult_le_reg_r (dt / owe)).
  { apply Rmult_lt_0_compat; [lra | apply Rinv_0_lt_compat; lra]. }
  replace (Rmin (d * dt / owe) avail * owe / dt * (dt / owe))
    with (Rmin (d * dt / owe) avail) by (field; lra).
  lra.
Qed.

Lemma charged_power_nonneg (p dt owe room : R) :
  0 < owe -> 0 < dt -> 0 <= p -> 0 <= room ->
  0 <= Rmin (p * dt * owe) room / owe / dt.
Proof.
  intros Howe Hdt Hp Hroom.
  assert (0 <= Rmin (p * dt * owe) room).
  { apply Rmin_glb; [| assumption].
    apply Rmult_le_pos; [apply Rmult_le_pos |]; lra. }
  apply Rmult_le_pos; [apply Rmult_le_pos |];
    try assumption; left; apply Rinv_0_lt_compat; lra.
Qed.

(** Name the battery powers and record their bounds. *)
Ltac name_powers :=
  repeat match goal with
         | |- context [Rmin (?p * ?dt * ?owe) ?room / ?owe / ?dt] =>
             let H := fresh "Hcharged" in
             assert (H : Rmin (p * dt * owe) room / owe / dt <= p)
               by (apply charged_power_le; assumption);
             let X := fresh "charged" in
             set (X := Rmin (p * dt * owe) room / owe / dt) in *;
             clearbody X
         | |- context [Rmin (?d * ?dt / ?owe) ?avail * ?owe / ?dt] =>
             let H := fresh "Hdischarged" in
             assert (H : Rmin (d * dt / owe) avail * owe / dt <= d)
               by (apply discharged_power_le; assumption);
             let X := fresh "discharged" in
             set (X := Rmin (d * dt / owe) avail * owe / dt) in *;
             clearbody X
         end.

Ltac balance_arith :=
  repeat match goal with
         | |- context [if ltb ?a ?b then _ else _] => destruct (ltb_spec a b)
         | |- context [if gtb ?a ?b then _ else _] => destruct (gtb_spec a b)
         | |- context [min ?a ?b] =>
             let H := fresh in
             destruct (min_cases a b) as [[H ?] | [H ?]]; rewrite !H in *
         end;
  lra.

Ltac finish_balance :=
  name_powers;
  do 2 eexists; split; [reflexivity | apply flows_dict_balance; balance_arith].

(** C1. For each of the three strategies, non-negative [solar_kw] and
    [load_kw], a positive [time_step_hours], a battery inside its bounds
    with a positive one-way efficiency, and any grid state,
    [distribute_energy] returns a flow breakdown in which
    [solar_to_load + solar_to_battery + solar_to_grid + curtailed] is at
    most [solar_kw] and [solar_to_load + battery_to_load + grid_to_load] is
    at least [load_kw], each up to the error of the 6-decimal rounding of
    the summed fields (half a unit of the sixth decimal per field). *)
Theorem distribute_energy_balance
    (strategy : string) (solar_kw load_kw time_step_hours : R) (s : Store) :
  In strategy ["LOAD_PRIORITY"; "CHARGE_PRIORITY"; "PRODUCE_PRIORITY"]%string ->
  0 <= solar_kw -> 0 <= load_kw -> 0 < time_step_hours ->
  0 < _one_way_efficiency (battery s) ->
  within_bounds (battery s) ->
  exists f s',
    EMS.distribute_energy (mkEMS strategy) solar_kw load_kw time_step_hours s
      = (Ok f, s') /\
    solar_to_load f + solar_to_battery f + solar_to_grid f + curtailed f
      <= solar_kw + 4 * eps6 /\
    solar_to_load f + battery_to_load f + grid_to_load f
      >= load_kw - 3 * eps6.
Proof.
  intros Hstrat Hsolar Hload Hdt Howe Hb.
  destruct s as [[cap eff msoc en men owe] [ic er lim ti te tc tr]].
  unfold within_bounds in Hb; ems_cbn.
  assert (Hdt0 : time_step_hours <> 0) by lra.
  assert (Howe0 : owe <> 0) by lra.
  unfold EMS.distribute_energy.
  simpl in Hstrat.
  destruct Hstrat as [<- | [<- | [<- | []]]]; cbn [_strategy String.eqb Ascii.eqb Bool.eqb].
  - unfold EMS._load_priority;
      destruct (geb_spec solar_kw load_kw); ems_run; finish_balance.
  - unfold EMS._charge_priority;
      destruct (geb_spec solar_kw load_kw); ems_run; finish_balance.
  - unfold EMS._produce_priority; ems_run; finish_balance.
Qed.

Lemma example_store_ok :
  0 < _one_way_efficiency (battery example_store) /\
  within_bounds (battery example_store).
Proof.
  pose proof sqrt09_bounds; unfold within_bounds; simpl; lra.
Qed.

Lemma distribute_energy_balance_witness :
  exists f s',
    EMS.distribute_energy (mkEMS "PRODUCE_PRIORITY") 25 3 0.25 example_store
      = (Ok f, s') /\
    solar_to_load f + solar_to_battery f + solar_to_grid f + curtailed f
      <= 25 + 4 * eps6 /\
    solar_to_load f + battery_to_load f + grid_to_load f >= 3 - 3 * eps6.
Proof.
  apply distribute_energy_balance;
    try lra; try apply example_store_ok.
  simpl; tauto.
Defined.

(** ** LOAD_PRIORITY with a solar surplus *)

(** C10. Under LOAD_PRIORITY with [solar_kw >= load_kw], whatever the
    battery and grid states and the step duration, a call leaves the
    grid's imported-energy and import-cost totals unchanged; any flow
    breakdown it returns has [grid_to_load = 0] and [unmet_load = 0]; and
    it does return one whenever the battery's one-way efficiency and the
    step duration are not zero. *)
Theorem load_priority_surplus_never_imports
    (solar_kw load_kw time_step_hours : R) (s : Store) :
  solar_kw >= load_kw ->
  exists r s',
    EMS.distribute_energy (mkEMS "LOAD_PRIORITY") solar_kw load_kw
      time_step_hours s = (r, s') /\
    _total_energy_imported_kwh (grid s') = _total_energy_imported_kwh (grid s) /\
    _total_import_cost (grid s') = _total_import_cost (grid s) /\
    (forall f, r = Ok f -> grid_to_load f = 0 /\ unmet_load f = 0) /\
    (_one_way_efficiency (battery s) <> 0 -> time_step_hours <> 0 ->
     exists f, r = Ok f).
Proof.
  intros Hge.
  destruct s as [[cap eff msoc en men owe] [ic er lim ti te tc tr]].
  unfold EMS.distribute_energy;
    cbn [_strategy String.eqb Ascii.eqb Bool.eqb].
  unfold EMS._load_priority.
  destruct (geb_spec solar_kw load_kw); [| lra].
  destruct (Req_dec_T owe 0) as [-> | Howe];
    destruct (Req_dec_T time_step_hours 0) as [-> | Hdt];
    ems_run;
    (do 2 eexists; split; [reflexivity |]);
    ems_cbn; flows_cbn;
    (split; [reflexivity |]); (split; [reflexivity |]);
    (split; [| intros; (eexists; reflexivity) || contradiction]);
    intros f [= <-]; flows_cbn; rewrite round_0; split; reflexivity.
Qed.

Lemma load_priority_surplus_never_imports_witness :
  exists r s',
    EMS.distribute_energy (mkEMS "LOAD_PRIORITY") 10 3 1 example_store
      = (r, s') /\
    _total_energy_imported_kwh (grid s') = 0 /\
    _total_import_cost (grid s') = 0 /\
    (forall f, r = Ok f -> grid_to_load f = 0 /\ unmet_load f = 0) /\
    (sqrt 0.9 <> 0 -> 1 <> 0 -> exists f, r = Ok f).
Proof.
  apply (load_priority_surplus_never_imports 10 3 1 example_store); lra.
Defined.

(** ** CHARGE_PRIORITY *)

(** C6. For [solar_kw < load_kw], CHARGE_PRIORITY and LOAD_PRIORITY started
    in the same battery and grid states give the same outcome (the same
    flow breakdown, or the same exception) and the same final battery and
    grid states; and no charging is reported: every flow breakdown returned
    has [solar_to_battery = 0]. *)
Theorem charge_priority_deficit_is_load_priority
    (solar_kw load_kw time_step_hours : R) (s : Store) :
  solar_kw < load_kw ->
  EMS.distribute_energy (mkEMS "CHARGE_PRIORITY") solar_kw load_kw
    time_step_hours s =
  EMS.distribute_energy (mkEMS "LOAD_PRIORITY") solar_kw load_kw
    time_step_hours s /\
  (forall f s',
      EMS.distribute_energy (mkEMS "CHARGE_PRIORITY") solar_kw load_kw
        time_step_hours s = (Ok f, s') ->
      solar_to_battery f = 0).
Proof.
  intros Hlt.
  unfold EMS.distribute_energy;
    cbn [_strategy String.eqb Ascii.eqb Bool.eqb].
  unfold EMS._charge_priority, EMS._load_priority.
  destruct (geb_spec solar_kw load_kw); [lra |].
  split; [reflexivity |].
  destruct s as [[cap eff msoc en men owe] [ic er lim ti te tc tr]].
  intros f s'.
  destruct (Req_dec_T owe 0) as [-> | Howe];
    destruct (Req_dec_T time_step_hours 0) as [-> | Hdt];
    ems_run; try lra; try discriminate;
    intros [= <- <-]; flows_cbn; apply round_0.
Qed.

Lemma charge_priority_deficit_is_load_priority_witness :
  EMS.distribute_energy (mkEMS "CHARGE_PRIORITY") 2 5 1 example_store =
  EMS.distribute_energy (mkEMS "LOAD_PRIORITY") 2 5 1 example_store /\
  (forall f s',
      EMS.distribute_energy (mkEMS "CHARGE_PRIORITY") 2 5 1 example_store
        = (Ok f, s') ->
      solar_to_battery f = 0).
Proof.
  apply charge_priority_deficit_is_load_priority; lra.
Defined.



(* ===================================================================== *)
(** * Simulation: the random draws do not depend on the strategy *)
(* ===================================================================== *)

Section IndependenceFacts.

Context `{RandomModule}.

Lemma lockstep_ret (A : Type) (Rres : A -> A -> Prop) (x y : A) :
  Rres x y -> lockstep Rres (ret x) (ret y).
Proof.
  intros Hxy a b ra a' rb b' Hab [= <- <-] [= <- <-]; split; assumption.
Qed.

Lemma lockstep_bind (A B : Type) (RA : A -> A -> Prop) (RB : B -> B -> Prop)
    (m1 m2 : M Simulation A) (k1 k2 : A -> M Simulation B) :
  lockstep RA m1 m2 ->
  (forall x y, RA x y -> lockstep RB (k1 x) (k2 y)) ->
  lockstep RB (bind m1 k1) (bind m2 k2).
Proof.
  intros Hm Hk a b rb1 a' rb2 b' Hab H1 H2.
  unfold bind in H1, H2.
  destruct (m1 a) as [[x | e1] a1] eqn:E1; [| discriminate].
  destruct (m2 b) as [[y | e2] b1] eqn:E2; [| discriminate].
  destruct (Hm a b x a1 y b1 Hab E1 E2) as [Hxy Hab1].
  exact (Hk x y Hxy a1 b1 rb1 a' rb2 b' Hab1 H1 H2).
Qed.

Lemma lockstep_get :
  lockstep (fun x y => env_of x = env_of y) get get.
Proof.
  intros a b ra a' rb b' Hab [= <- <-] [= <- <-]; split; assumption.
Qed.

Lemma lockstep_put (x y : Simulation) :
  env_of x = env_of y -> lockstep (fun _ _ => True) (put x) (put y).
Proof.
  intros Hxy a b ra a' rb b' Hab [= <- <-] [= <- <-]; split; [exact I | assumption].
Qed.

Lemma lockstep_keeps (A : Type) (m1 m2 : M Simulation A) :
  keeps_env m1 -> keeps_env m2 -> lockstep (fun _ _ => True) m1 m2.
Proof.
  intros H1 H2 a b ra a' rb b' Hab E1 E2; split; [exact I |].
  pose proof (H1 a (Ok ra) a' E1) as P1.
  pose proof (H2 b (Ok rb) b' E2) as P2.
  congruence.
Qed.

Lemma keeps_ret (A : Type) (x : A) : keeps_env (ret x).
Proof. intros a r a' [= <- <-]; reflexivity. Qed.

Lemma keeps_bind (A B : Type) (m : M Simulation A) (k : A -> M Simulation B) :
  keeps_env m -> (forall x, keeps_env (k x)) -> keeps_env (bind m k).
Proof.
  intros Hm Hk a r a' E; unfold bind in E.
  destruct (m a) as [[x | e] a1] eqn:E1.
  - pose proof (Hk x a1 r a' E) as P1.
    pose proof (Hm a (Ok x) a1 E1) as P2.
    congruence.
  - injection E as <- <-; exact (Hm a (Raise e) a1 E1).
Qed.

Lemma keeps_on_store (A : Type) (m : M Store A) : keeps_env (on_store m).
Proof.
  intros a r a' E; unfold on_store, zoom in E.
  destruct (m _) as [r0 st]; injection E as <- <-; reflexivity.
Qed.

Lemma keeps_on_sim_battery (A : Type) (m : M Battery A) :
  keeps_env (on_sim_battery m).
Proof.
  intros a r a' E; unfold on_sim_battery, zoom in E.
  destruct (m _) as [r0 st]; injection E as <- <-; reflexivity.
Qed.

Lemma keeps_log_daily_summary (day : Z) (x1 x2 x3 x4 x5 x6 : R) :
  keeps_env (_log_daily_summary day x1 x2 x3 x4 x5 x6).
Proof.
  unfold _log_daily_summary.
  apply keeps_bind; [apply keeps_on_sim_battery | intros soc].
  intros a r a' E; cbv [bind get put] in E; injection E as <- <-; reflexivity.
Qed.

(** Calls that only involve the view behave the same on both sides. *)
Lemma lockstep_on_random (A : Type) (m : M rng A) :
  lockstep eq (on_random m) (on_random m).
Proof.
  intros a b ra a' rb b' Hab E1 E2; unfold on_random, zoom in E1, E2.
  assert (Hrs : random_state a = random_state b)
    by exact (f_equal v_random_state Hab).
  rewrite Hrs in E1.
  destruct (m (random_state b)) as [r g].
  injection E1 as E1 <-; injection E2 as E2 <-.
  split; [congruence |].
  unfold env_of in *; cbn; injection Hab as -> -> -> -> -> -> -> _ ->.
  reflexivity.
Qed.

Lemma lockstep_on_inverter (A : Type) (m : M Inverter A) :
  lockstep eq (on_inverter m) (on_inverter m).
Proof.
  intros a b ra a' rb b' Hab E1 E2; unfold on_inverter, zoom in E1, E2.
  assert (Hi : inverter a = inverter b) by exact (f_equal v_inverter Hab).
  rewrite Hi in E1.
  destruct (m (inverter b)) as [r g].
  injection E1 as E1 <-; injection E2 as E2 <-.
  split; [congruence |].
  unfold env_of in *; cbn; injection Hab as -> -> _ -> -> -> -> -> ->.
  reflexivity.
Qed.

Lemma lockstep_on_inverter_random (A : Type) (m : M (Inverter * rng) A) :
  lockstep eq (on_inverter_random m) (on_inverter_random m).
Proof.
  intros a b ra a' rb b' Hab E1 E2; unfold on_inverter_random, zoom in E1, E2.
  assert (Hi : inverter a = inverter b) by exact (f_equal v_inverter Hab).
  assert (Hrs : random_state a = random_state b)
    by exact (f_equal v_random_state Hab).
  rewrite Hi, Hrs in E1.
  destruct (m (inverter b, random_state b)) as [r g].
  injection E1 as E1 <-; injection E2 as E2 <-.
  split; [congruence |].
  unfold env_of in *; cbn; injection Hab as -> -> _ -> -> -> -> _ ->.
  reflexivity.
Qed.

Lemma lockstep_pure (A : Type) (m : forall S : Type, M S A) :
  (forall (S T : Type) (s : S) (t : T), fst (m S s) = fst (m T t)) ->
  (forall (S : Type) (s : S), snd (m S s) = s) ->
  lockstep eq (m Simulation) (m Simulation).
Proof.
  intros Hres Hst a b ra a' rb b' Hab E1 E2.
  pose proof (Hres _ _ a b) as Hr; pose proof (Hst _ a) as Ha;
    pose proof (Hst _ b) as Hb.
  rewrite E1 in Hr, Ha; rewrite E2 in Hr, Hb; cbn in *.
  subst; split; [congruence | assumption].
Qed.

Lemma lockstep_env_timeout (d : Z) :
  lockstep eq (env_timeout d) (env_timeout d).
Proof.
  apply (lockstep_pure _ (fun S => @env_timeout S d));
    intros; unfold env_timeout; destruct (Z.ltb d 0); reflexivity.
Qed.

Lemma lockstep_mod (x y : Z) : lockstep eq (mod_ x y) (mod_ x y).
Proof.
  apply (lockstep_pure _ (fun S => @mod_ S x y));
    intros; unfold mod_; destruct (Z.eqb y 0); reflexivity.
Qed.

Lemma lockstep_floordiv (x y : Z) : lockstep eq (floordiv x y) (floordiv x y).
Proof.
  apply (lockstep_pure _ (fun S => @floordiv S x y));
    intros; unfold floordiv; destruct (Z.eqb y 0); reflexivity.
Qed.

Ltac sync H :=
  let E1 := fresh "E" in let E2 := fresh "E" in let E3 := fresh "E" in
  let E4 := fresh "E" in let E5 := fresh "E" in let E6 := fresh "E" in
  let E7 := fresh "E" in let E8 := fresh "E" in let E9 := fresh "E" in
  unfold env_of in H;
  injection H as E1 E2 E3 E4 E5 E6 E7 E8 E9;
  rewrite ?E1, ?E2, ?E3, ?E4, ?E5, ?E6, ?E7, ?E8.

Lemma loop_body_lockstep (dt : R) (spd : Z) (la lb : Locals) :
  current_step la = current_step lb ->
  lockstep (fun x y => current_step x = current_step y)
    (loop_body dt spd la) (loop_body dt spd lb).
Proof.
  intros Hstep; unfold loop_body; rewrite Hstep.
  eapply lockstep_bind; [apply lockstep_get | intros x y Hxy].
  cbv zeta. sync Hxy.
  eapply lockstep_bind; [apply lockstep_on_random | intros ld ld' <-].
  eapply lockstep_bind;
    [apply lockstep_keeps; apply keeps_on_store | intros f1 f2 _].
  eapply lockstep_bind;
    [apply lockstep_keeps; apply keeps_on_sim_battery | intros soc1 soc2 _].
  eapply lockstep_bind; [apply lockstep_get | intros x' y' Hxy'].
  eapply lockstep_bind.
  { apply lockstep_put.
    unfold env_of in Hxy' |- *; cbn.
    injection Hxy' as -> -> -> -> -> -> -> -> E9.
    rewrite !map_app, E9; reflexivity. }
  intros _ _ _.
  cbv beta in Hxy'; sync Hxy'.
  eapply lockstep_bind; [apply lockstep_env_timeout | intros _ _ _].
  eapply lockstep_bind; [apply lockstep_on_inverter | intros _ _ _].
  eapply lockstep_bind; [apply lockstep_mod | intros r r' <-].
  destruct ((r =? 0)%Z && (current_step lb + 1 >? 0)%Z)%bool.
  - eapply lockstep_bind;
      [apply lockstep_keeps; apply keeps_log_daily_summary | intros _ _ _].
    eapply lockstep_bind; [apply lockstep_on_inverter_random | intros _ _ _].
    eapply lockstep_bind; [apply lockstep_get | intros x2 y2 Hxy2].
    cbv beta in Hxy2.
    assert (Hi : inverter x2 = inverter y2) by exact (f_equal v_inverter Hxy2).
    assert (Hc : cloud_coverage x2 = cloud_coverage y2)
      by exact (f_equal v_cloud_coverage Hxy2).
    rewrite Hi, Hc.
    eapply lockstep_bind.
    { destruct (_is_failing (inverter y2)).
      - apply lockstep_put.
        unfold env_of in Hxy2 |- *; cbn.
        injection Hxy2 as -> -> -> -> -> -> -> -> ->; reflexivity.
      - apply lockstep_ret; exact I. }
    intros _ _ _.
    eapply lockstep_bind; [apply lockstep_on_random | intros cov cov' <-].
    eapply lockstep_bind; [apply lockstep_get | intros x3 y3 Hxy3].
    eapply lockstep_bind.
    { apply lockstep_put.
      unfold env_of in Hxy3 |- *; cbn.
      injection Hxy3 as -> -> -> -> -> -> _ -> ->; reflexivity. }
    intros _ _ _.
    apply lockstep_ret; reflexivity.
  - apply lockstep_ret; reflexivity.
Qed.

Lemma while_lockstep (fuel : nat) (total_steps : Z)
    (body1 body2 : Locals -> M Simulation Locals) :
  (forall la lb,
      current_step la = current_step lb ->
      lockstep (fun x y => current_step x = current_step y)
        (body1 la) (body2 lb)) ->
  forall la lb,
    current_step la = current_step lb ->
    lockstep (fun x y => current_step x = current_step y)
      (while fuel (fun l => Z.ltb (current_step l) total_steps) body1 la)
      (while fuel (fun l => Z.ltb (current_step l) total_steps) body2 lb).
Proof.
  intros Hbody; induction fuel as [| n IH]; intros la lb Hl; cbn [while].
  - apply lockstep_ret; assumption.
  - rewrite Hl.
    destruct (Z.ltb (current_step lb) total_steps).
    + eapply lockstep_bind; [apply Hbody; assumption | apply IH].
    + apply lockstep_ret; assumption.
Qed.

Lemma keeps_if (A : Type) (c : bool) (m1 m2 : M Simulation A) :
  keeps_env m1 -> keeps_env m2 -> keeps_env (if c then m1 else m2).
Proof. destruct c; auto. Qed.

Lemma simulation_loop_lockstep :
  lockstep (fun _ _ => True) _simulation_loop _simulation_loop.
Proof.
  unfold _simulation_loop.
  eapply lockstep_bind; [apply lockstep_get | intros x y Hxy].
  cbv zeta; sync Hxy.
  eapply lockstep_bind; [apply lockstep_floordiv | intros total total' <-].
  eapply lockstep_bind; [apply lockstep_floordiv | intros spd spd' <-].
  eapply lockstep_bind.
  { apply while_lockstep; [| reflexivity].
    intros la lb Hl; apply loop_body_lockstep; assumption. }
  intros la lb _.
  apply lockstep_keeps; apply keeps_if;
    try apply keeps_log_daily_summary; apply keeps_ret.
Qed.

Lemma keeps_compile_results : keeps_env _compile_results.
Proof.
  unfold _compile_results.
  intros a r a' E; unfold bind at 1, get in E; cbv zeta in E.
  revert E; apply keeps_bind; [apply keeps_on_sim_battery | intros soc].
  apply keeps_ret.
Qed.

Lemma run_lockstep : lockstep (fun _ _ => True) run run.
Proof.
  unfold run.
  eapply lockstep_bind; [apply lockstep_get | intros x y Hxy].
  sync Hxy.
  eapply lockstep_bind; [apply lockstep_floordiv | intros _ _ _].
  eapply lockstep_bind; [apply simulation_loop_lockstep | intros _ _ _].
  apply lockstep_keeps; apply keeps_compile_results.
Qed.

(** Two simulations built from configurations that differ in the strategy
    only, seeded alike, start with the same view. *)
Lemma init_same_view (cfg : Config) (s1 s2 : string) (t1 t2 : Z)
    (a b : Simulation) :
  simulation_random_seed cfg <> None \/
    (t1 mod 2147483647 = t2 mod 2147483647)%Z ->
  __init__ (with_strategy cfg s1) t1 = Ok a ->
  __init__ (with_strategy cfg s2) t2 = Ok b ->
  env_of a = env_of b.
Proof.
  intros Hseed; unfold __init__; cbn.
  assert (Hsame :
            match simulation_random_seed cfg with
            | Some config_seed => config_seed
            | None => (t1 mod 2147483647)%Z
            end =
            match simulation_random_seed cfg with
            | Some config_seed => config_seed
            | None => (t2 mod 2147483647)%Z
            end).
  { destruct (simulation_random_seed cfg); [reflexivity |].
    destruct Hseed; [congruence | assumption]. }
  rewrite Hsame.
  destruct (Battery_.__init__ _ _ _) as [b0 | e]; [| discriminate].
  destruct (CloudCoverage_.__init__ _) as [cc | e]; [| discriminate].
  destruct (CloudCoverage_.get_daily_coverage cc _) as [[cov | e] rs];
    [| discriminate].
  intros [= <-] [= <-]; reflexivity.
Qed.

End IndependenceFacts.

(* ===================================================================== *)
(** * Simulation: runs of a sane configuration complete *)
(* ===================================================================== *)

Lemma runs_bind (S A B : Type) (Q : B -> S -> Prop) (m : M S A)
    (k : A -> M S B) (s s1 : S) (a : A) :
  m s = (Ok a, s1) -> runs Q (k a) s1 -> runs Q (bind m k) s.
Proof.
  intros Hm (b & s' & Hk & Hinv); exists b, s'; split; [| assumption].
  unfold bind; rewrite Hm; assumption.
Qed.

Lemma runs_ret (S A : Type) (Q : A -> S -> Prop) (a : A) (s : S) :
  Q a s -> runs Q (ret a) s.
Proof. intros Hs; exists a, s; split; [reflexivity | assumption]. Qed.

(** A dispatch call with a recognised strategy returns, and leaves the
    battery's constants alone. *)
Lemma distribute_energy_total
    (self : EnergyManagementSystem) (solar_kw load_kw time_step_hours : R)
    (s : Store) :
  In (_strategy self)
    ["LOAD_PRIORITY"; "CHARGE_PRIORITY"; "PRODUCE_PRIORITY"]%string ->
  _one_way_efficiency (battery s) <> 0 -> time_step_hours <> 0 ->
  exists f s',
    EMS.distribute_energy self solar_kw load_kw time_step_hours s
      = (Ok f, s') /\
    _one_way_efficiency (battery s') = _one_way_efficiency (battery s) /\
    _capacity_kwh (battery s') = _capacity_kwh (battery s).
Proof.
  intros Hstrat Howe Hdt.
  destruct s as [[cap eff msoc en men owe] [ic er lim ti te tc tr]].
  destruct self as [strategy].
  ems_cbn.
  unfold EMS.distribute_energy.
  simpl in Hstrat.
  destruct Hstrat as [<- | [<- | [<- | []]]];
    cbn [_strategy String.eqb Ascii.eqb Bool.eqb].
  - unfold EMS._load_priority; destruct (geb_spec solar_kw load_kw);
      ems_run; do 2 eexists; repeat split.
  - unfold EMS._charge_priority; destruct (geb_spec solar_kw load_kw);
      ems_run; do 2 eexists; repeat split.
  - unfold EMS._produce_priority;
      ems_run; do 2 eexists; repeat split.
Qed.

Ltac sim_cbn :=
  cbn [config actual_seed sim_battery solar_panel cloud_coverage inverter
       load sim_grid ems hourly_data daily_summaries events_log duration_days
       time_step_minutes current_cloud_coverage random_state
       with_mutable set_store set_battery set_inverter set_random_state
       set_inverter_random set_hourly_data set_daily_summaries set_events_log
       set_current_cloud_coverage battery grid fst snd].

Lemma returns_bind (S A B : Type) (Q : B -> Prop) (m : M S A)
    (k : A -> M S B) :
  (forall a, returns Q (k a)) -> returns Q (bind m k).
Proof.
  intros Hk s b s' E; unfold bind in E.
  destruct (m s) as [[a | e] s1]; [| discriminate].
  exact (Hk a s1 b s' E).
Qed.

Lemma returns_ret (S A : Type) (Q : A -> Prop) (a : A) :
  Q a -> returns Q (ret (S := S) a).
Proof. intros Ha s b s' [= <- <-]; assumption. Qed.

Section LoopExit.

Context `{RandomModule}.

(** Whatever the configuration, an iteration that returns has advanced the
    step counter by one. *)
Lemma loop_body_advances (dt : R) (spd : Z) (l : Locals) :
  returns (fun l' => current_step l' = (current_step l + 1)%Z)
    (loop_body dt spd l).
Proof.
  unfold loop_body.
  do 9 (apply returns_bind; intros ?); cbv zeta.
  destruct (_ && _)%bool.
  - do 7 (apply returns_bind; intros ?).
    apply returns_ret; reflexivity.
  - apply returns_ret; reflexivity.
Qed.

(** So the bound on the iterations is never what stops the loop: when
    [while] returns, the guard [current_step < total_steps] is false. *)
Lemma while_exits_by_guard (total : Z) (dt : R) (spd : Z) (fuel : nat) :
  forall l : Locals,
    (total - current_step l <= Z.of_nat fuel)%Z ->
    returns (fun l' => Z.ltb (current_step l') total = false)
      (while fuel (fun l => Z.ltb (current_step l) total)
         (loop_body dt spd) l).
Proof.
  induction fuel as [| n IH]; intros l Hfuel; cbn [while].
  - apply returns_ret, Z.ltb_ge; cbn in Hfuel; lia.
  - destruct (Z.ltb_spec (current_step l) total) as [Hlt | Hge].
    + intros s l2 s2 E; unfold bind in E.
      destruct (loop_body dt spd l s) as [[l1 | e] s1] eqn:E1;
        [| discriminate].
      pose proof (loop_body_advances dt spd l s l1 s1 E1) as Hstep.
      cbv beta in Hstep.
      exact (IH l1 ltac:(lia) s1 l2 s2 E).
    + apply returns_ret, Z.ltb_ge; assumption.
Qed.

End LoopExit.

Section Totality.

Context `{RandomModule}.
Hypothesis Htotal : total_random.

Lemma scheduled_total (events : list (Z * R * R * R)) (hour_of_day : Z) :
  forall (total_demand : R) (g : rng),
    exists x g', Load_.scheduled events hour_of_day total_demand g = (Ok x, g').
Proof.
  induction events as [| [[[eh p] lo] hi] rest IH]; intros d g; cbn.
  - do 2 eexists; reflexivity.
  - destruct (Z.eqb hour_of_day eh).
    + rewrite run_bind_any.
      destruct (random_total Htotal g) as (x & g1 & Ex).
      unfold bind at 1; rewrite Ex.
      destruct (ltb x p).
      * rewrite run_bind_any.
        destruct (uniform_total Htotal lo hi g1) as (u & g2 & Eu).
        unfold bind at 1; rewrite Eu.
        cbn; apply IH.
      * cbn; apply IH.
    + cbn; apply IH.
Qed.

Lemma generate_total (self : Load) (hour : R) (g : rng) :
  exists x g', Load_.generate self hour g = (Ok x, g').
Proof.
  unfold Load_.generate; cbv zeta.
  assert (Hfirst : exists d g1,
             (if (Z.leb (_peak_hours_start self) (int hour)
                  && Z.ltb (int hour) (_peak_hours_end self))%bool
              then
                bind (random_uniform 1.0 (_peak_hours_max_kw self))
                  (fun extra => ret (_base_load_kw self + extra))
              else
                Load_.scheduled (_scheduled_events self) (int hour)
                  (_base_load_kw self)) g = (Ok d, g1)).
  { destruct (_ && _)%bool.
    - destruct (uniform_total Htotal 1.0 (_peak_hours_max_kw self) g)
        as (u & g1 & Eu).
      unfold bind; rewrite Eu; do 2 eexists; reflexivity.
    - apply scheduled_total. }
  destruct Hfirst as (d & g1 & E1).
  unfold bind at 1; rewrite E1.
  destruct (random_total Htotal g1) as (x & g2 & Ex).
  unfold bind at 1; rewrite Ex.
  destruct (ltb x 0.3).
  - destruct (uniform_total Htotal 0.0 0.8 g2) as (u & g3 & Eu).
    unfold bind; rewrite Eu; do 2 eexists; reflexivity.
  - do 2 eexists; reflexivity.
Qed.

Lemma get_daily_coverage_total (self : CloudCoverage) (g : rng) :
  CloudCoverage_.PROBABILITIES (_season self) <> None ->
  exists x g', CloudCoverage_.get_daily_coverage self g = (Ok x, g').
Proof.
  intros Hseason; unfold CloudCoverage_.get_daily_coverage.
  destruct (CloudCoverage_.PROBABILITIES (_season self)) as [w |];
    [| congruence].
  destruct (choices_total Htotal [0; 1; 2; 3]%Z w g) as (level & g1 & El & Hin);
    [discriminate |].
  unfold bind at 1; rewrite El.
  assert (Hitem : exists lo hi,
             getitem (S := rng) CloudCoverage_.COVERAGE_RANGES level g1
             = (Ok (lo, hi), g1)).
  { simpl in Hin.
    destruct Hin as [<- | [<- | [<- | [<- | []]]]];
      do 2 eexists; reflexivity. }
  destruct Hitem as (lo & hi & Ei).
  unfold bind at 1; rewrite Ei.
  destruct (uniform_total Htotal lo hi g1) as (u & g2 & Eu).
  unfold bind; rewrite Eu; do 2 eexists; reflexivity.
Qed.

Lemma check_failure_total (i : Inverter) (g : rng) :
  exists i' g', Inverter_.check_failure (i, g) = (Ok tt, (i', g')).
Proof.
  unfold Inverter_.check_failure, bind at 1, get; cbn [fst snd].
  destruct (_is_failing i); [do 2 eexists; reflexivity |].
  destruct (random_total Htotal g) as (x & g1 & Ex).
  unfold bind at 1, zoom at 1; cbn [fst snd]; rewrite Ex.
  destruct (ltb x (_failure_rate i)); [| do 2 eexists; reflexivity].
  destruct (randint_total Htotal (_min_failure_duration i)
              (_max_failure_duration i) g1) as (h & g2 & Eh).
  cbv [bind get put zoom]; cbn [fst snd]; rewrite Eh.
  do 2 eexists; reflexivity.
Qed.

Lemma update_total (hours_passed : R) (i : Inverter) :
  exists i', Inverter_.update hours_passed i = (Ok tt, i').
Proof.
  unfold Inverter_.update; cbv [bind get put ret].
  destruct (_is_failing i); [| eexists; reflexivity].
  cbn; destruct (leb _ 0); eexists; reflexivity.
Qed.

Lemma get_soc_total (b : Battery) :
  _capacity_kwh b <> 0 ->
  Battery_.get_soc b = (Ok (_energy_kwh b / _capacity_kwh b * 100), b).
Proof.
  intros Hcap; unfold Battery_.get_soc, bind at 1, get.
  unfold bind; rewrite truediv_ok by assumption; reflexivity.
Qed.

Lemma log_daily_summary_total (day : Z) (x1 x2 x3 x4 x5 x6 : R)
    (s : Simulation) :
  sane s ->
  runs (fun _ s' => sane s') (_log_daily_summary day x1 x2 x3 x4 x5 x6) s.
Proof.
  intros Hs; pose proof Hs as (Howe & Hcap & Hrest).
  unfold _log_daily_summary.
  eapply runs_bind.
  { unfold on_sim_battery, zoom; rewrite get_soc_total by assumption.
    reflexivity. }
  eapply runs_bind; [reflexivity |].
  do 2 eexists; split; [reflexivity |].
  exact Hs.
Qed.

Lemma log_daily_summary_frame (day : Z) (x1 x2 x3 x4 x5 x6 : R)
    (s : Simulation) (r : result unit) (s' : Simulation) :
  _log_daily_summary day x1 x2 x3 x4 x5 x6 s = (r, s') ->
  time_step_minutes s' = time_step_minutes s /\
  duration_days s' = duration_days s /\
  hourly_data s' = hourly_data s.
Proof.
  unfold _log_daily_summary, on_sim_battery, zoom, bind, get, put.
  destruct (Battery_.get_soc _) as [[soc | e] b2];
    intros E; inversion E; subst; repeat split; reflexivity.
Qed.

Lemma loop_body_total (dt : R) (spd : Z) (l : Locals) (s : Simulation) :
  sane s -> dt <> 0 -> spd <> 0%Z ->
  runs (fun l' s' =>
          sane s' /\ current_step l' = (current_step l + 1)%Z /\
          List.length (hourly_data s')
            = Datatypes.S (List.length (hourly_data s)))
    (loop_body dt spd l) s.
Proof.
  intros Hs Hdt Hspd.
  pose proof Hs as (Howe & Hcap & Hstrat & Htsm & Hseason).
  unfold loop_body.
  eapply runs_bind; [reflexivity |]; cbv zeta.
  match goal with
  | |- context [Load_.generate (load s) ?h] =>
      destruct (generate_total (load s) h (random_state s)) as (ld & g1 & Eld)
  end.
  eapply runs_bind; [unfold on_random, zoom; rewrite Eld; reflexivity |].
  match goal with
  | |- context [EMS.distribute_energy (ems s) ?sol ?ld ?dt] =>
      destruct (distribute_energy_total (ems s) sol ld dt
                  (mkStore (sim_battery s) (sim_grid s)) Hstrat Howe Hdt)
        as (f & st & Ef & Howe' & Hcap')
  end.
  cbn [battery] in Howe', Hcap'.
  eapply runs_bind.
  { unfold on_store, zoom; sim_cbn; rewrite Ef; reflexivity. }
  eapply runs_bind.
  { unfold on_sim_battery, zoom; sim_cbn.
    rewrite get_soc_total by congruence; reflexivity. }
  eapply runs_bind; [reflexivity |].
  eapply runs_bind; [reflexivity |].
  eapply runs_bind.
  { sim_cbn; unfold env_timeout.
    destruct (Z.ltb_spec (time_step_minutes s) 0); [lia | reflexivity]. }
  destruct (update_total dt (inverter s)) as (i1 & Ei1).
  eapply runs_bind.
  { unfold on_inverter, zoom; sim_cbn; rewrite Ei1; reflexivity. }
  eapply runs_bind.
  { unfold mod_; destruct (Z.eqb_spec spd 0); [contradiction | reflexivity]. }
  set (s1 := set_inverter _ _).
  assert (Hs1 : sane s1).
  { unfold sane, s1; sim_cbn; rewrite Howe', Hcap'; repeat split; tauto || lia. }
  assert (Ht1 : time_step_minutes s1 = time_step_minutes s) by reflexivity.
  assert (Hh1 : List.length (hourly_data s1)
                = Datatypes.S (List.length (hourly_data s))).
  { unfold s1; sim_cbn; rewrite length_app; cbn [List.length]; lia. }
  clearbody s1.
  destruct (_ && _)%bool.
  - match goal with
    | |- context [_log_daily_summary ?d ?a ?b ?c ?e ?g ?h] =>
        destruct (log_daily_summary_total d a b c e g h s1 Hs1)
          as ([] & s2 & E2 & Hs2)
    end.
    destruct (log_daily_summary_frame _ _ _ _ _ _ _ _ _ _ E2)
      as (Ht2 & _ & Hh2).
    eapply runs_bind; [exact E2 |].
    destruct (check_failure_total (inverter s2) (random_state s2))
      as (i3 & g3 & E3).
    eapply runs_bind.
    { unfold on_inverter_random, zoom; rewrite E3; reflexivity. }
    eapply runs_bind; [reflexivity |].
    set (s3 := set_inverter_random _ _).
    assert (Hs3 : sane s3) by exact Hs2.
    assert (Ht3 : time_step_minutes s3 = time_step_minutes s2) by reflexivity.
    assert (Hh3 : hourly_data s3 = hourly_data s2) by reflexivity.
    clearbody s3.
    assert (Hev : exists s4,
               (if _is_failing (inverter s3)
                then put (set_events_log
                            (events_log s3 ++
                             [ {| e_timestamp :=
                                    (current_step l * time_step_minutes s)%Z;
                                  e_failure_hours_remaining :=
                                    _failure_hours_remaining (inverter s3) |} ])
                            s3)
                else ret tt) s3 = (Ok tt, s4) /\
               sane s4 /\ cloud_coverage s4 = cloud_coverage s3 /\
               time_step_minutes s4 = time_step_minutes s3 /\
               hourly_data s4 = hourly_data s3).
    { destruct (_is_failing (inverter s3)); eexists;
        (split; [reflexivity |]); (split; [exact Hs3 |]);
        repeat split. }
    destruct Hev as (s4 & E4 & Hs4 & Hcc4 & Ht4 & Hh4).
    eapply runs_bind; [exact E4 |].
    pose proof Hs4 as (_ & _ & _ & _ & Hseason4).
    rewrite <- Hcc4.
    destruct (get_daily_coverage_total (cloud_coverage s4) (random_state s4)
                Hseason4) as (cov & g5 & E5).
    eapply runs_bind.
    { unfold on_random, zoom; rewrite E5; reflexivity. }
    eapply runs_bind; [reflexivity |].
    eapply runs_bind; [reflexivity |].
    apply runs_ret; sim_cbn; cbn [current_step].
    split; [exact Hs4 |]; split; [reflexivity | congruence].
  - apply runs_ret; cbn [current_step].
    split; [exact Hs1 |]; split; [reflexivity | assumption].
Qed.

(** The loop runs to the point where its guard fails. *)
Lemma while_total (total : Z) (dt : R) (spd : Z) :
  dt <> 0 -> spd <> 0%Z ->
  forall (fuel : nat) (l : Locals) (s : Simulation),
    sane s ->
    (total - current_step l <= Z.of_nat fuel)%Z ->
    runs (fun l' s' =>
            sane s' /\ Z.ltb (current_step l') total = false /\
            Z.of_nat (List.length (hourly_data s'))
              = (Z.of_nat (List.length (hourly_data s))
                 + Z.max 0 (total - current_step l))%Z)
      (while fuel (fun l => Z.ltb (current_step l) total)
         (loop_body dt spd) l) s.
Proof.
  intros Hdt Hspd; induction fuel as [| n IH]; intros l s Hs Hfuel;
    cbn [while].
  - apply runs_ret; split; [assumption |].
    split; [apply Z.ltb_ge; cbn in Hfuel |]; lia.
  - destruct (Z.ltb_spec (current_step l) total) as [Hlt | Hge].
    + destruct (loop_body_total dt spd l s Hs Hdt Hspd)
        as (l1 & s1 & E1 & Hs1 & Hstep & Hlen).
      eapply runs_bind; [exact E1 |].
      destruct (IH l1 s1 Hs1) as (l2 & s2 & E2 & Hs2 & Hguard & Hlen2);
        [lia |].
      exists l2, s2; split; [exact E2 |].
      split; [assumption |]; split; [assumption | lia].
    + apply runs_ret; split; [assumption |].
      split; [apply Z.ltb_ge; assumption | lia].
Qed.

Lemma simulation_loop_total (s : Simulation) :
  sane s ->
  runs (fun _ s' =>
          sane s' /\
          Z.of_nat (List.length (hourly_data s'))
            = (Z.of_nat (List.length (hourly_data s))
               + Z.max 0 (duration_days s * 24 * 60 / time_step_minutes s))%Z)
    _simulation_loop s.
Proof.
  intros Hs; pose proof Hs as (_ & _ & _ & Htsm & _).
  unfold _simulation_loop.
  eapply runs_bind; [reflexivity |].
  assert (Hnz : Z.eqb (time_step_minutes s) 0 = false)
    by (apply Z.eqb_neq; lia).
  eapply runs_bind; [unfold floordiv; rewrite Hnz; reflexivity |].
  cbv zeta.
  eapply runs_bind; [unfold floordiv; rewrite Hnz; reflexivity |].
  assert (Hdt : IZR (time_step_minutes s) / 60.0 <> 0).
  { assert (0 < IZR (time_step_minutes s)) by (apply IZR_lt; lia).
    apply Rgt_not_eq, Rdiv_lt_0_compat; lra. }
  assert (Hspd : (24 * 60 / time_step_minutes s)%Z <> 0%Z).
  { assert (1 <= 24 * 60 / time_step_minutes s)%Z; [| lia].
    apply Z.div_le_lower_bound; lia. }
  match goal with
  | |- context [while ?fuel ?c ?body ?l0] =>
      destruct (while_total (duration_days s * 24 * 60 / time_step_minutes s)
                  (IZR (time_step_minutes s) / 60.0)
                  (24 * 60 / time_step_minutes s) Hdt Hspd fuel l0 s Hs)
        as (l & s1 & E1 & Hs1 & _ & Hlen)
  end.
  { cbn [current_step]; lia. }
  cbn [current_step] in Hlen; rewrite Z.sub_0_r in Hlen.
  eapply runs_bind; [exact E1 |].
  destruct (_ || _)%bool.
  - match goal with
    | |- context [_log_daily_summary ?d ?a ?b ?c ?e ?g ?h] =>
        destruct (log_daily_summary_total d a b c e g h s1 Hs1)
          as ([] & s2 & E2 & Hs2)
    end.
    destruct (log_daily_summary_frame _ _ _ _ _ _ _ _ _ _ E2)
      as (_ & _ & Hh2).
    exists tt, s2; split; [exact E2 |].
    split; [assumption | rewrite Hh2; assumption].
  - apply runs_ret; split; assumption.
Qed.

Lemma run_total (s : Simulation) :
  sane s ->
  runs (fun _ s' =>
          sane s' /\
          Z.of_nat (List.length (hourly_data s'))
            = (Z.of_nat (List.length (hourly_data s))
               + Z.max 0 (duration_days s * 24 * 60 / time_step_minutes s))%Z)
    run s.
Proof.
  intros Hs; pose proof Hs as (_ & _ & _ & Htsm & _).
  unfold run.
  eapply runs_bind; [reflexivity |].
  eapply runs_bind.
  { unfold floordiv.
    destruct (Z.eqb_spec (time_step_minutes s) 0); [lia | reflexivity]. }
  destruct (simulation_loop_total s Hs) as ([] & s1 & E1 & Hs1 & Hlen).
  eapply runs_bind; [exact E1 |].
  pose proof Hs1 as (_ & Hcap1 & _).
  unfold _compile_results.
  eapply runs_bind; [reflexivity |]; cbv zeta.
  eapply runs_bind.
  { unfold on_sim_battery, zoom.
    rewrite get_soc_total by assumption; reflexivity. }
  apply runs_ret; split; [exact Hs1 | exact Hlen].
Qed.

Lemma init_total (cfg : Config) (time_us : Z) :
  sane_config cfg ->
  exists sim,
    __init__ cfg time_us = Ok sim /\ sane sim /\
    hourly_data sim = [] /\
    duration_days sim = simulation_duration_days cfg /\
    time_step_minutes sim = simulation_time_step_minutes cfg.
Proof.
  intros (Heff & Hcap & Hstrat & Htsm & Hseason).
  unfold __init__; cbv zeta.
  rewrite init_spec by lra.
  unfold CloudCoverage_.__init__.
  destruct (CloudCoverage_.PROBABILITIES (simulation_season cfg)) eqn:Ep;
    [| congruence].
  match goal with
  | |- context [CloudCoverage_.get_daily_coverage ?cc ?g] =>
      destruct (get_daily_coverage_total cc g) as (cov & g1 & Ec)
  end.
  { cbn; rewrite Ep; discriminate. }
  rewrite Ec; eexists; split; [reflexivity |].
  split; [| repeat split].
  unfold sane; sim_cbn; cbn.
  repeat split; try assumption; try lia.
  - apply Rgt_not_eq, sqrt_lt_R0; assumption.
  - rewrite Ep; discriminate.
Qed.

(** A run of a sane configuration completes and logs one record per
    step. *)
Lemma simulate_total (cfg : Config) (time_us : Z) :
  sane_config cfg ->
  exists sim,
    simulate cfg time_us = (Ok tt, Some sim) /\
    Z.of_nat (List.length (hourly_data sim))
      = Z.max 0 (simulation_duration_days cfg * 24 * 60
                 / simulation_time_step_minutes cfg).
Proof.
  intros Hcfg; unfold simulate.
  destruct (init_total cfg time_us Hcfg) as (sim & -> & Hs & Hh & Hd & Ht).
  destruct (run_total sim Hs) as (res & sim' & -> & _ & Hlen).
  eexists; split; [reflexivity |].
  rewrite Hlen, Hh, Hd, Ht; reflexivity.
Qed.

End Totality.

Lemma counting_random_total : @total_random counting_random.
Proof.
  constructor; cbn.
  - intros g; do 2 eexists; reflexivity.
  - intros a b g; do 2 eexists; reflexivity.
  - intros pop w g Hpop; do 2 eexists; split; [reflexivity |].
    apply nth_In, Nat.mod_upper_bound.
    destruct pop; [congruence | discriminate].
  - intros a b g; do 2 eexists; reflexivity.
Qed.

Lemma example_config_sane (strategy : string) :
  In strategy ["LOAD_PRIORITY"; "CHARGE_PRIORITY"; "PRODUCE_PRIORITY"]%string ->
  sane_config (with_strategy example_config strategy).
Proof.
  intros Hs; unfold sane_config; cbn.
  repeat split; try lra; try lia; try assumption; discriminate.
Qed.

Section IndependenceTheorem.

Context `{RandomModule}.

(** C8. Two complete runs from configurations that differ in the dispatch
    strategy only, with the same seed (given in the configuration, or
    derived from the same clock value when the configuration has none),
    log the same sequence of [cloud_coverage], [solar_available_kw] and
    [load_demand_kw] values step by step, and end with the generator and
    the inverter in the same state: the draws of CloudCoverage, Load and
    Inverter do not depend on the strategy. *)
Theorem draws_independent_of_strategy
    (cfg : Config) (strategy1 strategy2 : string) (time_us1 time_us2 : Z)
    (sim1 sim2 : Simulation) :
  simulation_random_seed cfg <> None \/
    (time_us1 mod 2147483647 = time_us2 mod 2147483647)%Z ->
  simulate (with_strategy cfg strategy1) time_us1 = (Ok tt, Some sim1) ->
  simulate (with_strategy cfg strategy2) time_us2 = (Ok tt, Some sim2) ->
  map env_columns (hourly_data sim1) = map env_columns (hourly_data sim2) /\
  random_state sim1 = random_state sim2 /\
  inverter sim1 = inverter sim2.
Proof.
  intros Hseed; unfold simulate.
  destruct (__init__ (with_strategy cfg strategy1) time_us1) as [a | e1] eqn:Ea;
    [| discriminate].
  destruct (__init__ (with_strategy cfg strategy2) time_us2) as [b | e2] eqn:Eb;
    [| discriminate].
  destruct (run a) as [[r1 | e1] a'] eqn:Ra; [| intros E; discriminate E].
  destruct (run b) as [[r2 | e2] b'] eqn:Rb;
    [| intros _ E; discriminate E].
  intros [= <-] [= <-].
  pose proof (init_same_view cfg strategy1 strategy2 time_us1 time_us2 a b
                Hseed Ea Eb) as Hab.
  destruct (run_lockstep a b r1 a' r2 b' Hab Ra Rb) as [_ Hview].
  split; [exact (f_equal v_columns Hview) |].
  split; [exact (f_equal v_random_state Hview) |].
  exact (f_equal v_inverter Hview).
Qed.

End IndependenceTheorem.

Lemma draws_independent_of_strategy_witness :
  exists sim1 sim2 : @Simulation counting_random,
    simulate (with_strategy example_config "LOAD_PRIORITY") 0
      = (Ok tt, Some sim1) /\
    simulate (with_strategy example_config "PRODUCE_PRIORITY") 0
      = (Ok tt, Some sim2) /\
    List.length (hourly_data sim1) = 48%nat /\
    map env_columns (hourly_data sim1) = map env_columns (hourly_data sim2) /\
    random_state sim1 = random_state sim2 /\
    inverter sim1 = inverter sim2.
Proof.
  destruct (@simulate_total counting_random counting_random_total
              (with_strategy example_config "LOAD_PRIORITY") 0)
    as (sim1 & E1 & Hlen).
  { apply example_config_sane; simpl; tauto. }
  destruct (@simulate_total counting_random counting_random_total
              (with_strategy example_config "PRODUCE_PRIORITY") 0)
    as (sim2 & E2 & _).
  { apply example_config_sane; simpl; tauto. }
  exists sim1, sim2.
  split; [exact E1 |]; split; [exact E2 |].
  split; [cbn in Hlen; lia |].
  apply (@draws_independent_of_strategy counting_random example_config
           "LOAD_PRIORITY" "PRODUCE_PRIORITY" 0%Z 0%Z sim1 sim2);
    [left; discriminate | exact E1 | exact E2].
Defined.

(* ===================================================================== *)
(** * Worked examples *)
(* ===================================================================== *)

(** CHARGE_PRIORITY with 5 kW of solar and 3 kW of load for one hour on
    the example battery (6.75 kWh stored, floor 0.675 kWh): the battery
    takes the whole 5 kWh offer, nothing is left for the load, and the
    3 kW are imported although the battery holds far more than that. *)
Example charge_priority_imports_despite_battery :
  exists f s',
    EMS.distribute_energy (mkEMS "CHARGE_PRIORITY") 5 3 1 example_store
      = (Ok f, s') /\
    solar_to_battery f = 5 /\ solar_to_load f = 0 /\
    battery_to_load f = 0 /\ grid_to_load f = 3 /\
    _energy_kwh (battery s') = 6.75 + 5 * sqrt 0.9 /\
    _energy_kwh (battery s') - _min_energy_kwh (battery s') > 3 / sqrt 0.9 /\
    _total_energy_imported_kwh (grid s') = 3.
Proof.
  pose proof sqrt09_bounds as Hs.
  assert (Howe : sqrt 0.9 <> 0) by lra.
  assert (Hdt : 1 <> 0) by lra.
  assert (Hstored : Rmin (5 * 1 * sqrt 0.9) (13.5 - 6.75) = 5 * sqrt 0.9)
    by (rewrite Rmin_left; lra).
  assert (Hinv : 3 / sqrt 0.9 < 3.3).
  { apply (Rmult_lt_reg_r (sqrt 0.9)); [lra |].
    unfold Rdiv; rewrite Rmult_assoc, Rinv_l by lra; lra. }
  unfold example_store, example_battery, example_grid, Grid_.__init__.
  unfold EMS.distribute_energy;
    cbn [_strategy String.eqb Ascii.eqb Bool.eqb].
  unfold EMS._charge_priority.
  destruct (geb_spec 5 3); [| lra].
  rewrite run_charge by (ems_cbn; assumption); cbv zeta; ems_cbn.
  rewrite Hstored.
  replace (5 * sqrt 0.9 / sqrt 0.9) with 5 by (field; assumption).
  ems_run; try lra.
  do 2 eexists; split; [reflexivity |].
  ems_cbn; flows_cbn.
  replace (5 / 1) with 5 by lra.
  replace (5 - 5) with 0 by lra.
  replace (3 - 0) with 3 by lra.
  rewrite round_0, !round_IZR.
  repeat split; lra.
Qed.

(* ===================================================================== *)
(** * Battery: degenerate parameters *)
(* ===================================================================== *)

Lemma Rdiv_le_compat_pos (x y w : R) : 0 < w -> x <= y -> x / w <= y / w.
Proof.
  intros Hw Hxy; unfold Rdiv; apply Rmult_le_compat_r; [| assumption].
  left; apply Rinv_0_lt_compat; assumption.
Qed.

Lemma Rdiv_nonneg (x w : R) : 0 < w -> 0 <= x -> 0 <= x / w.
Proof.
  intros Hw Hx; unfold Rdiv; apply Rmult_le_pos; [assumption |].
  left; apply Rinv_0_lt_compat; assumption.
Qed.

(** X8. The constructor accepts an efficiency of 0 and rejects a negative
    one with [ValueError]; on a battery whose efficiency is 0 every
    [charge] and every [discharge] raises [ZeroDivisionError] and leaves
    the battery as it was; and [get_soc()] raises [ZeroDivisionError] on a
    battery of capacity 0. *)
Theorem degenerate_battery (capacity_kwh min_soc : R) :
  (forall efficiency, efficiency < 0 ->
     Battery_.__init__ capacity_kwh efficiency min_soc
       = Raise (ValueError "math domain error")) /\
  (exists b0,
     Battery_.__init__ capacity_kwh 0 min_soc = Ok b0 /\
     forall e,
       Battery_.charge e b0
         = (Raise (ZeroDivisionError "float division by zero"), b0) /\
       Battery_.discharge e b0
         = (Raise (ZeroDivisionError "float division by zero"), b0)) /\
  (forall b, _capacity_kwh b = 0 ->
     Battery_.get_soc b
       = (Raise (ZeroDivisionError "float division by zero"), b)).
Proof.
  split; [| split].
  - intros efficiency Hneg; unfold Battery_.__init__, math_sqrt.
    rewrite ltb_true by assumption; reflexivity.
  - rewrite init_spec by lra; rewrite sqrt_0.
    eexists; split; [reflexivity |].
    intros e; split;
      unfold Battery_.charge, Battery_.discharge, bind, get; cbn;
      rewrite truediv_zero; reflexivity.
  - intros b Hcap; unfold Battery_.get_soc, bind, get.
    rewrite Hcap, truediv_zero; reflexivity.
Qed.

Lemma degenerate_battery_witness :
  Battery_.__init__ 13.5 (-1) 0.05 = Raise (ValueError "math domain error") /\
  Battery_.get_soc (mkBattery 0 0.9 0.05 0 0 (sqrt 0.9))
    = (Raise (ZeroDivisionError "float division by zero"),
       mkBattery 0 0.9 0.05 0 0 (sqrt 0.9)).
Proof.
  split.
  - apply (proj1 (degenerate_battery 13.5 0.05)); lra.
  - apply (proj2 (proj2 (degenerate_battery 13.5 0.05))); reflexivity.
Defined.

(* ===================================================================== *)
(** * Grid: the ledger *)
(* ===================================================================== *)

Lemma gcall_spec (c : grid_call) (g : Grid) :
  exists out g',
    gcall c g = (Ok out, g') /\
    _import_cost_per_kwh g' = _import_cost_per_kwh g /\
    _export_revenue_per_kwh g' = _export_revenue_per_kwh g /\
    _export_limit_kw g' = _export_limit_kw g /\
    match c with
    | Import p dt =>
        out = p * dt * _import_cost_per_kwh g /\
        _total_energy_imported_kwh g' = _total_energy_imported_kwh g + p * dt /\
        _total_import_cost g' = _total_import_cost g + out /\
        _total_energy_exported_kwh g' = _total_energy_exported_kwh g /\
        _total_export_revenue g' = _total_export_revenue g
    | Export p dt =>
        out = Rmin p (_export_limit_kw g) /\
        _total_energy_exported_kwh g'
          = _total_energy_exported_kwh g + out * dt /\
        _total_export_revenue g'
          = _total_export_revenue g + out * dt * _export_revenue_per_kwh g /\
        _total_energy_imported_kwh g' = _total_energy_imported_kwh g /\
        _total_import_cost g' = _total_import_cost g
    end.
Proof.
  destruct c as [p dt | p dt]; cbn [gcall].
  - rewrite import_energy_spec; do 2 eexists; split; [reflexivity |].
    cbn; repeat split.
  - rewrite export_energy_spec, min_Rmin; do 2 eexists;
      split; [reflexivity |].
    cbn; repeat split.
Qed.

(** X10. The four running totals of a grid never decrease: with
    non-negative prices and export limit, after any finite sequence of
    calls whose powers and step durations are non-negative, each total is
    at least what it was, and every returned cost or exported power is
    non-negative. *)
Theorem grid_totals_monotone (cs : list grid_call) :
  forall g : Grid,
    0 <= _import_cost_per_kwh g -> 0 <= _export_revenue_per_kwh g ->
    0 <= _export_limit_kw g ->
    Forall (fun c => 0 <= grid_call_power c /\ 0 <= grid_call_step c) cs ->
    exists outs g',
      gcalls cs g = (Ok outs, g') /\
      Forall (fun out => 0 <= out) outs /\
      _total_energy_imported_kwh g <= _total_energy_imported_kwh g' /\
      _total_energy_exported_kwh g <= _total_energy_exported_kwh g' /\
      _total_import_cost g <= _total_import_cost g' /\
      _total_export_revenue g <= _total_export_revenue g'.
Proof.
  induction cs as [| c cs IH]; intros g Hic Her Hlim Hargs; cbn [gcalls].
  - exists [], g; repeat split; try lra; constructor.
  - inversion Hargs as [| c' cs' [Hp Hdt] Hrest]; subst.
    destruct (gcall_spec c g) as (out & g1 & E1 & K1 & K2 & K3 & Hcall).
    destruct (IH g1) as (outs & g2 & E2 & Houts & M1 & M2 & M3 & M4);
      try (rewrite ?K1, ?K2, ?K3; assumption).
    exists (out :: outs), g2.
    split; [unfold bind; rewrite E1, E2; reflexivity |].
    assert (Hout : 0 <= out /\
              _total_energy_imported_kwh g <= _total_energy_imported_kwh g1 /\
              _total_energy_exported_kwh g <= _total_energy_exported_kwh g1 /\
              _total_import_cost g <= _total_import_cost g1 /\
              _total_export_revenue g <= _total_export_revenue g1).
    { destruct c as [p dt | p dt]; cbn in Hp, Hdt;
        destruct Hcall as (Ho & Ha & Hb & Hd & He);
        rewrite Ha, Hb, Hd, He.
      - assert (0 <= p * dt) by (apply Rmult_le_pos; assumption).
        assert (0 <= out) by (subst out; apply Rmult_le_pos; assumption).
        repeat split; lra.
      - assert (0 <= out) by (subst out; apply Rmin_glb; assumption).
        assert (0 <= out * dt) by (apply Rmult_le_pos; assumption).
        assert (0 <= out * dt * _export_revenue_per_kwh g)
          by (apply Rmult_le_pos; assumption).
        repeat split; lra. }
    destruct Hout as (Ho & N1 & N2 & N3 & N4).
    split; [constructor; assumption |].
    repeat split; lra.
Qed.

Lemma grid_totals_monotone_witness :
  exists outs g',
    gcalls [Import 10 1; Export 25 0.5; Export 3 1] example_grid
      = (Ok outs, g') /\
    Forall (fun out => 0 <= out) outs /\
    _total_energy_imported_kwh example_grid <= _total_energy_imported_kwh g' /\
    _total_energy_exported_kwh example_grid <= _total_energy_exported_kwh g' /\
    _total_import_cost example_grid <= _total_import_cost g' /\
    _total_export_revenue example_grid <= _total_export_revenue g'.
Proof.
  apply grid_totals_monotone; simpl; try lra.
  repeat constructor; simpl; lra.
Defined.

(** X11. What a grid call returns is what it books: [import_energy]
    returns the cost it adds to the import cost and adds [power x dt] to
    the imported energy; [export_energy] returns a power that exceeds
    neither the offer nor the export limit, equal to the offer when the
    offer is within the limit, and adds that power times [dt] to the
    exported energy; neither call touches the other side of the ledger. *)
Theorem grid_call_books_what_it_returns (c : grid_call) (g : Grid) :
  exists out g',
    gcall c g = (Ok out, g') /\
    match c with
    | Import p dt =>
        _total_import_cost g' = _total_import_cost g + out /\
        _total_energy_imported_kwh g' = _total_energy_imported_kwh g + p * dt /\
        _total_energy_exported_kwh g' = _total_energy_exported_kwh g /\
        _total_export_revenue g' = _total_export_revenue g
    | Export p dt =>
        out <= p /\ out <= _export_limit_kw g /\
        (p <= _export_limit_kw g -> out = p) /\
        _total_energy_exported_kwh g'
          = _total_energy_exported_kwh g + out * dt /\
        _total_export_revenue g'
          = _total_export_revenue g + out * dt * _export_revenue_per_kwh g /\
        _total_energy_imported_kwh g' = _total_energy_imported_kwh g /\
        _total_import_cost g' = _total_import_cost g
    end.
Proof.
  destruct (gcall_spec c g) as (out & g1 & E1 & _ & _ & _ & Hcall).
  exists out, g1; split; [assumption |].
  destruct c as [p dt | p dt]; destruct Hcall as (Ho & Ha & Hb & Hd & He).
  - repeat split; assumption.
  - repeat split; try assumption; subst out.
    + apply Rmin_l.
    + apply Rmin_r.
    + intros Hle; apply Rmin_left; assumption.
Qed.

(* ===================================================================== *)
(** * EnergyManagementSystem: what a dispatch step guarantees *)
(* ===================================================================== *)

Lemma round_half_even_nonneg (y : R) : 0 <= y -> (0 <= round_half_even y)%Z.
Proof.
  intros Hy; unfold round_half_even.
  assert (Hf : (0 <= Zfloor y)%Z) by (apply Zfloor_lub; exact Hy).
  destruct (ltb _ _); [lia |].
  destruct (ltb _ _); [lia |].
  destruct (Z.even _); lia.
Qed.

Lemma round_nonneg (x : R) (n : nat) : 0 <= x -> 0 <= round x n.
Proof.
  intros Hx; unfold round.
  pose proof (pow10_pos n) as Hp.
  apply Rdiv_nonneg; [assumption |].
  apply IZR_le, round_half_even_nonneg, Rmult_le_pos; lra.
Qed.

Lemma flows_dict_nonneg (sl sb sg bl gl cu : R) :
  0 <= sl -> 0 <= sb -> 0 <= sg -> 0 <= bl -> 0 <= gl -> 0 <= cu ->
  let f := EMS.flows_dict sl sb sg bl gl cu in
  0 <= solar_to_load f /\ 0 <= solar_to_battery f /\ 0 <= solar_to_grid f /\
  0 <= battery_to_load f /\ 0 <= grid_to_load f /\ 0 <= unmet_load f /\
  0 <= curtailed f.
Proof.
  intros; cbv zeta; flows_cbn; repeat split; apply round_nonneg; assumption.
Qed.

(** What the battery stores out of an offered power, and what that is as
    a power over the step. *)
Lemma charged_bounds (p dt owe room : R) :
  0 < owe -> 0 < dt -> 0 <= p -> 0 <= room ->
  (0 <= Rmin (p * dt * owe) room <= room) /\
  (0 <= Rmin (p * dt * owe) room / owe / dt <= p).
Proof.
  intros Howe Hdt Hp Hroom.
  assert (0 <= Rmin (p * dt * owe) room).
  { apply Rmin_glb; [| assumption].
    apply Rmult_le_pos; [apply Rmult_le_pos |]; lra. }
  pose proof (Rmin_r (p * dt * owe) room).
  pose proof (charged_power_le p dt owe room Howe Hdt).
  pose proof (charged_power_nonneg p dt owe room Howe Hdt Hp Hroom).
  lra.
Qed.

Lemma discharged_bounds (d dt owe avail : R) :
  0 < owe -> 0 < dt -> 0 <= d -> 0 <= avail ->
  (0 <= Rmin (d * dt / owe) avail <= avail) /\
  (0 <= Rmin (d * dt / owe) avail * owe / dt <= d).
Proof.
  intros Howe Hdt Hd Havail.
  assert (H0 : 0 <= Rmin (d * dt / owe) avail).
  { apply Rmin_glb; [| assumption].
    apply Rdiv_nonneg; [assumption | apply Rmult_le_pos; lra]. }
  pose proof (Rmin_r (d * dt / owe) avail).
  pose proof (discharged_power_le d dt owe avail Howe Hdt).
  assert (0 <= Rmin (d * dt / owe) avail * owe / dt).
  { apply Rdiv_nonneg; [assumption | apply Rmult_le_pos; lra]. }
  lra.
Qed.

(** Name what the battery stored and released, with their bounds; the
    charge first, since the energy available to a later discharge depends
    on it. *)
Ltac bound_powers Howe Hdt :=
  repeat match goal with
         | |- context [Rmin (?p * ?dt * ?owe) ?room] =>
             let H := fresh "Hch" in
             pose proof (charged_bounds p dt owe room Howe Hdt
                           ltac:(lra) ltac:(lra)) as H;
             let st := fresh "stored" in
             let ch := fresh "charged" in
             set (ch := Rmin (p * dt * owe) room / owe / dt) in *;
             set (st := Rmin (p * dt * owe) room) in *;
             clearbody ch st
         end;
  repeat match goal with
         | |- context [Rmin (?d * ?dt / ?owe) ?avail] =>
             let H := fresh "Hdis" in
             pose proof (discharged_bounds d dt owe avail Howe Hdt
                           ltac:(lra) ltac:(lra)) as H;
             let ex := fresh "extracted" in
             let di := fresh "discharged" in
             set (di := Rmin (d * dt / owe) avail * owe / dt) in *;
             set (ex := Rmin (d * dt / owe) avail) in *;
             clearbody di ex
         end.

Ltac split_tests :=
  repeat match goal with
         | |- context [if ltb ?a ?b then _ else _] => destruct (ltb_spec a b)
         | |- context [if gtb ?a ?b then _ else _] => destruct (gtb_spec a b)
         | |- context [min ?a ?b] =>
             let H := fresh in
             destruct (min_cases a b) as [[H ?] | [H ?]]; rewrite !H in *
         end.

(** X12. Every field of the flow breakdown is non-negative: for each of
    the three strategies, non-negative [solar_kw] and [load_kw], a positive
    step, a battery inside its bounds with a positive one-way efficiency
    and a grid with a non-negative export limit, [distribute_energy]
    returns a dictionary whose seven fields are all [>= 0]. *)
Theorem flows_nonnegative
    (strategy : string) (solar_kw load_kw time_step_hours : R) (s : Store) :
  In strategy ["LOAD_PRIORITY"; "CHARGE_PRIORITY"; "PRODUCE_PRIORITY"]%string ->
  0 <= solar_kw -> 0 <= load_kw -> 0 < time_step_hours ->
  0 < _one_way_efficiency (battery s) ->
  within_bounds (battery s) ->
  0 <= _export_limit_kw (grid s) ->
  exists f s',
    EMS.distribute_energy (mkEMS strategy) solar_kw load_kw time_step_hours s
      = (Ok f, s') /\
    0 <= solar_to_load f /\ 0 <= solar_to_battery f /\ 0 <= solar_to_grid f /\
    0 <= battery_to_load f /\ 0 <= grid_to_load f /\ 0 <= unmet_load f /\
    0 <= curtailed f.
Proof.
  intros Hstrat Hsolar Hload Hdt Howe Hb Hlim.
  destruct s as [[cap eff msoc en men owe] [ic er lim ti te tc tr]].
  unfold within_bounds in Hb; ems_cbn.
  assert (Hdt0 : time_step_hours <> 0) by lra.
  assert (Howe0 : owe <> 0) by lra.
  unfold EMS.distribute_energy.
  simpl in Hstrat.
  destruct Hstrat as [<- | [<- | [<- | []]]];
    cbn [_strategy String.eqb Ascii.eqb Bool.eqb].
  - unfold EMS._load_priority;
      destruct (geb_spec solar_kw load_kw); ems_run;
      bound_powers Howe Hdt;
      (do 2 eexists; split; [reflexivity |]);
      apply flows_dict_nonneg; split_tests; lra.
  - unfold EMS._charge_priority;
      destruct (geb_spec solar_kw load_kw); ems_run;
      bound_powers Howe Hdt;
      (do 2 eexists; split; [reflexivity |]);
      apply flows_dict_nonneg; split_tests; lra.
  - unfold EMS._produce_priority; ems_run;
      split_tests; bound_powers Howe Hdt;
      (do 2 eexists; split; [reflexivity |]);
      apply flows_dict_nonneg; split_tests; lra.
Qed.

Lemma flows_nonnegative_witness :
  exists f s',
    EMS.distribute_energy (mkEMS "PRODUCE_PRIORITY") 25 3 0.25 example_store
      = (Ok f, s') /\
    0 <= solar_to_load f /\ 0 <= solar_to_battery f /\ 0 <= solar_to_grid f /\
    0 <= battery_to_load f /\ 0 <= grid_to_load f /\ 0 <= unmet_load f /\
    0 <= curtailed f.
Proof.
  apply flows_nonnegative; try lra; try apply example_store_ok;
    simpl; tauto || lra.
Defined.





(** ** Particular situations of a dispatch step *)

(** X15. PRODUCE_PRIORITY exports before anything else: when the solar
    power is within the export limit (positive step and one-way
    efficiency), the whole of it is reported as [solar_to_grid] and booked
    as exported energy, and nothing goes to the battery, to the load or to
    curtailment; if moreover the battery is at its floor and there is load,
    the battery delivers nothing and the whole load is imported in the
    same step, next to the export. *)
Theorem produce_priority_exports_first
    (solar_kw load_kw time_step_hours : R) (s : Store) :
  0 <= solar_kw <= _export_limit_kw (grid s) ->
  0 < time_step_hours ->
  0 < _one_way_efficiency (battery s) ->
  exists f s',
    EMS.distribute_energy (mkEMS "PRODUCE_PRIORITY") solar_kw load_kw
      time_step_hours s = (Ok f, s') /\
    solar_to_grid f = round solar_kw 6 /\
    solar_to_battery f = 0 /\ solar_to_load f = 0 /\ curtailed f = 0 /\
    _total_energy_exported_kwh (grid s')
      = _total_energy_exported_kwh (grid s) + solar_kw * time_step_hours /\
    (_energy_kwh (battery s) = _min_energy_kwh (battery s) -> 0 < load_kw ->
     battery_to_load f = 0 /\
     grid_to_load f = round load_kw 6 /\
     _energy_kwh (battery s') = _energy_kwh (battery s) /\
     _total_energy_imported_kwh (grid s')
       = _total_energy_imported_kwh (grid s) + load_kw * time_step_hours).
Proof.
  intros [Hsolar Hlim] Hdt Howe.
  destruct s as [[cap eff msoc en men owe] [ic er lim ti te tc tr]].
  ems_cbn.
  assert (Hdt0 : time_step_hours <> 0) by lra.
  assert (Howe0 : owe <> 0) by lra.
  assert (Hmin : min solar_kw lim = solar_kw).
  { destruct (min_cases solar_kw lim) as [[E _] | [_ E]]; [exact E | lra]. }
  unfold EMS.distribute_energy;
    cbn [_strategy String.eqb Ascii.eqb Bool.eqb].
  unfold EMS._produce_priority.
  rewrite run_export; cbv zeta; ems_cbn; rewrite !Hmin.
  ems_run; try lra.
  all: do 2 eexists; split; [reflexivity |]; ems_cbn; flows_cbn.
  all: rewrite ?round_0.
  all: do 5 (split; [reflexivity |]); intros Heq Hl; subst en.
  all: try (exfalso; lra).
  all: assert (Hz : Rmin (load_kw * time_step_hours / owe) (men - men) = 0)
         by (rewrite Rminus_diag; apply Rmin_right, Rdiv_nonneg;
             [lra | apply Rmult_le_pos; lra]).
  all: rewrite Hz in *.
  all: replace (0 * owe / time_step_hours) with 0 in * by (field; lra).
  all: rewrite ?round_0, ?Rminus_0_r in *; try (exfalso; lra).
  all: repeat split; reflexivity.
Qed.



(** X18. A deficit with the battery at its floor, under LOAD_PRIORITY or
    CHARGE_PRIORITY: all solar serves the load, the battery delivers
    nothing and keeps its energy, and the whole deficit
    [load_kw - solar_kw] is imported: it is reported as [grid_to_load] and
    [unmet_load], added (times the step) to the imported energy and, at the
    import price, to the import cost. *)
Theorem deficit_with_empty_battery
    (strategy : string) (solar_kw load_kw time_step_hours : R) (s : Store) :
  In strategy ["LOAD_PRIORITY"; "CHARGE_PRIORITY"]%string ->
  solar_kw < load_kw -> 0 < time_step_hours ->
  0 < _one_way_efficiency (battery s) ->
  _energy_kwh (battery s) = _min_energy_kwh (battery s) ->
  exists f s',
    EMS.distribute_energy (mkEMS strategy) solar_kw load_kw
      time_step_hours s = (Ok f, s') /\
    solar_to_load f = round solar_kw 6 /\
    solar_to_battery f = 0 /\ solar_to_grid f = 0 /\ curtailed f = 0 /\
    battery_to_load f = 0 /\
    grid_to_load f = round (load_kw - solar_kw) 6 /\
    unmet_load f = round (load_kw - solar_kw) 6 /\
    _energy_kwh (battery s') = _energy_kwh (battery s) /\
    _total_energy_imported_kwh (grid s')
      = _total_energy_imported_kwh (grid s)
        + (load_kw - solar_kw) * time_step_hours /\
    _total_import_cost (grid s')
      = _total_import_cost (grid s)
        + (load_kw - solar_kw) * time_step_hours
          * _import_cost_per_kwh (grid s).
Proof.
  intros Hstrat Hlt Hdt Howe Hempty.
  destruct s as [[cap eff msoc en men owe] [ic er lim ti te tc tr]].
  ems_cbn; subst en.
  assert (Hdt0 : time_step_hours <> 0) by lra.
  assert (Howe0 : owe <> 0) by lra.
  assert (Hz : Rmin ((load_kw - solar_kw) * time_step_hours / owe)
                 (men - men) = 0).
  { rewrite Rminus_diag; apply Rmin_right, Rdiv_nonneg;
      [lra | apply Rmult_le_pos; lra]. }
  unfold EMS.distribute_energy.
  simpl in Hstrat.
  destruct Hstrat as [<- | [<- | []]];
    cbn [_strategy String.eqb Ascii.eqb Bool.eqb];
    [unfold EMS._load_priority | unfold EMS._charge_priority];
    (destruct (geb_spec solar_kw load_kw); [lra |]);
    ems_run; rewrite ?Hz in *;
    replace (0 * owe / time_step_hours) with 0 in * by (field; lra);
    rewrite ?Rminus_0_r in *; try (exfalso; lra);
    (do 2 eexists; split; [reflexivity |]); ems_cbn; flows_cbn;
    rewrite ?round_0; repeat split; try reflexivity; lra.
Qed.


Lemma produce_priority_exports_first_witness :
  exists f s',
    EMS.distribute_energy (mkEMS "PRODUCE_PRIORITY") 10 3 1
      (mkStore (mkBattery 13.5 0.9 0.05 0.675 0.675 (sqrt 0.9)) example_grid)
      = (Ok f, s') /\
    solar_to_grid f = round 10 6 /\
    solar_to_battery f = 0 /\ solar_to_load f = 0 /\ curtailed f = 0 /\
    _total_energy_exported_kwh (grid s') = 0 + 10 * 1 /\
    (0.675 = 0.675 -> 0 < 3 ->
     battery_to_load f = 0 /\
     grid_to_load f = round 3 6 /\
     _energy_kwh (battery s') = 0.675 /\
     _total_energy_imported_kwh (grid s') = 0 + 3 * 1).
Proof.
  pose proof sqrt09_bounds as Hs.
  apply (produce_priority_exports_first 10 3 1
           (mkStore (mkBattery 13.5 0.9 0.05 0.675 0.675 (sqrt 0.9))
              example_grid)); simpl; lra.
Defined.



Lemma deficit_with_empty_battery_witness :
  exists f s',
    EMS.distribute_energy (mkEMS "CHARGE_PRIORITY") 2 5 1
      (mkStore (mkBattery 13.5 0.9 0.05 0.675 0.675 (sqrt 0.9)) example_grid)
      = (Ok f, s') /\
    solar_to_load f = round 2 6 /\
    solar_to_battery f = 0 /\ solar_to_grid f = 0 /\ curtailed f = 0 /\
    battery_to_load f = 0 /\
    grid_to_load f = round (5 - 2) 6 /\
    unmet_load f = round (5 - 2) 6 /\
    _energy_kwh (battery s') = 0.675 /\
    _total_energy_imported_kwh (grid s') = 0 + (5 - 2) * 1 /\
    _total_import_cost (grid s') = 0 + (5 - 2) * 1 * 0.0075.
Proof.
  pose proof sqrt09_bounds as Hs.
  apply (deficit_with_empty_battery "CHARGE_PRIORITY" 2 5 1
           (mkStore (mkBattery 13.5 0.9 0.05 0.675 0.675 (sqrt 0.9))
              example_grid)); simpl; try lra; tauto.
Defined.


(* ===================================================================== *)
(** * Inverter *)
(* ===================================================================== *)

Lemma counting_random_bounded : @bounded_random counting_random.
Proof.
  constructor; cbn.
  - intros g x g' [= <- _]; lra.
  - intros a b g x g' [= <- _].
    unfold Rmin, Rmax; destruct (Rle_dec a b); lra.
  - intros pop w g x g' Hpop [= <- _].
    apply nth_In, Nat.mod_upper_bound.
    destruct pop; [congruence | discriminate].
  - intros a b g x g' Hab [= <- _]; lia.
Qed.

Lemma update_spec (h : R) (i : Inverter) :
  Inverter_.update h i =
    (Ok tt,
     if _is_failing i then
       if leb (_failure_hours_remaining i - h) 0
       then set_failure (set_failure i true (_failure_hours_remaining i - h))
              false 0
       else set_failure i true (_failure_hours_remaining i - h)
     else i).
Proof.
  unfold Inverter_.update; cbv [bind get put ret].
  destruct (_is_failing i) eqn:E; [| reflexivity].
  cbn; destruct (leb _ 0); reflexivity.
Qed.

Section InverterFacts.

Context `{RandomModule}.
Hypothesis Hbounded : bounded_random.

(** The outcomes of [check_failure] that return. *)
Lemma check_failure_cases (i : Inverter) (g : rng) (i' : Inverter) (g' : rng) :
  Inverter_.check_failure (i, g) = (Ok tt, (i', g')) ->
  (_is_failing i = true /\ i' = i /\ g' = g) \/
  (_is_failing i = false /\
   exists x, random_random g = (Ok x, g') /\ 0 <= x < 1 /\
             ~ x < _failure_rate i /\ i' = i) \/
  (_is_failing i = false /\
   exists x g1 h,
     random_random g = (Ok x, g1) /\ 0 <= x < 1 /\ x < _failure_rate i /\
     random_randint (_min_failure_duration i) (_max_failure_duration i) g1
       = (Ok h, g') /\
     i' = set_failure i true (IZR h)).
Proof.
  unfold Inverter_.check_failure, bind at 1, get; cbn [fst snd].
  destruct (_is_failing i) eqn:Ef.
  - intros [= <- <-]; left; repeat split.
  - unfold bind at 1, zoom at 1; cbn [fst snd].
    destruct (random_random g) as [[x | e] g1] eqn:Ex; [| discriminate].
    pose proof (random_range Hbounded g x g1 Ex) as Hx.
    destruct (ltb_spec x (_failure_rate i)) as [Hlt | Hge].
    + cbv [bind get put zoom]; cbn [fst snd].
      destruct (random_randint _ _ g1) as [[h | e] g2] eqn:Eh;
        [| discriminate].
      intros [= <- <-]; right; right; split; [reflexivity |].
      exists x, g1, h; repeat split; try assumption; lra.
    + intros [= <- <-]; right; left; split; [reflexivity |].
      exists x; repeat split; try assumption; lra.
Qed.

(** X21. [check_failure], when it returns: on an inverter that is already
    failing it changes nothing and draws nothing; on an operational one it
    either leaves the inverter as it is or starts a failure whose duration
    lies between the configured minimum and maximum (for a minimum not
    above the maximum); with a failure rate of 0 or less it never starts a
    failure, with a rate of 1 or more it always does. *)
Theorem check_failure_outcome
    (i : Inverter) (g : rng) (i' : Inverter) (g' : rng) :
  (_min_failure_duration i <= _max_failure_duration i)%Z ->
  Inverter_.check_failure (i, g) = (Ok tt, (i', g')) ->
  (_is_failing i = true -> i' = i /\ g' = g) /\
  (_is_failing i = false ->
   i' = i \/
   (_is_failing i' = true /\
    IZR (_min_failure_duration i) <= _failure_hours_remaining i'
      <= IZR (_max_failure_duration i))) /\
  (_is_failing i = false -> _failure_rate i <= 0 -> i' = i) /\
  (_is_failing i = false -> 1 <= _failure_rate i -> _is_failing i' = true) /\
  _max_output_kw i' = _max_output_kw i.
Proof.
  intros Hdur E.
  destruct (check_failure_cases i g i' g' E)
    as [(Hf & -> & ->) | [(Hf & x & Ex & Hx & Hno & ->)
                         | (Hf & x & g1 & h & Ex & Hx & Hyes & Eh & ->)]].
  - repeat split; congruence.
  - repeat split; try congruence; auto.
    intros _ Hrate; exfalso; lra.
  - pose proof (randint_range Hbounded _ _ g1 h g' Hdur Eh) as [Hlo Hhi].
    apply IZR_le in Hlo, Hhi.
    repeat split; try congruence.
    + intros _; right; cbn; repeat split; assumption.
    + intros _ Hrate; exfalso; lra.
Qed.

(** One call keeps the link between the flag and the remaining time. *)
Lemma icall_invariant (c : inverter_call) (i : Inverter) (g : rng)
    (i' : Inverter) (g' : rng) :
  (0 < _min_failure_duration i <= _max_failure_duration i)%Z ->
  (_is_failing i = true -> 0 < _failure_hours_remaining i) ->
  (_is_failing i = false -> _failure_hours_remaining i = 0) ->
  icall c (i, g) = (Ok tt, (i', g')) ->
  (_is_failing i' = true -> 0 < _failure_hours_remaining i') /\
  (_is_failing i' = false -> _failure_hours_remaining i' = 0) /\
  _max_output_kw i' = _max_output_kw i /\
  _failure_rate i' = _failure_rate i /\
  _min_failure_duration i' = _min_failure_duration i /\
  _max_failure_duration i' = _max_failure_duration i.
Proof.
  intros Hdur Ht Hf E.
  destruct c as [h |]; cbn [icall] in E.
  - unfold zoom in E; cbn [fst snd] in E; rewrite update_spec in E.
    injection E as <- <-.
    destruct (_is_failing i) eqn:Ei.
    + destruct (leb_spec (_failure_hours_remaining i - h) 0); cbn;
        repeat split; try congruence; try lra; intros; lra.
    + repeat split; auto; congruence.
  - destruct (check_failure_cases i g i' g' E)
      as [(Hfl & -> & ->) | [(Hfl & x & Ex & Hx & Hno & ->)
                           | (Hfl & x & g1 & h & Ex & Hx & Hyes & Eh & ->)]];
      try (repeat split; assumption).
    pose proof (randint_range Hbounded (_min_failure_duration i)
                  (_max_failure_duration i) g1 h g' ltac:(lia) Eh) as [Hlo Hhi].
    cbn; repeat split; try congruence.
    intros _; apply IZR_lt; lia.
Qed.

(** X22. The failure flag and the remaining time stay linked: on an
    inverter created with [0 < min_failure_duration <= max_failure_duration],
    after any finite sequence of [update] and [check_failure] calls that
    returns, the inverter is failing exactly when its remaining failure
    time is positive (and the time is 0 when it is operational), and its
    configuration is unchanged. *)
Theorem inverter_flag_matches_remaining
    (max_output_kw failure_rate : R)
    (min_failure_duration max_failure_duration : Z)
    (cs : list inverter_call) (g : rng) (i : Inverter) (g' : rng) :
  (0 < min_failure_duration <= max_failure_duration)%Z ->
  icalls cs (Inverter_.__init__ max_output_kw failure_rate
               min_failure_duration max_failure_duration, g)
    = (Ok tt, (i, g')) ->
  (_is_failing i = true <-> 0 < _failure_hours_remaining i) /\
  (Inverter_.is_operational i = true -> _failure_hours_remaining i = 0) /\
  _max_output_kw i = max_output_kw /\
  _failure_rate i = failure_rate.
Proof.
  intros Hdur.
  set (i0 := Inverter_.__init__ _ _ _ _).
  assert (Hinv : forall cs j gj i gi,
             (0 < _min_failure_duration j <= _max_failure_duration j)%Z ->
             (_is_failing j = true -> 0 < _failure_hours_remaining j) ->
             (_is_failing j = false -> _failure_hours_remaining j = 0) ->
             icalls cs (j, gj) = (Ok tt, (i, gi)) ->
             (_is_failing i = true -> 0 < _failure_hours_remaining i) /\
             (_is_failing i = false -> _failure_hours_remaining i = 0) /\
             _max_output_kw i = _max_output_kw j /\
             _failure_rate i = _failure_rate j).
  { clear cs g i g'.
    induction cs as [| c cs IH]; intros j gj i gi Hd Ht Hf E; cbn [icalls] in E.
    - injection E as <- <-; repeat split; assumption.
    - unfold bind in E.
      destruct (icall c (j, gj)) as [[[] | e] [j1 g1]] eqn:Ec;
        [| discriminate].
      destruct (icall_invariant c j gj j1 g1 Hd Ht Hf Ec)
        as (Ht1 & Hf1 & K1 & K2 & K3 & K4).
      destruct (IH j1 g1 i gi) as (Ht2 & Hf2 & L1 & L2);
        try assumption; [rewrite K3, K4; assumption |].
      repeat split; try assumption; congruence. }
  intros E.
  destruct (Hinv cs i0 g i g') as (Ht & Hf & K1 & K2);
    try assumption; try (cbn; discriminate || reflexivity).
  split; [| split; [| split; assumption]].
  - split; [assumption |].
    intros Hpos; destruct (_is_failing i) eqn:Ei; [reflexivity |].
    rewrite Hf in Hpos by reflexivity; lra.
  - unfold Inverter_.is_operational.
    destruct (_is_failing i); [discriminate | intros _; apply Hf; reflexivity].
Qed.

End InverterFacts.

(** With the counting generator every draw is 1/2 and [randint] returns
    its lower end: an operational inverter whose failure rate is above 1/2
    starts a failure of the minimum duration, after two draws. *)
Lemma counting_check_failure_starts (i : Inverter) (n : nat) :
  _is_failing i = false -> / 2 < _failure_rate i ->
  @Inverter_.check_failure counting_random (i, n)
    = (Ok tt,
       (set_failure i true (IZR (_min_failure_duration i)),
        Datatypes.S (Datatypes.S n))).
Proof.
  intros Hf Hrate.
  unfold Inverter_.check_failure, bind at 1, get; cbn [fst snd].
  rewrite Hf; unfold bind, zoom; cbn.
  destruct (ltb_spec (/ 2) (_failure_rate i)); [reflexivity | lra].
Qed.

Lemma check_failure_outcome_witness :
  @Inverter_.check_failure counting_random
    (Inverter_.__init__ 4 1 4 72, 0%nat)
  = (Ok tt, (mkInverter 4 1 4 72 true 4, 2%nat)) /\
  (_is_failing (Inverter_.__init__ 4 1 4 72) = true ->
   mkInverter 4 1 4 72 true 4 = Inverter_.__init__ 4 1 4 72 /\
   2%nat = 0%nat) /\
  (_is_failing (Inverter_.__init__ 4 1 4 72) = false ->
   mkInverter 4 1 4 72 true 4 = Inverter_.__init__ 4 1 4 72 \/
   (_is_failing (mkInverter 4 1 4 72 true 4) = true /\
    IZR 4 <= _failure_hours_remaining (mkInverter 4 1 4 72 true 4)
      <= IZR 72)) /\
  (_is_failing (Inverter_.__init__ 4 1 4 72) = false -> 1 <= 0 ->
   mkInverter 4 1 4 72 true 4 = Inverter_.__init__ 4 1 4 72) /\
  (_is_failing (Inverter_.__init__ 4 1 4 72) = false -> 1 <= 1 ->
   _is_failing (mkInverter 4 1 4 72 true 4) = true) /\
  4 = 4.
Proof.
  assert (E : @Inverter_.check_failure counting_random
                (Inverter_.__init__ 4 1 4 72, 0%nat)
              = (Ok tt, (mkInverter 4 1 4 72 true 4, 2%nat))).
  { rewrite counting_check_failure_starts by (cbn; reflexivity || lra).
    reflexivity. }
  split; [exact E |].
  apply (@check_failure_outcome counting_random counting_random_bounded
           (Inverter_.__init__ 4 1 4 72) 0%nat
           (mkInverter 4 1 4 72 true 4) 2%nat).
  - cbn; lia.
  - exact E.
Defined.

Lemma inverter_flag_matches_remaining_witness :
  @icalls counting_random [CheckFailure; Update 1; CheckFailure]
    (Inverter_.__init__ 4 1 4 72, 0%nat)
  = (Ok tt, (mkInverter 4 1 4 72 true (4 - 1), 2%nat)) /\
  (_is_failing (mkInverter 4 1 4 72 true (4 - 1)) = true
   <-> 0 < _failure_hours_remaining (mkInverter 4 1 4 72 true (4 - 1))) /\
  (Inverter_.is_operational (mkInverter 4 1 4 72 true (4 - 1)) = true ->
   _failure_hours_remaining (mkInverter 4 1 4 72 true (4 - 1)) = 0) /\
  _max_output_kw (mkInverter 4 1 4 72 true (4 - 1)) = 4 /\
  _failure_rate (mkInverter 4 1 4 72 true (4 - 1)) = 1.
Proof.
  assert (E : @icalls counting_random [CheckFailure; Update 1; CheckFailure]
                (Inverter_.__init__ 4 1 4 72, 0%nat)
              = (Ok tt, (mkInverter 4 1 4 72 true (4 - 1), 2%nat))).
  { cbn [icalls icall]; unfold bind.
    rewrite counting_check_failure_starts by (cbn; reflexivity || lra).
    unfold zoom; cbn [fst snd]; rewrite update_spec.
    cbn [_is_failing set_failure Inverter_.__init__ _failure_hours_remaining
         _max_output_kw _failure_rate _min_failure_duration
         _max_failure_duration].
    destruct (leb_spec (4 - 1) 0); [lra |].
    reflexivity. }
  split; [exact E |].
  apply (@inverter_flag_matches_remaining counting_random
           counting_random_bounded 4 1 4 72
           [CheckFailure; Update 1; CheckFailure] 0%nat
           (mkInverter 4 1 4 72 true (4 - 1)) 2%nat).
  - lia.
  - exact E.
Defined.

(* ===================================================================== *)
(** * Load, CloudCoverage and SolarPanel *)
(* ===================================================================== *)

Lemma bind_ok_inv (S A B : Type) (m : M S A) (k : A -> M S B)
    (s s' : S) (b : B) :
  bind m k s = (Ok b, s') ->
  exists a s1, m s = (Ok a, s1) /\ k a s1 = (Ok b, s').
Proof.
  unfold bind; destruct (m s) as [[a | e] s1]; [| discriminate].
  intros E; exists a, s1; split; [reflexivity | assumption].
Qed.

Section LoadFacts.

Context `{RandomModule}.
Hypothesis Hbounded : bounded_random.

(** The most the scheduled events of one hour can add. *)
Lemma scheduled_bounds (events : list (Z * R * R * R)) (hour_of_day : Z) :
  Forall (fun ev => 0 <= snd (fst ev) <= snd ev) events ->
  forall (d : R) (g : rng) (x : R) (g' : rng),
    Load_.scheduled events hour_of_day d g = (Ok x, g') ->
    d <= x <=
      d + fold_right
            (fun ev acc =>
               (if Z.eqb hour_of_day (fst (fst (fst ev))) then snd ev else 0)
               + acc)
            0 events.
Proof.
  induction events as [| [[[eh p] lo] hi] rest IH]; intros Hev d g x g' E;
    cbn in E |- *.
  - injection E as <- _; lra.
  - inversion Hev as [| ev evs Hlohi Hrest]; subst; cbn in Hlohi.
    apply bind_ok_inv in E; destruct E as (d1 & g1 & E1 & E2).
    specialize (IH Hrest d1 g1 x g' E2).
    assert (Hd1 : d <= d1 <= d + (if Z.eqb hour_of_day eh then hi else 0)).
    { destruct (Z.eqb hour_of_day eh).
      - apply bind_ok_inv in E1; destruct E1 as (r & g2 & Er & E1).
        destruct (ltb r p).
        + apply bind_ok_inv in E1; destruct E1 as (u & g3 & Eu & E1).
          injection E1 as <- _.
          pose proof (uniform_range Hbounded lo hi g2 u g3 Eu) as Hu.
          rewrite Rmin_left, Rmax_right in Hu by lra; lra.
        + injection E1 as <- _; lra.
      - injection E1 as <- _; lra. }
    lra.
Qed.

(** X23. The demand returned by [Load.generate], for a load created by the
    constructor with [peak_hours_max_kw >= 1] and a generator that keeps
    the contract of the [random] module: inside the peak window the demand
    is between [base + 1] and [base + peak_hours_max_kw + 0.8]; outside it
    the demand is between [base] and [base + 1.5 + 0.8], and at most
    [base + 0.8] at an hour with no scheduled event (any hour other than
    6, 7, 8, 12 and 22). *)
Theorem load_demand_bounds
    (base_load_kw peak_hours_max_kw : R) (peak_hours_start peak_hours_end : Z)
    (hour : R) (g : rng) (x : R) (g' : rng) :
  1 <= peak_hours_max_kw ->
  Load_.generate
    (Load_.__init__ base_load_kw peak_hours_max_kw peak_hours_start
       peak_hours_end) hour g = (Ok x, g') ->
  let hour_of_day := int hour in
  let peak := (peak_hours_start <= hour_of_day < peak_hours_end)%Z in
  (peak ->
   base_load_kw + 1 <= x <= base_load_kw + peak_hours_max_kw + 0.8) /\
  (~ peak -> base_load_kw <= x <= base_load_kw + 1.5 + 0.8) /\
  (~ peak -> ~ In hour_of_day [6; 7; 8; 12; 22]%Z ->
   base_load_kw <= x <= base_load_kw + 0.8).
Proof.
  intros Hpm E; cbv zeta.
  unfold Load_.generate in E; cbv zeta in E.
  cbn [Load_.__init__ _base_load_kw _peak_hours_max_kw _peak_hours_start
       _peak_hours_end _scheduled_events] in E.
  apply bind_ok_inv in E; destruct E as (d & g1 & E1 & E2).
  apply bind_ok_inv in E2; destruct E2 as (r & g2 & Er & E2).
  assert (Hnoise : d <= x <= d + 0.8).
  { destruct (ltb r 0.3).
    - apply bind_ok_inv in E2; destruct E2 as (u & g3 & Eu & E2).
      injection E2 as <- _.
      pose proof (uniform_range Hbounded 0.0 0.8 g2 u g3 Eu) as Hu.
      rewrite Rmin_left, Rmax_right in Hu by lra; lra.
    - injection E2 as <- _; lra. }
  destruct (Z.leb_spec peak_hours_start (int hour));
    destruct (Z.ltb_spec (int hour) peak_hours_end); cbn [andb] in E1.
  1: { apply bind_ok_inv in E1; destruct E1 as (u & g3 & Eu & E1).
       injection E1 as <- _.
       pose proof (uniform_range Hbounded 1.0 peak_hours_max_kw g u g3 Eu)
         as Hu.
       rewrite Rmin_left, Rmax_right in Hu by lra.
       repeat split; intros; try lra; exfalso; lia. }
  all: apply scheduled_bounds in E1 as Hs;
    [| repeat constructor; cbn; lra];
    cbn [fold_right fst snd] in Hs;
    (split; [intros; exfalso; lia |]);
    (split; [intros _ | intros _ Hnot]).
  all: destruct (Z.eqb_spec (int hour) 6), (Z.eqb_spec (int hour) 7),
         (Z.eqb_spec (int hour) 8), (Z.eqb_spec (int hour) 12),
         (Z.eqb_spec (int hour) 22);
    try lra; try (exfalso; lia);
    exfalso; apply Hnot; cbn [In]; auto 6.
Qed.

End LoadFacts.

Lemma load_demand_bounds_witness :
  exists x g',
    @Load_.generate counting_random (Load_.__init__ 0.5 3 17 21) 18 0%nat
    = (Ok x, g') /\
    (((17 <= int 18 < 21)%Z -> 0.5 + 1 <= x <= 0.5 + 3 + 0.8) /\
     (~ (17 <= int 18 < 21)%Z -> 0.5 <= x <= 0.5 + 1.5 + 0.8) /\
     (~ (17 <= int 18 < 21)%Z -> ~ In (int 18) [6; 7; 8; 12; 22]%Z ->
      0.5 <= x <= 0.5 + 0.8)).
Proof.
  destruct (@generate_total counting_random counting_random_total
              (Load_.__init__ 0.5 3 17 21) 18 0%nat) as (x & g' & E).
  exists x, g'; split; [exact E |].
  apply (@load_demand_bounds counting_random counting_random_bounded
           0.5 3 17%Z 21%Z 18 0%nat x g'); [lra | exact E].
Defined.

Section CloudFacts.

Context `{RandomModule}.
Hypothesis Htotal : total_random.
Hypothesis Hbounded : bounded_random.

(** X24. A [CloudCoverage] accepted by the constructor always yields a
    daily coverage, and it lies between 0 and 0.9, whenever the generator
    returns and keeps the contract of the [random] module: the season
    lookup and the indexing of [COVERAGE_RANGES] cannot fail. *)
Theorem daily_coverage_range (season : string) (cc : CloudCoverage)
    (g : rng) :
  CloudCoverage_.__init__ season = Ok cc ->
  exists x g',
    CloudCoverage_.get_daily_coverage cc g = (Ok x, g') /\ 0 <= x <= 0.9.
Proof.
  unfold CloudCoverage_.__init__.
  destruct (CloudCoverage_.PROBABILITIES season) as [w |] eqn:Ew;
    [| discriminate].
  intros E; injection E as <-.
  destruct (get_daily_coverage_total Htotal {| _season := season |} g)
    as (x & g' & Ex); [cbn; congruence |].
  exists x, g'; split; [exact Ex |].
  unfold CloudCoverage_.get_daily_coverage in Ex; cbn [_season] in Ex.
  rewrite Ew in Ex.
  apply bind_ok_inv in Ex; destruct Ex as (level & g1 & El & Ex).
  apply (choices_member Hbounded) in El; [| discriminate].
  apply bind_ok_inv in Ex; destruct Ex as ([lo hi] & g2 & Ei & Ex).
  apply bind_ok_inv in Ex; destruct Ex as (u & g3 & Eu & Ex).
  injection Ex as <- _.
  pose proof (uniform_range Hbounded lo hi g2 u g3 Eu) as Hu.
  simpl in El.
  destruct El as [<- | [<- | [<- | [<- | []]]]];
    cbn in Ei; injection Ei as <- <- _;
    rewrite Rmin_left, Rmax_right in Hu by lra; lra.
Qed.

End CloudFacts.

Lemma daily_coverage_range_witness :
  exists x g',
    @CloudCoverage_.get_daily_coverage counting_random
      {| _season := "summer" |} 0%nat = (Ok x, g') /\ 0 <= x <= 0.9.
Proof.
  apply (@daily_coverage_range counting_random counting_random_total
           counting_random_bounded "summer" {| _season := "summer" |} 0%nat).
  reflexivity.
Defined.

(** X25. [SolarPanel.generate] never returns a negative power nor more than
    the peak capacity reduced by the cloud coverage, for a non-negative
    peak capacity and a coverage in [0, 1]; before 6 h and from 18 h on
    it returns exactly 0. *)
Theorem solar_generation_bounds (peak_capacity_kw hour_of_day
    cloud_coverage : R) :
  0 <= peak_capacity_kw ->
  0 <= cloud_coverage <= 1 ->
  let power :=
    SolarPanelSrc_.generate (SolarPanelSrc_.__init__ peak_capacity_kw)
      hour_of_day cloud_coverage in
  0 <= power <= peak_capacity_kw * (1 - cloud_coverage) /\
  (hour_of_day < 6 \/ 18 <= hour_of_day -> power = 0).
Proof.
  intros Hpeak Hcloud; cbv zeta.
  unfold SolarPanelSrc_.generate, SolarPanelSrc_.__init__;
    cbn [_peak_capacity_kw]; cbv zeta.
  destruct (ltb_spec hour_of_day 6) as [Hlt | Hlt]; cbn [orb].
  { split; [nra | reflexivity]. }
  destruct (geb_spec hour_of_day 18) as [Hge | Hge].
  { split; [nra | reflexivity]. }
  split; [| intros [Hc | Hc]; exfalso; lra].
  pose proof PI_RGT_0 as Hpi.
  assert (Hangle : 0 <= (hour_of_day - 6) * (PI / 12) <= PI) by nra.
  pose proof (sin_ge_0 _ (proj1 Hangle) (proj2 Hangle)) as Hsin0.
  pose proof (SIN_bound ((hour_of_day - 6) * (PI / 12))) as [_ Hsin1].
  assert (0 <= peak_capacity_kw * sin ((hour_of_day - 6) * (PI / 12))
          <= peak_capacity_kw) by nra.
  nra.
Qed.

Lemma solar_generation_bounds_witness :
  0 <= SolarPanelSrc_.generate (SolarPanelSrc_.__init__ 5) 9 0.2
    <= 5 * (1 - 0.2) /\
  (9 < 6 \/ 18 <= 9 ->
   SolarPanelSrc_.generate (SolarPanelSrc_.__init__ 5) 9 0.2 = 0).
Proof.
  apply (solar_generation_bounds 5 9 0.2); lra.
Defined.

(* ===================================================================== *)
(** * Simulation: what a run records *)
(* ===================================================================== *)

Lemma get_soc_keeps (b : Battery) (r : result R) (b' : Battery) :
  Battery_.get_soc b = (r, b') -> b' = b.
Proof.
  unfold Battery_.get_soc, bind, get, truediv, raise, ret.
  destruct (eqb _ 0); intros [= _ <-]; reflexivity.
Qed.

Ltac sim_cbn_in H :=
  cbn [config actual_seed sim_battery solar_panel cloud_coverage inverter
       load sim_grid ems hourly_data daily_summaries events_log duration_days
       time_step_minutes current_cloud_coverage random_state
       with_mutable set_store set_battery set_inverter set_random_state
       set_inverter_random set_hourly_data set_daily_summaries set_events_log
       set_current_cloud_coverage battery grid fst snd] in H.

Section RunRecords.

Context `{RandomModule}.

Lemma zoom_inv (S T A : Type) (proj : S -> T) (upd : T -> S -> S)
    (m : M T A) (s s' : S) (a : A) :
  zoom proj upd m s = (Ok a, s') ->
  exists t, m (proj s) = (Ok a, t) /\ s' = upd t s.
Proof.
  unfold zoom; destruct (m (proj s)) as [r t]; intros [= -> <-].
  exists t; split; reflexivity.
Qed.

Lemma check_failure_keeps_limit (i : Inverter) (g : rng) (r : result unit)
    (i' : Inverter) (g' : rng) :
  Inverter_.check_failure (i, g) = (r, (i', g')) ->
  _max_output_kw i' = _max_output_kw i.
Proof.
  unfold Inverter_.check_failure, bind at 1, get; cbn [fst snd].
  destruct (_is_failing i); [intros [= _ <- _]; reflexivity |].
  unfold bind at 1, zoom at 1; cbn [fst snd].
  destruct (random_random g) as [[x | e] g1];
    [| intros [= _ <- _]; reflexivity].
  destruct (ltb x (_failure_rate i)); [| intros [= _ <- _]; reflexivity].
  cbv [bind get put zoom]; cbn [fst snd].
  destruct (random_randint _ _ g1) as [[h | e] g2];
    intros [= _ <- _]; reflexivity.
Qed.

(** One iteration that returns, spelled out: the demand drawn, the
    dispatch call, the record appended and what the iteration leaves
    alone. *)
Lemma loop_body_inv (dt : R) (spd : Z) (l : Locals) (s : Simulation)
    (l' : Locals) (s' : Simulation) :
  loop_body dt spd l s = (Ok l', s') ->
  let hour_of_day :=
    IZR ((current_step l * time_step_minutes s) mod (24 * 60)) / 60.0 in
  let solar_available :=
    SolarPanel_.generate (solar_panel s) hour_of_day
      (current_cloud_coverage s) in
  let solar_generated :=
    if Inverter_.is_operational (inverter s)
    then Inverter_.apply_limit (inverter s) solar_available
    else 0 in
  exists ld g1 f st soc,
    Load_.generate (load s) hour_of_day (random_state s) = (Ok ld, g1) /\
    EMS.distribute_energy (ems s) solar_generated ld dt
      (mkStore (sim_battery s) (sim_grid s)) = (Ok f, st) /\
    Battery_.get_soc (battery st) = (Ok soc, battery st) /\
    hourly_data s' =
      hourly_data s ++
      [ {| h_timestamp := (current_step l * time_step_minutes s)%Z;
           h_step := current_step l;
           h_hour := hour_of_day;
           h_solar_generated_kw := solar_generated;
           h_solar_available_kw := solar_available;
           h_load_demand_kw := ld;
           h_cloud_coverage := current_cloud_coverage s;
           h_battery_soc := soc;
           h_solar_to_load := solar_to_load f;
           h_solar_to_battery := solar_to_battery f;
           h_solar_to_grid := solar_to_grid f;
           h_battery_to_load := battery_to_load f;
           h_grid_to_load := grid_to_load f;
           h_unmet_load := unmet_load f;
           h_curtailed := curtailed f;
           h_inverter_operational :=
             Inverter_.is_operational (inverter s) |} ] /\
    sim_battery s' = battery st /\ sim_grid s' = grid st /\
    time_step_minutes s' = time_step_minutes s /\
    duration_days s' = duration_days s /\
    ems s' = ems s /\ load s' = load s /\
    solar_panel s' = solar_panel s /\
    cloud_coverage s' = cloud_coverage s /\
    _max_output_kw (inverter s') = _max_output_kw (inverter s) /\
    (current_cloud_coverage s' = current_cloud_coverage s \/
     exists g g',
       CloudCoverage_.get_daily_coverage (cloud_coverage s) g
       = (Ok (current_cloud_coverage s'), g')).
Proof.
  intros E; cbv zeta; unfold loop_body in E.
  apply bind_ok_inv in E; destruct E as (self & s0 & Eg & E).
  unfold get in Eg; injection Eg as <- <-; cbv zeta in E.
  apply bind_ok_inv in E; destruct E as (ld & s1 & E1 & E).
  apply zoom_inv in E1; destruct E1 as (g1 & Eld & ->).
  apply bind_ok_inv in E; destruct E as (f & s2 & E2 & E).
  apply zoom_inv in E2; destruct E2 as (st & Ef & ->).
  sim_cbn_in Ef.
  apply bind_ok_inv in E; destruct E as (soc & s3 & E3 & E).
  apply zoom_inv in E3; destruct E3 as (b3 & Esoc & ->).
  sim_cbn_in Esoc.
  pose proof (get_soc_keeps _ _ _ Esoc) as ->.
  apply bind_ok_inv in E; destruct E as (self2 & s4 & Eg & E).
  unfold get in Eg; injection Eg as <- <-.
  apply bind_ok_inv in E; destruct E as (u5 & s5 & Ep & E).
  unfold put in Ep; injection Ep as _ <-.
  apply bind_ok_inv in E; destruct E as (u6 & s6 & Et & E).
  unfold env_timeout in Et.
  destruct (Z.ltb _ 0); [discriminate |].
  injection Et as _ <-.
  apply bind_ok_inv in E; destruct E as (u7 & s7 & Eu & E).
  apply zoom_inv in Eu; destruct Eu as (i7 & Eupd & ->).
  rewrite update_spec in Eupd; injection Eupd as _ Ei7.
  assert (Hi7 : _max_output_kw i7 = _max_output_kw (inverter s)).
  { subst i7; sim_cbn.
    destruct (_is_failing (inverter s)); [| reflexivity].
    destruct (leb _ 0); reflexivity. }
  clear Ei7.
  apply bind_ok_inv in E; destruct E as (r & s8 & Em & E).
  unfold mod_ in Em; destruct (Z.eqb spd 0); [discriminate |].
  injection Em as <- <-.
  exists ld, g1, f, st, soc.
  split; [exact Eld |]; split; [exact Ef |]; split; [exact Esoc |].
  destruct (_ && _)%bool.
  - apply bind_ok_inv in E; destruct E as (u9 & s9 & El & E).
    unfold _log_daily_summary in El.
    apply bind_ok_inv in El; destruct El as (soc9 & t9 & El1 & El).
    apply zoom_inv in El1; destruct El1 as (b9 & Esoc9 & ->).
    pose proof (get_soc_keeps _ _ _ Esoc9) as ->.
    apply bind_ok_inv in El; destruct El as (self9 & t10 & Eg & El).
    unfold get in Eg; injection Eg as <- <-.
    unfold put in El; injection El as _ <-.
    apply bind_ok_inv in E; destruct E as (u10 & s10 & Ec & E).
    apply zoom_inv in Ec; destruct Ec as ([i10 g10] & Ecf & ->).
    apply check_failure_keeps_limit in Ecf; sim_cbn_in Ecf.
    apply bind_ok_inv in E; destruct E as (self11 & s11 & Eg & E).
    unfold get in Eg; injection Eg as <- <-.
    apply bind_ok_inv in E; destruct E as (u12 & s12 & Ev & E).
    destruct (_is_failing _) in Ev; unfold put, ret in Ev;
      injection Ev as _ <-.
    all: apply bind_ok_inv in E; destruct E as (cov & s13 & Ecov & E);
      apply zoom_inv in Ecov; destruct Ecov as (g13 & Ecov & ->);
      sim_cbn_in Ecov;
      apply bind_ok_inv in E; destruct E as (self14 & s14 & Eg & E);
      unfold get in Eg; injection Eg as <- <-;
      apply bind_ok_inv in E; destruct E as (u15 & s15 & Ep & E);
      unfold put in Ep; injection Ep as _ <-;
      unfold ret in E; injection E as _ <-;
      sim_cbn;
      repeat (split; [reflexivity || congruence |]);
      right; do 2 eexists; exact Ecov.
  - unfold ret in E; injection E as _ <-.
    sim_cbn.
    repeat (split; [reflexivity || congruence |]).
    left; reflexivity.
Qed.

(** The loop, for an invariant [I] of the simulation and a property [P]
    of the record each iteration appends. *)
Lemma while_records (I : Simulation -> Prop) (P : StepRecord -> Prop)
    (dt : R) (spd total : Z) :
  (forall l s l' s',
      I s -> loop_body dt spd l s = (Ok l', s') ->
      I s' /\
      exists rec, hourly_data s' = hourly_data s ++ [rec] /\
                  h_step rec = current_step l /\ P rec) ->
  forall (fuel : nat) (l : Locals) (s : Simulation) (l' : Locals)
         (s' : Simulation),
    I s ->
    while fuel (fun l => Z.ltb (current_step l) total) (loop_body dt spd) l s
      = (Ok l', s') ->
    I s' /\
    exists recs,
      hourly_data s' = hourly_data s ++ recs /\
      (List.length recs <= fuel)%nat /\
      current_step l' = (current_step l + Z.of_nat (List.length recs))%Z /\
      map h_step recs
        = map (fun i => (current_step l + Z.of_nat i)%Z)
            (seq 0 (List.length recs)) /\
      Forall P recs.
Proof.
  intros Hbody; induction fuel as [| n IH]; intros l s l' s' Hs E;
    cbn [while] in E.
  - unfold ret in E; injection E as <- <-.
    split; [assumption |]; exists []; rewrite app_nil_r; cbn.
    repeat split; [lia | lia | constructor].
  - destruct (Z.ltb (current_step l) total).
    + apply bind_ok_inv in E; destruct E as (l1 & s1 & E1 & E).
      pose proof (loop_body_advances dt spd l s l1 s1 E1) as Hstep.
      cbv beta in Hstep.
      destruct (Hbody l s l1 s1 Hs E1) as (Hs1 & rec & Hh1 & Hrec & HP).
      destruct (IH l1 s1 l' s' Hs1 E)
        as (Hs' & recs & Hh & Hlen & Hcur & Hsteps & HPs).
      split; [assumption |]; exists (rec :: recs).
      split; [rewrite Hh, Hh1, <- app_assoc; reflexivity |].
      split; [cbn; lia |].
      split; [cbn [List.length]; lia |].
      split; [| constructor; assumption].
      cbn [List.length seq map]; rewrite Hrec, Hsteps, <- seq_shift, map_map.
      f_equal; [lia |].
      apply map_ext; intros i; lia.
    + unfold ret in E; injection E as <- <-.
      split; [assumption |]; exists []; rewrite app_nil_r; cbn.
      repeat split; [lia | lia | constructor].
Qed.

(** What [__init__] builds, when it returns. *)
Lemma init_inv (cfg : Config) (time_us : Z) (sim : Simulation) :
  __init__ cfg time_us = Ok sim ->
  let count (c : option Z) := match c with Some n => n | None => 1%Z end in
  hourly_data sim = [] /\
  time_step_minutes sim = simulation_time_step_minutes cfg /\
  duration_days sim = simulation_duration_days cfg /\
  Battery_.__init__
    (IZR (count (battery_count cfg)) * battery_unit_capacity_kwh cfg)
    (battery_efficiency cfg) (battery_min_soc cfg) = Ok (sim_battery sim) /\
  sim_grid sim
    = Grid_.__init__ (grid_import_cost_per_kwh cfg)
        (grid_export_revenue_per_kwh cfg) (grid_export_limit_kw cfg) /\
  ems sim = {| _strategy := energy_management_strategy cfg |} /\
  load sim
    = Load_.__init__ (load_base_load_kw cfg) (load_peak_hours_max_kw cfg)
        (load_peak_hours_start cfg) (load_peak_hours_end cfg) /\
  solar_panel sim
    = {| _peak_power_kw :=
           IZR (count (solar_count cfg)) * solar_unit_peak_power_kw cfg |} /\
  inverter sim
    = Inverter_.__init__
        (IZR (count (inverter_count cfg)) * inverter_unit_max_output_kw cfg)
        (inverter_failure_rate cfg)
        (inverter_min_failure_duration_hours cfg)
        (inverter_max_failure_duration_hours cfg) /\
  CloudCoverage_.__init__ (simulation_season cfg) = Ok (cloud_coverage sim) /\
  exists g g',
    CloudCoverage_.get_daily_coverage (cloud_coverage sim) g
    = (Ok (current_cloud_coverage sim), g').
Proof.
  unfold __init__; cbv zeta.
  destruct (Battery_.__init__ _ _ _) as [b | e]; [| discriminate].
  destruct (CloudCoverage_.__init__ _) as [cc | e]; [| discriminate].
  destruct (CloudCoverage_.get_daily_coverage cc _) as [[cov | e] rs] eqn:Ec;
    [| discriminate].
  intros [= <-]; sim_cbn.
  repeat (split; [reflexivity |]).
  do 2 eexists; exact Ec.
Qed.

Lemma compile_results_frame (s : Simulation) (r : result Results)
    (s' : Simulation) :
  _compile_results s = (r, s') -> hourly_data s' = hourly_data s.
Proof.
  unfold _compile_results, bind at 1, get; cbv zeta.
  unfold bind, on_sim_battery, zoom.
  destruct (Battery_.get_soc _) as [[soc | e] b];
    intros [= _ <-]; reflexivity.
Qed.

(** A complete run, for an invariant established by [__init__] and kept
    by every iteration: the records are numbered from 0, there is one per
    step, and each satisfies [P]. *)
Lemma simulate_records (I : Simulation -> Prop) (P : StepRecord -> Prop)
    (cfg : Config) (time_us : Z) (sim : Simulation) :
  (forall sim0, __init__ cfg time_us = Ok sim0 -> I sim0) ->
  (forall spd l s l' s',
      I s ->
      loop_body (IZR (simulation_time_step_minutes cfg) / 60.0) spd l s
        = (Ok l', s') ->
      I s' /\
      exists rec, hourly_data s' = hourly_data s ++ [rec] /\
                  h_step rec = current_step l /\ P rec) ->
  simulate cfg time_us = (Ok tt, Some sim) ->
  map h_step (hourly_data sim)
    = map Z.of_nat
        (seq 0 (Z.to_nat (simulation_duration_days cfg * 24 * 60
                          / simulation_time_step_minutes cfg))) /\
  Forall P (hourly_data sim).
Proof.
  intros Hinit Hbody; unfold simulate.
  destruct (__init__ cfg time_us) as [sim0 | e] eqn:E0; [| discriminate].
  specialize (Hinit sim0 eq_refl).
  destruct (init_inv cfg time_us sim0 E0) as (Hh0 & Ht0 & Hd0 & _).
  cbv zeta in Hh0, Ht0, Hd0.
  destruct (run sim0) as [[res | e] sim1] eqn:Erun;
    [| intros Ex; discriminate Ex].
  intros [= ->].
  unfold run in Erun.
  apply bind_ok_inv in Erun; destruct Erun as (self & s1 & Eg & Erun).
  unfold get in Eg; injection Eg as <- <-.
  apply bind_ok_inv in Erun; destruct Erun as (total & s1 & Ef & Erun).
  unfold floordiv in Ef.
  destruct (Z.eqb (time_step_minutes sim0) 0) eqn:Hnz; [discriminate |].
  injection Ef as <- <-.
  apply bind_ok_inv in Erun; destruct Erun as ([] & s2 & Er & Ecr).
  apply compile_results_frame in Ecr.
  unfold _simulation_loop in Er.
  apply bind_ok_inv in Er; destruct Er as (self & s1 & Eg & Er).
  unfold get in Eg; injection Eg as <- <-.
  unfold floordiv in Er; rewrite Hnz in Er.
  apply bind_ok_inv in Er; destruct Er as (total & s1 & Ef & Er).
  injection Ef as <- <-; cbv zeta in Er.
  apply bind_ok_inv in Er; destruct Er as (spd & s1 & Ef & Er).
  injection Ef as <- <-.
  apply bind_ok_inv in Er; destruct Er as (l1 & s1 & Ew & Er).
  rewrite Ht0 in Ew.
  match type of Ew with
  | while (Z.to_nat ?tot) _ (loop_body ?dt ?spd) ?l0 ?s0 = _ =>
      assert (Hfuel : (tot - current_step l0 <= Z.of_nat (Z.to_nat tot))%Z)
        by (cbn [current_step]; lia);
      pose proof (while_exits_by_guard tot dt spd (Z.to_nat tot) l0 Hfuel
                    s0 _ _ Ew) as Hguard
  end.
  cbv beta in Hguard; apply Z.ltb_ge in Hguard.
  destruct (while_records I P _ _ _ (Hbody _) _ _ _ _ _ Hinit Ew)
    as (_ & recs & Hh & Hlen & Hcur & Hsteps & HP).
  cbn [current_step] in Hcur, Hsteps.
  rewrite Hh0 in Hh; cbn [app] in Hh.
  assert (Hsim : hourly_data sim = recs).
  { rewrite Ecr.
    destruct (_ || _)%bool.
    - destruct (log_daily_summary_frame _ _ _ _ _ _ _ _ _ _ Er)
        as (_ & _ & ->); assumption.
    - unfold ret in Er; injection Er as <-; assumption. }
  rewrite Hsim, Hd0, Ht0 in *.
  split; [| assumption].
  replace (Z.to_nat _) with (List.length recs) by lia.
  rewrite Hsteps; apply map_ext; intros i; lia.
Qed.

(** X27. The records of a complete run are in step order: [hourly_data]
    holds one record per step, [duration_days x 24 x 60 // time_step_minutes]
    of them, the k-th one carrying step number k, a timestamp
    [k x time_step_minutes] minutes after the start date and the hour of
    day of that timestamp. *)
Theorem records_in_step_order (cfg : Config) (time_us : Z)
    (sim : Simulation) :
  simulate cfg time_us = (Ok tt, Some sim) ->
  map h_step (hourly_data sim)
    = map Z.of_nat
        (seq 0 (Z.to_nat (simulation_duration_days cfg * 24 * 60
                          / simulation_time_step_minutes cfg))) /\
  Forall (fun r =>
            h_timestamp r
              = (h_step r * simulation_time_step_minutes cfg)%Z /\
            h_hour r = IZR (h_timestamp r mod (24 * 60)) / 60.0)
    (hourly_data sim).
Proof.
  apply (simulate_records
           (fun s => time_step_minutes s = simulation_time_step_minutes cfg)).
  - intros sim0 E0; apply init_inv in E0; tauto.
  - intros spd l s l1 s1 Hs E.
    apply loop_body_inv in E; cbv zeta in E.
    destruct E as (ld & g1 & f & st & soc & _ & _ & _ & Hh & _ & _ & Ht & _).
    split; [congruence |].
    eexists; split; [exact Hh |].
    cbn [h_step h_timestamp h_hour]; rewrite Hs.
    repeat split; reflexivity.
Qed.

(** X28. The inverter limit shows in every record of a complete run: the
    logged [solar_generated_kw] is 0 when the record says the inverter was
    not operational, and otherwise the smaller of the logged
    [solar_available_kw] and the configured total inverter output; so it
    never exceeds that output when the output is not negative. *)
Theorem inverter_limit_in_records (cfg : Config) (time_us : Z)
    (sim : Simulation) :
  simulate cfg time_us = (Ok tt, Some sim) ->
  let max_output_kw :=
    IZR (match inverter_count cfg with Some n => n | None => 1%Z end)
    * inverter_unit_max_output_kw cfg in
  Forall (fun r =>
            h_solar_generated_kw r
              = (if h_inverter_operational r
                 then Rmin (h_solar_available_kw r) max_output_kw else 0) /\
            (0 <= max_output_kw -> h_solar_generated_kw r <= max_output_kw))
    (hourly_data sim).
Proof.
  intros E; cbv zeta.
  eapply proj2, (simulate_records
           (fun s =>
              _max_output_kw (inverter s)
              = IZR (match inverter_count cfg with
                     | Some n => n | None => 1%Z end)
                * inverter_unit_max_output_kw cfg));
    [| | exact E].
  - intros sim0 E0; apply init_inv in E0; cbv zeta in E0.
    destruct E0 as (_ & _ & _ & _ & _ & _ & _ & _ & -> & _); reflexivity.
  - intros spd l s l1 s1 Hs El.
    apply loop_body_inv in El; cbv zeta in El.
    destruct El as (ld & g1 & f & st & soc & _ & _ & _ & Hh & _ & _ & _ & _
                    & _ & _ & _ & _ & Hmo & _).
    split; [congruence |].
    eexists; split; [exact Hh |].
    cbn [h_step h_solar_generated_kw h_solar_available_kw
         h_inverter_operational].
    split; [reflexivity |].
    unfold Inverter_.is_operational, Inverter_.apply_limit.
    rewrite Hs; destruct (_is_failing (inverter s)).
    + split; [reflexivity | intros; assumption].
    + rewrite min_Rmin; split; [reflexivity | intros _; apply Rmin_r].
Qed.

End RunRecords.

Lemma records_in_step_order_witness :
  exists sim : @Simulation counting_random,
    simulate example_config 0 = (Ok tt, Some sim) /\
    map h_step (hourly_data sim)
      = map Z.of_nat
          (seq 0 (Z.to_nat (simulation_duration_days example_config * 24 * 60
                            / simulation_time_step_minutes example_config))) /\
    Forall (fun r =>
              h_timestamp r
                = (h_step r * simulation_time_step_minutes example_config)%Z /\
              h_hour r = IZR (h_timestamp r mod (24 * 60)) / 60.0)
      (hourly_data sim).
Proof.
  destruct (@simulate_total counting_random counting_random_total
              example_config 0) as (sim & E & _).
  { apply (example_config_sane "LOAD_PRIORITY"); simpl; tauto. }
  exists sim; split; [exact E |].
  apply (@records_in_step_order counting_random example_config 0%Z sim).
  exact E.
Defined.

Lemma inverter_limit_in_records_witness :
  exists sim : @Simulation counting_random,
    simulate example_config 0 = (Ok tt, Some sim) /\
    Forall (fun r =>
              h_solar_generated_kw r
                = (if h_inverter_operational r
                   then Rmin (h_solar_available_kw r) (1 * 4) else 0) /\
              (0 <= 1 * 4 -> h_solar_generated_kw r <= 1 * 4))
      (hourly_data sim).
Proof.
  destruct (@simulate_total counting_random counting_random_total
              example_config 0) as (sim & E & _).
  { apply (example_config_sane "LOAD_PRIORITY"); simpl; tauto. }
  exists sim; split; [exact E |].
  apply (@inverter_limit_in_records counting_random example_config 0%Z sim).
  exact E.
Defined.

(* ===================================================================== *)
(** * Simulation: strategies and physical ranges over a run *)
(* ===================================================================== *)

Lemma bind_get (S B : Type) (k : S -> M S B) (s : S) :
  bind get k s = k s s.
Proof. reflexivity. Qed.

Lemma bind_ret (S A B : Type) (a : A) (k : A -> M S B) (s : S) :
  bind (ret a) k s = k a s.
Proof. reflexivity. Qed.

Section UnknownStrategy.

Context `{RandomModule}.
Hypothesis Htotal : total_random.

(** X29. An unknown strategy is not detected when the simulation is
    built, only when the first step is dispatched: for a configuration
    that is otherwise fine (non-negative efficiency, known season, positive
    time step), a run of at least one step stops with
    [ValueError("Unknown strategy: ...")] before any record is logged, the
    battery still as the constructor made it.  A run of no step never
    dispatches: it completes with no record when the battery capacity is
    not 0, and with a capacity of 0 it stops in the closing statistics,
    where [get_soc()] raises [ZeroDivisionError]. *)
Theorem unknown_strategy_stops_run (cfg : Config) (time_us : Z) :
  0 <= battery_efficiency cfg ->
  CloudCoverage_.PROBABILITIES (simulation_season cfg) <> None ->
  (0 < simulation_time_step_minutes cfg)%Z ->
  ~ In (energy_management_strategy cfg)
      ["LOAD_PRIORITY"; "CHARGE_PRIORITY"; "PRODUCE_PRIORITY"]%string ->
  let total_steps :=
    (simulation_duration_days cfg * 24 * 60
     / simulation_time_step_minutes cfg)%Z in
  let capacity_kwh :=
    IZR (match battery_count cfg with Some n => n | None => 1%Z end)
    * battery_unit_capacity_kwh cfg in
  exists sim,
    hourly_data sim = [] /\
    Battery_.__init__ capacity_kwh (battery_efficiency cfg)
      (battery_min_soc cfg) = Ok (sim_battery sim) /\
    ((1 <= total_steps)%Z ->
     simulate cfg time_us
     = (Raise (ValueError
                 ("Unknown strategy: " ++ energy_management_strategy cfg)),
        Some sim)) /\
    ((total_steps <= 0)%Z -> capacity_kwh <> 0 ->
     simulate cfg time_us = (Ok tt, Some sim)) /\
    ((total_steps <= 0)%Z -> capacity_kwh = 0 ->
     simulate cfg time_us
     = (Raise (ZeroDivisionError "float division by zero"), Some sim)).
Proof.
  intros Heff Hseason Htsm Hstrat; cbv zeta.
  assert (Hinit : exists sim0, __init__ cfg time_us = Ok sim0).
  { unfold __init__; cbv zeta.
    rewrite init_spec by assumption.
    unfold CloudCoverage_.__init__.
    destruct (CloudCoverage_.PROBABILITIES (simulation_season cfg)) eqn:Ep;
      [| congruence].
    match goal with
    | |- context [CloudCoverage_.get_daily_coverage ?cc ?g] =>
        destruct (get_daily_coverage_total Htotal cc g) as (cov & g1 & Ec)
    end.
    { cbn; rewrite Ep; discriminate. }
    rewrite Ec; eexists; reflexivity. }
  destruct Hinit as (sim0 & E0).
  destruct (init_inv cfg time_us sim0 E0)
    as (Hh0 & Ht0 & Hd0 & Hb0 & _ & Hems & _).
  cbv beta zeta in Hh0, Ht0, Hd0, Hb0, Hems.
  assert (Hnz : Z.eqb (time_step_minutes sim0) 0 = false)
    by (apply Z.eqb_neq; lia).
  set (total := (simulation_duration_days cfg * 24 * 60
                 / simulation_time_step_minutes cfg)%Z).
  assert (Hrun : run sim0
                 = bind _simulation_loop (fun _ => _compile_results) sim0).
  { unfold run; rewrite bind_get; unfold floordiv.
    rewrite Hnz, bind_ret; reflexivity. }
  destruct (Z_le_gt_dec 1 total) as [Hsteps | Hsteps].
  - (* at least one step: the first dispatch raises *)
    destruct (generate_total Htotal (load sim0)
                (IZR ((0 * simulation_time_step_minutes cfg) mod (24 * 60))
                 / 60.0) (random_state sim0))
      as (ld & g1 & Eld).
    exists (set_store (mkStore (sim_battery sim0) (sim_grid sim0))
              (set_random_state g1 sim0)).
    split; [sim_cbn; assumption |].
    split; [sim_cbn; assumption |].
    split; [| split; intros; exfalso; lia].
    intros _; unfold simulate; rewrite E0, Hrun.
    erewrite bind_raise; [reflexivity |].
    unfold _simulation_loop.
    rewrite bind_get.
    unfold floordiv; rewrite Hnz, bind_ret.
    cbv zeta; rewrite bind_ret.
    rewrite Hd0, Ht0; fold total.
    destruct (Z.to_nat total) as [| n] eqn:Efuel; [lia |].
    cbn [while current_step].
    destruct (Z.ltb_spec 0 total); [| lia].
    erewrite bind_raise; [reflexivity |].
    erewrite bind_raise; [reflexivity |].
    unfold loop_body.
    rewrite bind_get; cbv zeta.
    cbn [current_step].
    rewrite Ht0.
    erewrite bind_run;
      [| unfold on_random, zoom; rewrite Eld; reflexivity].
    apply bind_raise.
    unfold on_store, zoom; sim_cbn.
    unfold EMS.distribute_energy; rewrite Hems; cbn [_strategy].
    destruct (String.eqb_spec (energy_management_strategy cfg)
                "LOAD_PRIORITY") as [Es | _];
      [exfalso; apply Hstrat; rewrite Es; simpl; tauto |].
    destruct (String.eqb_spec (energy_management_strategy cfg)
                "CHARGE_PRIORITY") as [Es | _];
      [exfalso; apply Hstrat; rewrite Es; simpl; tauto |].
    destruct (String.eqb_spec (energy_management_strategy cfg)
                "PRODUCE_PRIORITY") as [Es | _];
      [exfalso; apply Hstrat; rewrite Es; simpl; tauto |].
    reflexivity.
  - (* no step: the loop body never runs *)
    assert (Hloop : _simulation_loop sim0 = (Ok tt, sim0)).
    { unfold _simulation_loop.
      rewrite bind_get.
      unfold floordiv; rewrite Hnz, bind_ret.
      cbv zeta; rewrite bind_ret.
      rewrite Hd0, Ht0; fold total.
      replace (Z.to_nat total) with 0%nat by lia.
      cbn [while].
      rewrite bind_ret.
      cbn [daily_solar daily_load].
      destruct (gtb_spec 0 0); [exfalso; lra |].
      reflexivity. }
    exists (set_battery (sim_battery sim0) sim0).
    split; [sim_cbn; assumption |].
    split; [sim_cbn; assumption |].
    split; [intros; exfalso; lia |].
    rewrite init_spec in Hb0 by assumption; injection Hb0 as Hb0.
    assert (Hcap : _capacity_kwh (sim_battery sim0)
                   = IZR (match battery_count cfg with
                          | Some n => n | None => 1%Z end)
                     * battery_unit_capacity_kwh cfg)
      by (rewrite <- Hb0; reflexivity).
    split; intros _ Hc; unfold simulate;
      rewrite E0, Hrun, (bind_run _ _ _ _ _ _ _ _ Hloop);
      unfold _compile_results; rewrite bind_get; cbv zeta;
      unfold bind, on_sim_battery, zoom.
    + rewrite get_soc_total by (rewrite Hcap; exact Hc); reflexivity.
    + unfold Battery_.get_soc, bind, get, truediv.
      rewrite Hcap, Hc.
      destruct (eqb_spec 0 0) as [_ | Hne]; [reflexivity | exfalso; lra].
Qed.

End UnknownStrategy.

Lemma unknown_strategy_stops_run_witness :
  let cfg := with_strategy example_config "SELL_PRIORITY" in
  let capacity_kwh :=
    IZR (match battery_count cfg with Some n => n | None => 1%Z end)
    * battery_unit_capacity_kwh cfg in
  exists sim : @Simulation counting_random,
    hourly_data sim = [] /\
    Battery_.__init__ capacity_kwh (battery_efficiency cfg)
      (battery_min_soc cfg) = Ok (sim_battery sim) /\
    ((1 <= simulation_duration_days cfg * 24 * 60
           / simulation_time_step_minutes cfg)%Z ->
     simulate cfg 0
     = (Raise (ValueError
                 ("Unknown strategy: " ++ energy_management_strategy cfg)),
        Some sim)) /\
    ((simulation_duration_days cfg * 24 * 60
      / simulation_time_step_minutes cfg <= 0)%Z -> capacity_kwh <> 0 ->
     simulate cfg 0 = (Ok tt, Some sim)) /\
    ((simulation_duration_days cfg * 24 * 60
      / simulation_time_step_minutes cfg <= 0)%Z -> capacity_kwh = 0 ->
     simulate cfg 0
     = (Raise (ZeroDivisionError "float division by zero"), Some sim)).
Proof.
  apply (@unknown_strategy_stops_run counting_random counting_random_total
           (with_strategy example_config "SELL_PRIORITY") 0%Z).
  - cbn; lra.
  - cbn; discriminate.
  - cbn; lia.
  - cbn; intros [E | [E | [E | []]]]; discriminate.
Defined.

(** The panel of the simulation never produces a negative power, nor more
    than its peak. *)
Lemma solar_panel_range (self : SolarPanel) (hour_of_day cloud_coverage : R) :
  0 <= _peak_power_kw self -> 0 <= cloud_coverage <= 1 ->
  0 <= SolarPanel_.generate self hour_of_day cloud_coverage
    <= _peak_power_kw self.
Proof.
  intros Hpeak Hcloud; unfold SolarPanel_.generate; cbv zeta.
  destruct (ltb_spec hour_of_day 6) as [Hlt | Hlt]; cbn [orb]; [lra |].
  destruct (geb_spec hour_of_day 18) as [Hge | Hge]; [lra |].
  pose proof PI_RGT_0 as Hpi.
  assert (Hangle : 0 <= (hour_of_day - 6) * (PI / 12) <= PI) by nra.
  pose proof (sin_ge_0 _ (proj1 Hangle) (proj2 Hangle)) as Hsin0.
  pose proof (SIN_bound ((hour_of_day - 6) * (PI / 12))) as [_ Hsin1].
  assert (0 <= _peak_power_kw self * sin ((hour_of_day - 6) * (PI / 12))
          <= _peak_power_kw self) by nra.
  nra.
Qed.

Section PhysicalRanges.

Context `{RandomModule}.
Hypothesis Hbounded : bounded_random.

Lemma daily_coverage_bounds (cc : CloudCoverage) (g : rng) (x : R)
    (g' : rng) :
  CloudCoverage_.get_daily_coverage cc g = (Ok x, g') -> 0 <= x <= 0.9.
Proof.
  unfold CloudCoverage_.get_daily_coverage.
  destruct (CloudCoverage_.PROBABILITIES (_season cc)) as [w |];
    [| discriminate].
  intros Ex.
  apply bind_ok_inv in Ex; destruct Ex as (level & g1 & El & Ex).
  apply (choices_member Hbounded) in El; [| discriminate].
  apply bind_ok_inv in Ex; destruct Ex as ([lo hi] & g2 & Ei & Ex).
  apply bind_ok_inv in Ex; destruct Ex as (u & g3 & Eu & Ex).
  injection Ex as <- _.
  pose proof (uniform_range Hbounded lo hi g2 u g3 Eu) as Hu.
  simpl in El.
  destruct El as [<- | [<- | [<- | [<- | []]]]];
    cbn in Ei; injection Ei as <- <- _;
    rewrite Rmin_left, Rmax_right in Hu by lra; lra.
Qed.

Lemma generate_nonneg (base_load_kw peak_hours_max_kw : R)
    (peak_hours_start peak_hours_end : Z) (hour : R) (g : rng) (x : R)
    (g' : rng) :
  0 <= base_load_kw -> 0 <= peak_hours_max_kw ->
  Load_.generate
    (Load_.__init__ base_load_kw peak_hours_max_kw peak_hours_start
       peak_hours_end) hour g = (Ok x, g') ->
  0 <= x.
Proof.
  intros Hbase Hpm E.
  unfold Load_.generate in E; cbv zeta in E.
  cbn [Load_.__init__ _base_load_kw _peak_hours_max_kw _peak_hours_start
       _peak_hours_end _scheduled_events] in E.
  apply bind_ok_inv in E; destruct E as (d & g1 & E1 & E2).
  apply bind_ok_inv in E2; destruct E2 as (r & g2 & Er & E2).
  assert (Hnoise : d <= x).
  { destruct (ltb r 0.3).
    - apply bind_ok_inv in E2; destruct E2 as (u & g3 & Eu & E2).
      injection E2 as <- _.
      pose proof (uniform_range Hbounded 0.0 0.8 g2 u g3 Eu) as Hu.
      rewrite Rmin_left, Rmax_right in Hu by lra; lra.
    - injection E2 as <- _; lra. }
  destruct (_ && _)%bool.
  - apply bind_ok_inv in E1; destruct E1 as (u & g3 & Eu & E1).
    injection E1 as <- _.
    pose proof (uniform_range Hbounded 1.0 peak_hours_max_kw g u g3 Eu)
      as [Hu _].
    assert (0 <= Rmin 1.0 peak_hours_max_kw) by (apply Rmin_glb; lra).
    lra.
  - apply (scheduled_bounds Hbounded) in E1 as Hs;
      [| repeat constructor; cbn; lra].
    lra.
Qed.

(** X30. The solar, cloud and demand columns of every record of a
    complete run stay in their physical range, for a generator that keeps
    the contract of the [random] module and a configuration with
    non-negative solar peak, inverter output, base load and peak load:
    the cloud coverage is between 0 and 0.9, the demand is not negative,
    and [0 <= solar_generated_kw <= solar_available_kw <= total solar
    peak].  (The logged state of charge is left out: its range depends on
    the rounding of the battery arithmetic.) *)
Theorem run_keeps_physical_ranges (cfg : Config) (time_us : Z)
    (sim : Simulation) :
  let count (c : option Z) := match c with Some n => n | None => 1%Z end in
  let peak := IZR (count (solar_count cfg)) * solar_unit_peak_power_kw cfg in
  let max_output := IZR (count (inverter_count cfg))
                    * inverter_unit_max_output_kw cfg in
  0 <= peak -> 0 <= max_output ->
  0 <= load_base_load_kw cfg -> 0 <= load_peak_hours_max_kw cfg ->
  simulate cfg time_us = (Ok tt, Some sim) ->
  Forall (fun r =>
            0 <= h_cloud_coverage r <= 0.9 /\
            0 <= h_load_demand_kw r /\
            0 <= h_solar_generated_kw r /\
            h_solar_generated_kw r <= h_solar_available_kw r /\
            h_solar_available_kw r <= peak)
    (hourly_data sim).
Proof.
  cbv beta zeta; intros Hpeak Hmax Hbase Hpm E.
  set (peak := IZR _ * solar_unit_peak_power_kw cfg) in *.
  set (max_output := IZR _ * inverter_unit_max_output_kw cfg) in *.
  eapply proj2, (simulate_records
           (fun s =>
              load s
                = Load_.__init__ (load_base_load_kw cfg)
                    (load_peak_hours_max_kw cfg) (load_peak_hours_start cfg)
                    (load_peak_hours_end cfg) /\
              solar_panel s = {| _peak_power_kw := peak |} /\
              _max_output_kw (inverter s) = max_output /\
              0 <= current_cloud_coverage s <= 0.9));
    [| | exact E].
  - (* the simulation as built *)
    intros sim0 E0; apply init_inv in E0; cbv beta zeta in E0.
    destruct E0 as (_ & _ & _ & _ & _ & _ & Hl & Hp & Hi & _ & g & g' & Hc).
    fold peak in Hp; fold max_output in Hi.
    rewrite Hi; cbn.
    repeat split; try assumption.
    + apply (daily_coverage_bounds _ _ _ _ Hc).
    + apply (daily_coverage_bounds _ _ _ _ Hc).
  - (* one iteration *)
    intros spd l s l1 s1 (Hl & Hp & Hi & Hcc) El.
    apply loop_body_inv in El; cbv zeta in El.
    destruct El as (ld & g1 & f & st & soc & Eld & Ef & Esoc & Hh & Hb1 & _
                    & _ & _ & _ & Hl1 & Hp1 & _ & Hi1 & Hcc1).
    rewrite Hl in Eld; apply generate_nonneg in Eld; try assumption.
    match type of Ef with
    | EMS.distribute_energy _ ?sg _ _ _ = _ =>
        assert (Hsolar : 0 <= SolarPanel_.generate (solar_panel s)
                                (IZR ((current_step l * time_step_minutes s)
                                      mod (24 * 60)) / 60.0)
                                (current_cloud_coverage s) <= peak);
        [| assert (Hgen : 0 <= sg
                          /\ sg <= SolarPanel_.generate (solar_panel s)
                                     (IZR ((current_step l
                                            * time_step_minutes s)
                                           mod (24 * 60)) / 60.0)
                                     (current_cloud_coverage s)) ]
    end.
    { rewrite Hp; apply (solar_panel_range {| _peak_power_kw := peak |});
        cbn; lra. }
    { unfold Inverter_.is_operational, Inverter_.apply_limit.
      destruct (_is_failing (inverter s)); [lra |].
      rewrite min_Rmin, Hi; split; [apply Rmin_glb; lra | apply Rmin_l]. }
    assert (Hcc' : 0 <= current_cloud_coverage s1 <= 0.9).
    { destruct Hcc1 as [-> | (g & g' & Hcov)]; [assumption |].
      apply (daily_coverage_bounds _ _ _ _ Hcov). }
    split.
    + rewrite Hl1, Hp1, Hi1.
      repeat split; try assumption; try tauto.
    + eexists; split; [exact Hh |].
      cbn [h_step h_battery_soc h_cloud_coverage h_load_demand_kw
           h_solar_generated_kw h_solar_available_kw].
      split; [reflexivity |].
      repeat split; try tauto; lra.
Qed.

End PhysicalRanges.

Lemma run_keeps_physical_ranges_witness :
  exists sim : @Simulation counting_random,
    simulate example_config 0 = (Ok tt, Some sim) /\
    Forall (fun r =>
              0 <= h_cloud_coverage r <= 0.9 /\
              0 <= h_load_demand_kw r /\
              0 <= h_solar_generated_kw r /\
              h_solar_generated_kw r <= h_solar_available_kw r /\
              h_solar_available_kw r <= 2 * 2.5)
      (hourly_data sim).
Proof.
  destruct (@simulate_total counting_random counting_random_total
              example_config 0) as (sim & E & _).
  { apply (example_config_sane "LOAD_PRIORITY"); simpl; tauto. }
  exists sim; split; [exact E |].
  apply (@run_keeps_physical_ranges counting_random counting_random_bounded
           example_config 0%Z sim); cbn; try lra; try lia.
  exact E.
Defined.

(* ===================================================================== *)
(** * Battery on floats: what rounding changes and what it keeps *)
(* ===================================================================== *)

Lemma exact_rounding : rounding 0 exact.
Proof.
  constructor; unfold exact.
  - lra.
  - intros x; rewrite Rminus_diag, Rabs_R0; lra.
  - intros x y Hxy; assumption.
  - reflexivity.
Qed.

(** The window rounding is a rounding, with the relative width of the
    window as unit roundoff. *)
Lemma snap_up_rounding (a b : R) :
  0 < a -> a <= b -> (b - a) / a <= / 100 ->
  rounding ((b - a) / a) (snap_up a b).
Proof.
  intros Ha Hab Hu.
  assert (Hu0 : 0 <= (b - a) / a) by (apply Rdiv_nonneg; lra).
  assert (Hwidth : b - a = (b - a) / a * a) by (field; lra).
  constructor.
  - split; assumption.
  - intros x; unfold snap_up.
    destruct (ltb_spec a x) as [Hax | Hax]; cbn [andb].
    + destruct (leb_spec x b) as [Hxb | Hxb].
      * rewrite (Rabs_pos_eq (b - x)) by lra.
        rewrite (Rabs_pos_eq x) by lra.
        assert ((b - a) / a * a <= (b - a) / a * x) by nra.
        lra.
      * rewrite Rminus_diag, Rabs_R0.
        apply Rmult_le_pos; [assumption | apply Rabs_pos].
    + rewrite Rminus_diag, Rabs_R0.
      apply Rmult_le_pos; [assumption | apply Rabs_pos].
  - intros x y Hxy; unfold snap_up.
    destruct (ltb_spec a x), (leb_spec x b), (ltb_spec a y), (leb_spec y b);
      cbn [andb]; lra.
  - intros x; unfold snap_up.
    destruct (ltb_spec a x) as [Hax | Hax]; cbn [andb].
    + destruct (leb_spec x b) as [Hxb | Hxb].
      * destruct (ltb_spec a b), (leb_spec b b); cbn [andb]; lra.
      * destruct (ltb_spec a x), (leb_spec x b); cbn [andb]; lra.
    + destruct (ltb_spec a x); cbn [andb]; lra.
Qed.

Section Rounded.

Variables (u : R) (fl : R -> R).
Hypothesis Hfl : rounding u fl.

Lemma fl_bounds (x m : R) :
  Rabs x <= m -> x - u * m <= fl x <= x + u * m.
Proof.
  intros Hm.
  pose proof (fl_error _ _ Hfl x) as He.
  pose proof (unit_roundoff_range _ _ Hfl) as Hu.
  assert (Hum : u * Rabs x <= u * m) by (apply Rmult_le_compat_l; lra).
  apply Rabs_le_bounds in He; lra.
Qed.

Lemma fl_0 : fl 0 = 0.
Proof.
  pose proof (fl_bounds 0 0) as H0.
  rewrite Rabs_R0 in H0; specialize (H0 (Rle_refl 0)); lra.
Qed.

Lemma fl_nonneg (x : R) : 0 <= x -> 0 <= fl x.
Proof. intros Hx; rewrite <- fl_0; apply (fl_monotone _ _ Hfl); assumption. Qed.

Lemma fl_nonpos (x : R) : x <= 0 -> fl x <= 0.
Proof. intros Hx; rewrite <- fl_0; apply (fl_monotone _ _ Hfl); assumption. Qed.

Lemma fl_near_nonneg (x : R) :
  0 <= x -> x * (1 - u) <= fl x <= x * (1 + u).
Proof.
  intros Hx; pose proof (fl_bounds x x) as Hb.
  rewrite Rabs_pos_eq in Hb by assumption.
  specialize (Hb (Rle_refl x)); lra.
Qed.

Lemma fl_pos (x : R) : 0 < x -> 0 < fl x.
Proof.
  intros Hx; pose proof (fl_near_nonneg x ltac:(lra)) as Hb.
  pose proof (unit_roundoff_range _ _ Hfl) as Hu.
  assert (0 < x * (1 - u)) by (apply Rmult_lt_0_compat; lra).
  lra.
Qed.

(** Adding what is computed as missing to reach [c] lands within rounding
    of [c]; taking away what is computed as the excess over [m] lands
    within rounding of [m]. *)
Lemma refill_close (a c d : R) :
  0 <= c -> Rabs (c - a) <= d ->
  Rabs (fl (a + fl (c - a)) - c) <= u * c + u * (1 + u) * d.
Proof.
  intros Hc Hd.
  pose proof (unit_roundoff_range _ _ Hfl) as Hu.
  assert (Hd0 : 0 <= d) by (pose proof (Rabs_pos (c - a)); lra).
  pose proof (fl_bounds (c - a) d Hd) as Hs.
  assert (Hy : Rabs (a + fl (c - a)) <= c + u * d).
  { apply Rabs_le; nra. }
  pose proof (fl_bounds _ _ Hy) as Hr.
  apply Rabs_le; nra.
Qed.

Lemma drain_close (a m d : R) :
  0 <= m -> Rabs (a - m) <= d ->
  Rabs (fl (a - fl (a - m)) - m) <= u * m + u * (1 + u) * d.
Proof.
  intros Hm Hd.
  pose proof (unit_roundoff_range _ _ Hfl) as Hu.
  assert (Hd0 : 0 <= d) by (pose proof (Rabs_pos (a - m)); lra).
  pose proof (fl_bounds (a - m) d Hd) as Hs.
  assert (Hy : Rabs (a - fl (a - m)) <= m + u * d).
  { apply Rabs_le; nra. }
  pose proof (fl_bounds _ _ Hy) as Hr.
  apply Rabs_le; nra.
Qed.

Lemma rounded_charge_spec (e : R) (b : @Fl.Battery (rounded fl)) :
  Fl._one_way_efficiency b <> 0 ->
  let store :=
    Rmin (fl (e * Fl._one_way_efficiency b))
      (fl (Fl._capacity_kwh b - Fl._energy_kwh b)) in
  Fl.charge (ops := rounded fl) e b
  = (Ok (fl (store / Fl._one_way_efficiency b)),
     Fl.set_energy_kwh b (fl (Fl._energy_kwh b + store))).
Proof.
  intros Howe; cbv zeta.
  unfold Fl.charge, Fl.truediv, Fl.min, bind, get, put, ret; cbn.
  rewrite eqb_false by assumption.
  rewrite <- min_Rmin; reflexivity.
Qed.

Lemma rounded_discharge_spec (e : R) (b : @Fl.Battery (rounded fl)) :
  Fl._one_way_efficiency b <> 0 ->
  let extracted :=
    Rmin (fl (e / Fl._one_way_efficiency b))
      (fl (Fl._energy_kwh b - Fl._min_energy_kwh b)) in
  Fl.discharge (ops := rounded fl) e b
  = (Ok (fl (extracted * Fl._one_way_efficiency b)),
     Fl.set_energy_kwh b (fl (Fl._energy_kwh b - extracted))).
Proof.
  intros Howe; cbv zeta.
  unfold Fl.discharge, Fl.truediv, Fl.min, bind, get, put, ret; cbn.
  rewrite eqb_false by assumption.
  rewrite <- min_Rmin; reflexivity.
Qed.

Lemma tolerance_absorbs (c m : R) :
  0 <= m <= c ->
  u * m + u * (1 + u) * (c + 4 * u * c) <= 4 * u * c.
Proof.
  intros Hm; pose proof (unit_roundoff_range _ _ Hfl) as Hu.
  assert (0 <= u * c) by nra.
  assert (u * (u * c) <= / 100 * (u * c)) by nra.
  assert (u * (u * (u * c)) <= / 100 * (u * (u * c))) by nra.
  nra.
Qed.

Lemma headroom_size (b : @Fl.Battery (rounded fl)) :
  well_formed b -> within_bounds_up_to u b ->
  Rabs (Fl._capacity_kwh b - Fl._energy_kwh b)
    <= Fl._capacity_kwh b + 4 * u * Fl._capacity_kwh b /\
  Rabs (Fl._energy_kwh b - Fl._min_energy_kwh b)
    <= Fl._capacity_kwh b + 4 * u * Fl._capacity_kwh b.
Proof.
  intros (Howe & Hm & Hrep) [Hlo Hhi].
  pose proof (unit_roundoff_range _ _ Hfl) as Hu.
  assert (0 <= u * Fl._capacity_kwh b) by nra.
  split; apply Rabs_le; lra.
Qed.

(** A charge that fills the headroom, and a discharge that takes all that
    is above the floor, end within [4 u capacity] of the capacity and of
    the floor. *)
Lemma refill_within (b : @Fl.Battery (rounded fl)) :
  well_formed b -> within_bounds_up_to u b ->
  Rabs (fl (Fl._energy_kwh b
            + fl (Fl._capacity_kwh b - Fl._energy_kwh b))
        - Fl._capacity_kwh b)
    <= 4 * u * Fl._capacity_kwh b.
Proof.
  intros Hwf Hb.
  destruct (headroom_size b Hwf Hb) as [Hd _].
  destruct Hwf as (_ & Hm & _).
  eapply Rle_trans; [apply refill_close; [lra | exact Hd] |].
  pose proof (tolerance_absorbs (Fl._capacity_kwh b) (Fl._capacity_kwh b)
                ltac:(lra)).
  lra.
Qed.

Lemma drain_within (b : @Fl.Battery (rounded fl)) :
  well_formed b -> within_bounds_up_to u b ->
  Rabs (fl (Fl._energy_kwh b
            - fl (Fl._energy_kwh b - Fl._min_energy_kwh b))
        - Fl._min_energy_kwh b)
    <= 4 * u * Fl._capacity_kwh b.
Proof.
  intros Hwf Hb.
  destruct (headroom_size b Hwf Hb) as [_ Hd].
  destruct Hwf as (_ & Hm & _).
  eapply Rle_trans; [apply drain_close; [lra | exact Hd] |].
  apply tolerance_absorbs; assumption.
Qed.

(** One call keeps the battery within its bounds up to rounding, and
    leaves the constants alone. *)
Lemma rounded_call_keeps (c : @Fl.battery_call (rounded fl))
    (b : @Fl.Battery (rounded fl)) :
  well_formed b -> within_bounds_up_to u b -> 0 <= Fl.call_arg c ->
  exists out b',
    Fl.call c b = (Ok out, b') /\
    well_formed b' /\ within_bounds_up_to u b' /\
    Fl._capacity_kwh b' = Fl._capacity_kwh b /\
    Fl._min_energy_kwh b' = Fl._min_energy_kwh b /\
    Fl._one_way_efficiency b' = Fl._one_way_efficiency b.
Proof.
  intros Hwf Hb Harg.
  pose proof (refill_within b Hwf Hb) as Hfill.
  pose proof (drain_within b Hwf Hb) as Hdrain.
  apply Rabs_le_bounds in Hfill, Hdrain.
  pose proof Hwf as (Howe & Hm & Hrep).
  pose proof Hb as [Hlo Hhi].
  pose proof (unit_roundoff_range _ _ Hfl) as Hu.
  assert (Hτ : 0 <= u * Fl._capacity_kwh b) by nra.
  destruct c as [e | e]; cbn [Fl.call Fl.call_arg] in *.
  - rewrite rounded_charge_spec by lra; cbv zeta.
    do 2 eexists; split; [reflexivity |].
    assert (Husable : 0 <= fl (e * Fl._one_way_efficiency b))
      by (apply fl_nonneg; nra).
    unfold well_formed, within_bounds_up_to; cbn.
    split; [split; [assumption | split; [assumption | apply (fl_idempotent _ _ Hfl)]] |].
    split; [| repeat split].
    unfold Rmin; destruct (Rle_dec _ _) as [Hle | Hgt].
    + (* the offer fits *)
      assert (H1 : fl (Fl._energy_kwh b)
                   <= fl (Fl._energy_kwh b
                          + fl (e * Fl._one_way_efficiency b)))
        by (apply (fl_monotone _ _ Hfl); lra).
      assert (H2 : fl (Fl._energy_kwh b
                       + fl (e * Fl._one_way_efficiency b))
                   <= fl (Fl._energy_kwh b
                          + fl (Fl._capacity_kwh b - Fl._energy_kwh b)))
        by (apply (fl_monotone _ _ Hfl); lra).
      rewrite Hrep in H1; lra.
    + lra.
  - rewrite rounded_discharge_spec by lra; cbv zeta.
    do 2 eexists; split; [reflexivity |].
    assert (Hreq : 0 <= fl (e / Fl._one_way_efficiency b))
      by (apply fl_nonneg, Rdiv_nonneg; lra).
    unfold well_formed, within_bounds_up_to; cbn.
    split; [split; [assumption | split; [assumption | apply (fl_idempotent _ _ Hfl)]] |].
    split; [| repeat split].
    unfold Rmin; destruct (Rle_dec _ _) as [Hle | Hgt].
    + (* the request is available *)
      assert (H1 : fl (Fl._energy_kwh b
                       - fl (e / Fl._one_way_efficiency b))
                   <= fl (Fl._energy_kwh b))
        by (apply (fl_monotone _ _ Hfl); lra).
      assert (H2 : fl (Fl._energy_kwh b
                       - fl (Fl._energy_kwh b - Fl._min_energy_kwh b))
                   <= fl (Fl._energy_kwh b
                          - fl (e / Fl._one_way_efficiency b)))
        by (apply (fl_monotone _ _ Hfl); lra).
      rewrite Hrep in H1; lra.
    + lra.
Qed.

Lemma rounded_calls_keep (cs : list (@Fl.battery_call (rounded fl))) :
  forall b : @Fl.Battery (rounded fl),
    well_formed b -> within_bounds_up_to u b ->
    Forall (fun c : @Fl.battery_call (rounded fl) => 0 <= Fl.call_arg c) cs ->
    exists outs b',
      Fl.calls cs b = (Ok outs, b') /\
      well_formed b' /\ within_bounds_up_to u b' /\
      Fl._capacity_kwh b' = Fl._capacity_kwh b /\
      Fl._min_energy_kwh b' = Fl._min_energy_kwh b /\
      Fl._one_way_efficiency b' = Fl._one_way_efficiency b.
Proof.
  induction cs as [| c cs IH]; intros b Hwf Hb Hargs.
  - exists [], b; repeat split; assumption || apply Hwf || apply Hb.
  - inversion Hargs as [| c' cs' Hc Hcs]; subst.
    destruct (rounded_call_keeps c b Hwf Hb Hc)
      as (out & b1 & E1 & Hwf1 & Hb1 & K1 & K2 & K3).
    destruct (IH b1 Hwf1 Hb1 Hcs)
      as (outs & b2 & E2 & Hwf2 & Hb2 & L1 & L2 & L3).
    exists (out :: outs), b2.
    split; [cbn [Fl.calls]; unfold bind; rewrite E1, E2; reflexivity |].
    repeat split; try apply Hwf2; try apply Hb2; congruence.
Qed.

(** The battery the constructor builds. *)
Lemma rounded_init (capacity_kwh efficiency min_soc : R) :
  capacity_kwh > 0 -> 0 < efficiency -> 0 <= min_soc <= 0.5 ->
  exists b0 : @Fl.Battery (rounded fl),
    Fl.__init__ (ops := rounded fl) capacity_kwh efficiency min_soc = Ok b0 /\
    well_formed b0 /\ within_bounds_up_to u b0 /\
    Fl._capacity_kwh b0 = capacity_kwh /\
    Fl._min_energy_kwh b0 = fl (capacity_kwh * min_soc) /\
    Fl._energy_kwh b0 = fl (capacity_kwh * fl 0.5) /\
    Fl._one_way_efficiency b0 = fl (sqrt efficiency).
Proof.
  intros Hcap Heff Hsoc.
  pose proof (unit_roundoff_range _ _ Hfl) as Hu.
  unfold Fl.__init__, Fl.math_sqrt; cbn.
  rewrite ltb_false by lra; cbn.
  eexists; split; [reflexivity |].
  pose proof (fl_near_nonneg 0.5 ltac:(lra)) as Hhalf.
  assert (Hch : 0 <= capacity_kwh * fl 0.5) by nra.
  pose proof (fl_near_nonneg _ Hch) as Hen.
  assert (Hcm : 0 <= capacity_kwh * min_soc) by nra.
  pose proof (fl_near_nonneg _ Hcm) as Hmen.
  assert (Huc : 0 <= u * capacity_kwh) by nra.
  assert (Hcm2 : capacity_kwh * min_soc <= capacity_kwh * 0.5) by nra.
  assert (Hcmu : capacity_kwh * min_soc * u <= capacity_kwh * 0.5 * u)
    by nra.
  assert (Hchu : capacity_kwh * fl 0.5 * u <= capacity_kwh * 0.5 * (1 + u) * u)
    by nra.
  assert (Huu : u * (u * capacity_kwh) <= / 100 * (u * capacity_kwh)) by nra.
  assert (Hhu : capacity_kwh * 0.5 * u <= capacity_kwh * 0.5 * / 100)
    by nra.
  unfold well_formed, within_bounds_up_to; cbn.
  repeat split; try reflexivity.
  - apply fl_pos, sqrt_lt_R0; assumption.
  - apply fl_nonneg; assumption.
  - nra.
  - apply (fl_idempotent _ _ Hfl).
  - nra.
  - nra.
Qed.

(** C2, amended.  For a Battery created with [capacity_kwh > 0],
    [0 < efficiency <= 1] and [0 <= min_soc <= 0.5], every finite sequence
    of [charge] and [discharge] calls with non-negative arguments returns
    and preserves the invariant up to rounding:
    [min_energy_kwh - 4 u capacity_kwh <= stored energy
     <= capacity_kwh + 4 u capacity_kwh],
    where [u] is the unit roundoff of the arithmetic ([2^-53] on binary64;
    with exact arithmetic [u = 0] and this is the invariant itself). *)
Theorem battery_bounds_up_to_rounding
    (capacity_kwh efficiency min_soc : R)
    (cs : list (@Fl.battery_call (rounded fl))) :
  capacity_kwh > 0 -> 0 < efficiency <= 1 -> 0 <= min_soc <= 0.5 ->
  Forall (fun c : @Fl.battery_call (rounded fl) => 0 <= Fl.call_arg c) cs ->
  exists (b0 : @Fl.Battery (rounded fl)) outs b,
    Fl.__init__ (ops := rounded fl) capacity_kwh efficiency min_soc = Ok b0 /\
    Fl.calls cs b0 = (Ok outs, b) /\
    Fl._capacity_kwh b = capacity_kwh /\
    Fl._min_energy_kwh b - 4 * u * capacity_kwh <= Fl._energy_kwh b /\
    Fl._energy_kwh b <= capacity_kwh + 4 * u * capacity_kwh.
Proof.
  intros Hcap Heff Hsoc Hargs.
  destruct (rounded_init capacity_kwh efficiency min_soc Hcap
              ltac:(lra) Hsoc)
    as (b0 & E0 & Hwf0 & Hb0 & Kc & _).
  destruct (rounded_calls_keep cs b0 Hwf0 Hb0 Hargs)
    as (outs & b & E & _ & [Hlo Hhi] & Lc & _).
  exists b0, outs, b.
  split; [exact E0 |]; split; [exact E |].
  rewrite Lc, Kc in Hlo, Hhi.
  split; [congruence |]; split; assumption.
Qed.

End Rounded.


Lemma snap_up_outside (a b x : R) : x <= a \/ b < x -> snap_up a b x = x.
Proof.
  intros Hx; unfold snap_up.
  destruct (ltb_spec a x), (leb_spec x b); cbn [andb]; try reflexivity.
  exfalso; lra.
Qed.

Lemma snap_up_inside (a b x : R) : a < x <= b -> snap_up a b x = b.
Proof.
  intros Hx; unfold snap_up.
  destruct (ltb_spec a x), (leb_spec x b); cbn [andb];
    try reflexivity; exfalso; lra.
Qed.

Lemma battery_bounds_up_to_rounding_witness :
  exists (b0 : @Fl.Battery (rounded (snap_up 6.07 6.08))) outs b,
    Fl.__init__ (ops := rounded (snap_up 6.07 6.08)) 13.5 0.9 0.05 = Ok b0 /\
    Fl.calls [Fl.Discharge (ops := rounded (snap_up 6.07 6.08)) 20;
              Fl.Charge (ops := rounded (snap_up 6.07 6.08)) 100] b0 = (Ok outs, b) /\
    Fl._capacity_kwh b = 13.5 /\
    Fl._min_energy_kwh b - 4 * ((6.08 - 6.07) / 6.07) * 13.5
      <= Fl._energy_kwh b /\
    Fl._energy_kwh b <= 13.5 + 4 * ((6.08 - 6.07) / 6.07) * 13.5.
Proof.
  apply (battery_bounds_up_to_rounding ((6.08 - 6.07) / 6.07)
           (snap_up 6.07 6.08)).
  - apply snap_up_rounding; lra.
  - lra.
  - lra.
  - lra.
  - repeat constructor; cbn; lra.
Defined.

(** With the rounding [snap_up 6.07 6.08] the bound is really passed: the
    discharge computes the available energy [6.75 - 0.675] as 6.08 and
    leaves 0.67 kWh in a battery whose floor is 0.675 kWh. *)
Example rounding_passes_the_floor :
  exists (b0 : @Fl.Battery (rounded (snap_up 6.07 6.08))) outs b,
    Fl.__init__ (ops := rounded (snap_up 6.07 6.08)) 13.5 0.9 0.05 = Ok b0 /\
    Fl.calls [Fl.Discharge (ops := rounded (snap_up 6.07 6.08)) 20] b0 = (Ok outs, b) /\
    Fl._energy_kwh b = 0.67 /\ Fl._min_energy_kwh b = 0.675.
Proof.
  pose proof sqrt09_bounds as Hs.
  assert (Hreq : 6.08 < 20 / sqrt 0.9).
  { apply (Rmult_lt_reg_r (sqrt 0.9)); [lra |].
    unfold Rdiv; rewrite Rmult_assoc, Rinv_l by lra; lra. }
  unfold Fl.__init__, Fl.math_sqrt; cbn.
  rewrite ltb_false by lra; cbn.
  do 3 eexists; split; [reflexivity |].
  unfold bind; rewrite rounded_discharge_spec
    by (cbn; rewrite snap_up_outside by lra; lra).
  cbn.
  rewrite (snap_up_outside _ _ (sqrt 0.9)) by lra.
  rewrite (snap_up_outside _ _ 0.5) by lra.
  rewrite (snap_up_outside _ _ (13.5 * 0.5)) by lra.
  rewrite (snap_up_outside _ _ (13.5 * 0.05)) by lra.
  rewrite (snap_up_outside _ _ (20 / sqrt 0.9)) by lra.
  rewrite (snap_up_inside _ _ (13.5 * 0.5 - 13.5 * 0.05)) by lra.
  rewrite Rmin_right by lra.
  rewrite (snap_up_outside _ _ (13.5 * 0.5 - 6.08)) by lra.
  split; [reflexivity |]; cbn; split; lra.
Qed.

(** C2, refuted as stated, on the floats of the program.  The documented
    battery [Battery(13.5, 0.9, 0.05)] after [discharge(20)] holds
    0.6749999999999998 kWh, below its floor 0.675; and
    [Battery(7.3, 0.9, 0.05)] after [discharge(1.7)], [charge(1000)] holds
    7.300000000000001 kWh, above its capacity 7.3. *)
Lemma battery_bounds_counterexample :
  exists outs1 b1 outs2 b2,
    Binary64.run_calls Binary64.documented_battery Binary64.discharge_20
      = Some (outs1, b1) /\
    Fl.fltb (Fl._energy_kwh b1) (Fl._min_energy_kwh b1) = true /\
    Fl.within_bounds b1 = false /\
    Binary64.run_calls Binary64.small_battery Binary64.discharge_then_fill
      = Some (outs2, b2) /\
    Fl.fltb (Fl._capacity_kwh b2) (Fl._energy_kwh b2) = true /\
    Fl.within_bounds b2 = false.
Proof.
  do 4 eexists.
  split; [vm_compute; reflexivity |].
  split; [vm_compute; reflexivity |].
  split; [vm_compute; reflexivity |].
  split; [vm_compute; reflexivity |].
  split; vm_compute; reflexivity.
Qed.


(* ===================================================================== *)
(** * Battery on floats: charge followed by discharge *)
(* ===================================================================== *)

(** C4, refuted as stated, on the floats of the program.  On the documented
    battery [Battery(13.5, 0.9, 0.05)], fresh at 50%, neither the capacity
    nor the floor binds for [E = 1]; [charge(1)] followed by [discharge(1)]
    delivers 1.0 kWh, while [E x efficiency] is 0.9 kWh: the delivery is
    above 0.95 and [E x efficiency] below it, far more than a floating
    tolerance apart. *)
Lemma round_trip_counterexample :
  exists consumed delivered b2,
    Binary64.run_calls Binary64.documented_battery Binary64.round_trip_1
      = Some ([consumed; delivered], b2) /\
    @Fl.feqb Binary64.ops delivered Binary64.lit_1 = true /\
    @Fl.fltb Binary64.ops Binary64.lit_0_95 delivered = true /\
    @Fl.fltb Binary64.ops
      (@Fl.fmul Binary64.ops Binary64.lit_1 (Fl._efficiency b2))
      Binary64.lit_0_95 = true /\
    Fl.fltb (Fl._min_energy_kwh b2) (Fl._energy_kwh b2) = true /\
    Fl.fltb (Fl._energy_kwh b2) (Fl._capacity_kwh b2) = true.
Proof.
  do 3 eexists.
  split; [vm_compute; reflexivity |].
  repeat split; vm_compute; reflexivity.
Qed.

Section RoundTrip.

Variables (u : R) (fl : R -> R).
Hypothesis Hfl : rounding u fl.

(** Multiplying by [w] and dividing by it again, or the other way round,
    with a rounding after each operation, gives back [e] up to three unit
    roundoffs. *)
Lemma times_then_over (e w : R) :
  0 <= e -> 0 < w -> Rabs (fl (fl (e * w) / w) - e) <= 3 * u * e.
Proof.
  intros He Hw.
  pose proof (unit_roundoff_range _ _ Hfl) as Hu.
  pose proof (fl_near_nonneg u fl Hfl (e * w) ltac:(nra)) as Hs.
  assert (Hq : e * (1 - u) <= fl (e * w) / w <= e * (1 + u)).
  { split.
    - apply (Rmult_le_reg_r w); [assumption |].
      unfold Rdiv; rewrite (Rmult_assoc (fl _)), Rinv_l by lra; lra.
    - apply (Rmult_le_reg_r w); [assumption |].
      unfold Rdiv; rewrite (Rmult_assoc (fl _)), Rinv_l by lra; lra. }
  assert (Hq0 : 0 <= fl (e * w) / w) by nra.
  pose proof (fl_near_nonneg u fl Hfl _ Hq0) as Hr.
  assert (Hue : 0 <= u * e) by nra.
  assert (Huue : u * (u * e) <= / 100 * (u * e)) by nra.
  apply Rabs_le; split; nra.
Qed.

Lemma over_then_times (e w : R) :
  0 <= e -> 0 < w -> Rabs (fl (fl (e / w) * w) - e) <= 3 * u * e.
Proof.
  intros He Hw.
  pose proof (unit_roundoff_range _ _ Hfl) as Hu.
  assert (Hew : 0 <= e / w) by (apply Rdiv_nonneg; lra).
  pose proof (fl_near_nonneg u fl Hfl (e / w) Hew) as Hs.
  assert (Hback : e / w * w = e) by (field; lra).
  assert (Hq : e * (1 - u) <= fl (e / w) * w <= e * (1 + u)) by nra.
  assert (Hq0 : 0 <= fl (e / w) * w) by nra.
  pose proof (fl_near_nonneg u fl Hfl _ Hq0) as Hr.
  assert (Hue : 0 <= u * e) by nra.
  assert (Huue : u * (u * e) <= / 100 * (u * e)) by nra.
  apply Rabs_le; split; nra.
Qed.

(** C4, amended.  For a battery with a positive one-way efficiency and an
    offered energy [E >= 0], when neither the capacity binds in [charge(E)]
    nor the floor in the [discharge(E)] that follows: the discharge
    delivers approximately [E] (within floating tolerance: a relative
    error of at most three unit roundoffs), not [E x efficiency], and the
    charge takes approximately [E] from the source.  The loss of the round
    trip is in the store: it gains about [E x one-way efficiency] and then
    gives up about [E / one-way efficiency]. *)
Theorem round_trip_up_to_rounding (b0 : @Fl.Battery (rounded fl)) (E : R) :
  0 < Fl._one_way_efficiency b0 ->
  0 <= E ->
  let owe := Fl._one_way_efficiency b0 in
  let stored := fl (E * owe) in
  let extracted := fl (E / owe) in
  stored <= fl (Fl._capacity_kwh b0 - Fl._energy_kwh b0) ->
  extracted
    <= fl (fl (Fl._energy_kwh b0 + stored) - Fl._min_energy_kwh b0) ->
  exists consumed b1 delivered b2,
    Fl.charge (ops := rounded fl) E b0 = (Ok consumed, b1) /\
    Fl.discharge (ops := rounded fl) E b1 = (Ok delivered, b2) /\
    Rabs (delivered - E) <= 3 * u * E /\
    Rabs (consumed - E) <= 3 * u * E /\
    Fl._energy_kwh b1 = fl (Fl._energy_kwh b0 + stored) /\
    Fl._energy_kwh b2 = fl (Fl._energy_kwh b1 - extracted) /\
    Rabs (stored - E * owe) <= u * (E * owe) /\
    Rabs (extracted - E / owe) <= u * (E / owe).
Proof.
  intros Howe HE; cbv zeta; intros Hcap Hfloor.
  pose proof (unit_roundoff_range _ _ Hfl) as Hu.
  rewrite rounded_charge_spec by lra; cbv zeta.
  rewrite Rmin_left by assumption.
  do 2 eexists;
    exists (fl (fl (E / Fl._one_way_efficiency b0)
                * Fl._one_way_efficiency b0));
    eexists.
  split; [reflexivity |].
  split.
  { rewrite rounded_discharge_spec by (unfold Fl.set_energy_kwh; cbn; lra);
      cbv zeta.
    cbn; rewrite Rmin_left by assumption; reflexivity. }
  split; [apply over_then_times; assumption |].
  split; [apply times_then_over; assumption |].
  split; [reflexivity |]; split; [reflexivity |].
  assert (Hp : 0 <= E * Fl._one_way_efficiency b0) by nra.
  assert (Hq : 0 <= E / Fl._one_way_efficiency b0)
    by (apply Rdiv_nonneg; lra).
  split.
  - pose proof (fl_error _ _ Hfl (E * Fl._one_way_efficiency b0)) as He.
    rewrite (Rabs_pos_eq (E * _)) in He by assumption; exact He.
  - pose proof (fl_error _ _ Hfl (E / Fl._one_way_efficiency b0)) as He.
    rewrite (Rabs_pos_eq (E / _)) in He by assumption; exact He.
Qed.

End RoundTrip.



(* ===================================================================== *)
(** * Battery on floats: accounting, saturation and state of charge *)
(* ===================================================================== *)

Section FloatAccounting.

Variables (u : R) (fl : R -> R).
Hypothesis Hfl : rounding u fl.

(** What is computed as headroom, or as available above the floor, is not
    below [-4 u capacity (1 + u)]; divided or multiplied by the one-way
    efficiency and rounded again it is not below [-5 u capacity] divided
    or multiplied by it. *)
Lemma small_negative (x k : R) :
  0 <= k -> - (4 * u * k) <= x -> - (4 * u * k * (1 + u)) <= fl x.
Proof.
  intros Hk Hx.
  pose proof (unit_roundoff_range _ _ Hfl) as Hu.
  assert (Huk : 0 <= u * k) by nra.
  pose proof (fl_monotone _ _ Hfl _ _ Hx) as Hm.
  pose proof (fl_bounds u fl Hfl (- (4 * u * k)) (4 * u * k)) as Hb.
  rewrite Rabs_Ropp, Rabs_pos_eq in Hb by lra.
  specialize (Hb (Rle_refl _)); nra.
Qed.

Lemma small_negative_again (x k : R) :
  0 <= k -> - (4 * u * k * (1 + u)) <= x -> - (5 * u * k) <= fl x.
Proof.
  intros Hk Hx.
  pose proof (unit_roundoff_range _ _ Hfl) as Hu.
  assert (Huk : 0 <= u * k) by nra.
  assert (Huuk : u * (u * k) <= / 100 * (u * k)) by nra.
  assert (Huuuk : 0 <= u * (u * k)) by nra.
  assert (Hu3 : u * (u * (u * k)) <= / 100 * (u * (u * k))) by nra.
  pose proof (fl_monotone _ _ Hfl _ _ Hx) as Hm.
  pose proof (fl_bounds u fl Hfl (- (4 * u * k * (1 + u)))
                (4 * u * k * (1 + u))) as Hb.
  rewrite Rabs_Ropp, Rabs_pos_eq in Hb by nra.
  specialize (Hb (Rle_refl _)); nra.
Qed.

(** X1. [charge] on floats, for a battery within its bounds up to rounding
    and a non-negative offer: the energy taken from the source is the
    offer up to three unit roundoffs, or less; it is less only when the
    battery ends full, within [4 u capacity] of its capacity; and it is
    never below [-5 u capacity / one-way efficiency] (a battery that
    rounding left a hair above its capacity gives that hair back).  Here [u] is the unit roundoff of the
    arithmetic, [2^-53] on binary64. *)
Theorem charge_accounting (b : @Fl.Battery (rounded fl)) (e : R) :
  well_formed b -> within_bounds_up_to u b -> 0 <= e ->
  exists consumed b',
    Fl.charge (ops := rounded fl) e b = (Ok consumed, b') /\
    consumed <= e * (1 + 3 * u) /\
    - (5 * u * (Fl._capacity_kwh b / Fl._one_way_efficiency b)) <= consumed /\
    (consumed < e * (1 - 3 * u) ->
     Rabs (Fl._energy_kwh b' - Fl._capacity_kwh b)
       <= 4 * u * Fl._capacity_kwh b) /\
    Fl._capacity_kwh b' = Fl._capacity_kwh b /\
    Fl._min_energy_kwh b' = Fl._min_energy_kwh b /\
    Fl._one_way_efficiency b' = Fl._one_way_efficiency b.
Proof.
  intros Hwf Hb He.
  pose proof (refill_within u fl Hfl b Hwf Hb) as Hfill.
  pose proof Hwf as (Howe & Hm & Hrep).
  pose proof Hb as [Hlo Hhi].
  pose proof (unit_roundoff_range _ _ Hfl) as Hu.
  pose proof (times_then_over u fl Hfl e _ He Howe) as Hback.
  apply Rabs_le_bounds in Hback.
  assert (Hk : 0 <= Fl._capacity_kwh b / Fl._one_way_efficiency b)
    by (apply Rdiv_nonneg; lra).
  assert (Huk : 0 <= u * (Fl._capacity_kwh b / Fl._one_way_efficiency b))
    by nra.
  rewrite rounded_charge_spec by lra; cbv zeta.
  do 2 eexists; split; [reflexivity |].
  cbn [Fl._energy_kwh Fl._capacity_kwh Fl._min_energy_kwh
       Fl._one_way_efficiency Fl.set_energy_kwh].
  unfold Rmin; destruct (Rle_dec _ _) as [Hle | Hgt].
  - (* the offer fits *)
    assert (Hue : 0 <= u * e) by nra.
    repeat split; try nra; intros Hless; exfalso; nra.
  - (* the headroom binds *)
    repeat split.
    + assert (Hmono : fl (Fl._capacity_kwh b - Fl._energy_kwh b)
                        / Fl._one_way_efficiency b
                      <= fl (e * Fl._one_way_efficiency b)
                         / Fl._one_way_efficiency b)
        by (apply Rdiv_le_compat_pos; lra).
      pose proof (fl_monotone _ _ Hfl _ _ Hmono); lra.
    + assert (Hspace : - (4 * u * Fl._capacity_kwh b * (1 + u))
                       <= fl (Fl._capacity_kwh b - Fl._energy_kwh b))
        by (apply small_negative; lra).
      apply small_negative_again; [assumption |].
      replace (4 * u * (Fl._capacity_kwh b / Fl._one_way_efficiency b)
               * (1 + u))
        with (4 * u * Fl._capacity_kwh b * (1 + u)
              / Fl._one_way_efficiency b) by (field; lra).
      rewrite <- Rdiv_opp_l.
      apply Rdiv_le_compat_pos; lra.
    + intros _; exact Hfill.
Qed.

(** X2. [discharge] on floats, for a battery within its bounds up to
    rounding and a non-negative request: the energy delivered is the
    request up to three unit roundoffs, or less; it is less only when the
    battery ends at its floor, within [4 u capacity] of it; and it is never
    below [-5 u capacity x one-way efficiency].  Here [u] is the unit roundoff of the
    arithmetic, [2^-53] on binary64. *)
Theorem discharge_accounting (b : @Fl.Battery (rounded fl)) (e : R) :
  well_formed b -> within_bounds_up_to u b -> 0 <= e ->
  exists supplied b',
    Fl.discharge (ops := rounded fl) e b = (Ok supplied, b') /\
    supplied <= e * (1 + 3 * u) /\
    - (5 * u * (Fl._capacity_kwh b * Fl._one_way_efficiency b)) <= supplied /\
    (supplied < e * (1 - 3 * u) ->
     Rabs (Fl._energy_kwh b' - Fl._min_energy_kwh b)
       <= 4 * u * Fl._capacity_kwh b) /\
    Fl._capacity_kwh b' = Fl._capacity_kwh b /\
    Fl._min_energy_kwh b' = Fl._min_energy_kwh b /\
    Fl._one_way_efficiency b' = Fl._one_way_efficiency b.
Proof.
  intros Hwf Hb He.
  pose proof (drain_within u fl Hfl b Hwf Hb) as Hdrain.
  pose proof Hwf as (Howe & Hm & Hrep).
  pose proof Hb as [Hlo Hhi].
  pose proof (unit_roundoff_range _ _ Hfl) as Hu.
  pose proof (over_then_times u fl Hfl e _ He Howe) as Hback.
  apply Rabs_le_bounds in Hback.
  assert (Hk : 0 <= Fl._capacity_kwh b * Fl._one_way_efficiency b) by nra.
  assert (Huk : 0 <= u * (Fl._capacity_kwh b * Fl._one_way_efficiency b))
    by nra.
  rewrite rounded_discharge_spec by lra; cbv zeta.
  do 2 eexists; split; [reflexivity |].
  cbn [Fl._energy_kwh Fl._capacity_kwh Fl._min_energy_kwh
       Fl._one_way_efficiency Fl.set_energy_kwh].
  unfold Rmin; destruct (Rle_dec _ _) as [Hle | Hgt].
  - (* the request is available *)
    assert (Hue : 0 <= u * e) by nra.
    repeat split; try nra; intros Hless; exfalso; nra.
  - (* the floor binds *)
    repeat split.
    + assert (Hmono : fl (Fl._energy_kwh b - Fl._min_energy_kwh b)
                        * Fl._one_way_efficiency b
                      <= fl (e / Fl._one_way_efficiency b)
                         * Fl._one_way_efficiency b) by nra.
      pose proof (fl_monotone _ _ Hfl _ _ Hmono); lra.
    + assert (Havail : - (4 * u * Fl._capacity_kwh b * (1 + u))
                       <= fl (Fl._energy_kwh b - Fl._min_energy_kwh b))
        by (apply small_negative; lra).
      apply small_negative_again; [assumption |].
      nra.
    + intros _; exact Hdrain.
Qed.

(** The state of charge computed by [get_soc], from bounds on the ratio of
    the stored energy to the capacity. *)
Lemma rounded_soc_range (b : @Fl.Battery (rounded fl)) (lo : R) :
  0 < Fl._capacity_kwh b ->
  0 <= lo <= 1 ->
  lo * Fl._capacity_kwh b - 5 * u * Fl._capacity_kwh b <= Fl._energy_kwh b ->
  Fl._energy_kwh b <= Fl._capacity_kwh b + 4 * u * Fl._capacity_kwh b ->
  exists soc,
    Fl.get_soc (ops := rounded fl) b = (Ok soc, b) /\
    100 * lo - 1000 * u <= soc <= 100 + 1000 * u.
Proof.
  intros Hcap Hlo Hen_lo Hen_hi.
  pose proof (unit_roundoff_range _ _ Hfl) as Hu.
  unfold Fl.get_soc, Fl.truediv, bind, get, ret; cbn.
  rewrite eqb_false by lra.
  eexists; split; [reflexivity |].
  set (q := Fl._energy_kwh b / Fl._capacity_kwh b).
  assert (Hq : lo - 5 * u <= q <= 1 + 4 * u).
  { unfold q; split.
    - apply (Rmult_le_reg_r (Fl._capacity_kwh b)); [assumption |].
      unfold Rdiv; rewrite (Rmult_assoc (Fl._energy_kwh b)), Rinv_l by lra.
      lra.
    - apply (Rmult_le_reg_r (Fl._capacity_kwh b)); [assumption |].
      unfold Rdiv; rewrite (Rmult_assoc (Fl._energy_kwh b)), Rinv_l by lra.
      lra. }
  clearbody q.
  assert (Hqabs : Rabs q <= 1 + 5 * u) by (apply Rabs_le; lra).
  pose proof (fl_bounds u fl Hfl q _ Hqabs) as Hfq.
  assert (Hfq' : lo - 7 * u <= fl q <= 1 + 6 * u) by nra.
  clear Hfq.
  pose proof (fl_near_nonneg u fl Hfl 100 ltac:(lra)) as Hh.
  set (fq := fl q) in *; set (h := fl 100) in *; clearbody fq h.
  assert (Hp : 100 * lo - 810 * u <= fq * h <= 100 + 710 * u).
  { assert (Hd : - (110 * u) <= fq * (h - 100) <= 110 * u) by nra.
    nra. }
  assert (Hpabs : Rabs (fq * h) <= 110) by (apply Rabs_le; lra).
  pose proof (fl_bounds u fl Hfl (fq * h) _ Hpabs) as Hsoc.
  lra.
Qed.

(** X5. A charge that covers the headroom fills the battery up to
    rounding: afterwards the stored energy is within [4 u capacity] of the
    capacity, [get_soc()] is within [1000 u] of 100, [is_full()] is true
    (for a unit roundoff of at most 1/20000), and a further charge with a
    non-negative offer takes at most [5 u capacity / one-way efficiency]
    from the source, in absolute value, and leaves the battery full up to
    rounding.  Here [u] is the unit roundoff of the
    arithmetic, [2^-53] on binary64. *)
Theorem saturating_charge (b : @Fl.Battery (rounded fl)) (e : R) :
  well_formed b -> within_bounds_up_to u b -> 0 < Fl._capacity_kwh b ->
  0 <= e ->
  fl (Fl._capacity_kwh b - Fl._energy_kwh b)
    <= fl (e * Fl._one_way_efficiency b) ->
  exists consumed b' soc,
    Fl.charge (ops := rounded fl) e b = (Ok consumed, b') /\
    Rabs (Fl._energy_kwh b' - Fl._capacity_kwh b)
      <= 4 * u * Fl._capacity_kwh b /\
    Fl.get_soc (ops := rounded fl) b' = (Ok soc, b') /\
    Rabs (soc - 100) <= 1000 * u /\
    (u <= / 20000 -> Fl.is_full (ops := rounded fl) b' = (Ok true, b')) /\
    forall a, 0 <= a ->
      exists consumed' b'',
        Fl.charge (ops := rounded fl) a b' = (Ok consumed', b'') /\
        Rabs consumed'
          <= 5 * u * (Fl._capacity_kwh b / Fl._one_way_efficiency b) /\
        Rabs (Fl._energy_kwh b'' - Fl._capacity_kwh b)
          <= 4 * u * Fl._capacity_kwh b.
Proof.
  intros Hwf Hb Hcap He Hcover.
  pose proof (unit_roundoff_range _ _ Hfl) as Hu.
  pose proof (refill_within u fl Hfl b Hwf Hb) as Hfill.
  destruct (rounded_call_keeps u fl Hfl (Fl.Charge (ops := rounded fl) e) b
              Hwf Hb He)
    as (consumed & b' & E & Hwf' & Hb' & Kc & Km & Ko).
  cbn [Fl.call] in E.
  assert (Hen' : Fl._energy_kwh b'
                 = fl (Fl._energy_kwh b
                       + fl (Fl._capacity_kwh b - Fl._energy_kwh b))).
  { pose proof Hwf as (Howe & _).
    rewrite rounded_charge_spec in E by lra; cbv zeta in E.
    injection E as _ <-; cbn.
    unfold Rmin; destruct (Rle_dec _ _) as [Hle | Hgt]; [| reflexivity].
    replace (fl (e * Fl._one_way_efficiency b))
      with (fl (Fl._capacity_kwh b - Fl._energy_kwh b)) by lra.
    reflexivity. }
  assert (Hfull : Rabs (Fl._energy_kwh b' - Fl._capacity_kwh b)
                  <= 4 * u * Fl._capacity_kwh b)
    by (rewrite Hen'; exact Hfill).
  pose proof (Rabs_le_bounds _ _ Hfull) as Hfull'.
  assert (Huc : 0 <= u * Fl._capacity_kwh b) by nra.
  destruct (rounded_soc_range b' 1) as (soc & Esoc & Hsoc);
    try (rewrite ?Kc; lra).
  exists consumed, b', soc.
  split; [exact E |]; split; [exact Hfull |]; split; [exact Esoc |].
  split; [apply Rabs_le; lra |].
  split.
  { intros Hsmall; unfold Fl.is_full, bind; rewrite Esoc; cbn.
    pose proof (fl_near_nonneg u fl Hfl 99.9 ltac:(lra)) as Ht.
    unfold ret; destruct (leb_spec (fl 99.9) soc) as [_ | Hno];
      [reflexivity | exfalso; lra]. }
  intros a Ha.
  pose proof Hwf' as (Howe' & Hm' & Hrep').
  pose proof (refill_within u fl Hfl b' Hwf' Hb') as Hfill2.
  rewrite Kc in Hfill2.
  rewrite rounded_charge_spec by lra; cbv zeta.
  do 2 eexists; split; [reflexivity |].
  cbn [Fl._energy_kwh Fl.set_energy_kwh].
  rewrite Kc, Ko in *.
  assert (Hk : 0 <= Fl._capacity_kwh b / Fl._one_way_efficiency b)
    by (apply Rdiv_nonneg; lra).
  assert (Huk : 0 <= u * (Fl._capacity_kwh b / Fl._one_way_efficiency b))
    by nra.
  assert (Husable : 0 <= fl (a * Fl._one_way_efficiency b))
    by (apply (fl_nonneg u fl Hfl); nra).
  (* the headroom of a full battery is a rounding error *)
  assert (Hgap : Rabs (Fl._capacity_kwh b - Fl._energy_kwh b')
                 <= 4 * u * Fl._capacity_kwh b).
  { rewrite Rabs_minus_sym; exact Hfull. }
  pose proof (fl_bounds u fl Hfl _ _ Hgap) as Hspace.
  apply Rabs_le_bounds in Hgap.
  assert (Hstore :
            - (4 * u * Fl._capacity_kwh b * (1 + u))
            <= Rmin (fl (a * Fl._one_way_efficiency b))
                 (fl (Fl._capacity_kwh b - Fl._energy_kwh b'))
            <= 4 * u * Fl._capacity_kwh b * (1 + u)).
  { unfold Rmin; destruct (Rle_dec _ _); nra. }
  split.
  - set (store := Rmin _ _) in *; clearbody store.
    assert (Hq : - (4 * u * (Fl._capacity_kwh b / Fl._one_way_efficiency b)
                    * (1 + u))
                 <= store / Fl._one_way_efficiency b
                 <= 4 * u * (Fl._capacity_kwh b / Fl._one_way_efficiency b)
                    * (1 + u)).
    { replace (4 * u * (Fl._capacity_kwh b / Fl._one_way_efficiency b)
               * (1 + u))
        with (4 * u * Fl._capacity_kwh b * (1 + u)
              / Fl._one_way_efficiency b) by (field; lra).
      rewrite <- Rdiv_opp_l.
      split; apply Rdiv_le_compat_pos; lra. }
    assert (Hqabs : Rabs (store / Fl._one_way_efficiency b)
                    <= 4 * u * (Fl._capacity_kwh b
                                / Fl._one_way_efficiency b) * (1 + u))
      by (apply Rabs_le; lra).
    pose proof (fl_bounds u fl Hfl _ _ Hqabs) as Hc.
    assert (Huuk : u * (u * (Fl._capacity_kwh b / Fl._one_way_efficiency b))
                   <= / 100 * (u * (Fl._capacity_kwh b
                                    / Fl._one_way_efficiency b))) by nra.
    assert (Hu2k : 0 <= u * (u * (Fl._capacity_kwh b
                                  / Fl._one_way_efficiency b))) by nra.
    assert (Hu3k : u * (u * (u * (Fl._capacity_kwh b
                                  / Fl._one_way_efficiency b)))
                   <= / 100 * (u * (u * (Fl._capacity_kwh b
                                         / Fl._one_way_efficiency b))))
      by nra.
    apply Rabs_le; nra.
  - unfold Rmin; destruct (Rle_dec _ _) as [Hle | Hgt]; [| exact Hfill2].
    apply Rabs_le_bounds in Hfill2.
    assert (H1 : fl (Fl._energy_kwh b')
                 <= fl (Fl._energy_kwh b'
                        + fl (a * Fl._one_way_efficiency b)))
      by (apply (fl_monotone _ _ Hfl); lra).
    assert (H2 : fl (Fl._energy_kwh b'
                     + fl (a * Fl._one_way_efficiency b))
                 <= fl (Fl._energy_kwh b'
                        + fl (Fl._capacity_kwh b - Fl._energy_kwh b')))
      by (apply (fl_monotone _ _ Hfl); lra).
    rewrite Hrep' in H1.
    apply Rabs_le; lra.
Qed.

(** X6. A discharge that asks for at least what is above the floor empties
    the battery up to rounding: afterwards the stored energy is within
    [4 u capacity] of the floor, and a further discharge with a
    non-negative request delivers at most
    [5 u capacity x one-way efficiency], in absolute value, and leaves the
    battery at its floor up to rounding.  Here [u] is the unit roundoff of the
    arithmetic, [2^-53] on binary64. *)
Theorem draining_discharge (b : @Fl.Battery (rounded fl)) (e : R) :
  well_formed b -> within_bounds_up_to u b -> 0 <= e ->
  fl (Fl._energy_kwh b - Fl._min_energy_kwh b)
    <= fl (e / Fl._one_way_efficiency b) ->
  exists supplied b',
    Fl.discharge (ops := rounded fl) e b = (Ok supplied, b') /\
    Rabs (Fl._energy_kwh b' - Fl._min_energy_kwh b)
      <= 4 * u * Fl._capacity_kwh b /\
    forall a, 0 <= a ->
      exists supplied' b'',
        Fl.discharge (ops := rounded fl) a b' = (Ok supplied', b'') /\
        Rabs supplied'
          <= 5 * u * (Fl._capacity_kwh b * Fl._one_way_efficiency b) /\
        Rabs (Fl._energy_kwh b'' - Fl._min_energy_kwh b)
          <= 4 * u * Fl._capacity_kwh b.
Proof.
  intros Hwf Hb He Hcover.
  pose proof (unit_roundoff_range _ _ Hfl) as Hu.
  pose proof (drain_within u fl Hfl b Hwf Hb) as Hdrain.
  destruct (rounded_call_keeps u fl Hfl (Fl.Discharge (ops := rounded fl) e)
              b Hwf Hb He)
    as (supplied & b' & E & Hwf' & Hb' & Kc & Km & Ko).
  cbn [Fl.call] in E.
  assert (Hen' : Fl._energy_kwh b'
                 = fl (Fl._energy_kwh b
                       - fl (Fl._energy_kwh b - Fl._min_energy_kwh b))).
  { pose proof Hwf as (Howe & _).
    rewrite rounded_discharge_spec in E by lra; cbv zeta in E.
    injection E as _ <-; cbn.
    unfold Rmin; destruct (Rle_dec _ _) as [Hle | Hgt]; [| reflexivity].
    replace (fl (e / Fl._one_way_efficiency b))
      with (fl (Fl._energy_kwh b - Fl._min_energy_kwh b)) by lra.
    reflexivity. }
  assert (Hempty : Rabs (Fl._energy_kwh b' - Fl._min_energy_kwh b)
                   <= 4 * u * Fl._capacity_kwh b)
    by (rewrite Hen'; exact Hdrain).
  exists supplied, b'.
  split; [exact E |]; split; [exact Hempty |].
  intros a Ha.
  pose proof Hwf' as (Howe' & Hm' & Hrep').
  pose proof (drain_within u fl Hfl b' Hwf' Hb') as Hdrain2.
  rewrite Kc, Km in Hdrain2.
  rewrite rounded_discharge_spec by lra; cbv zeta.
  do 2 eexists; split; [reflexivity |].
  cbn [Fl._energy_kwh Fl.set_energy_kwh].
  rewrite Kc, Km, Ko in *.
  assert (Hcap : 0 <= Fl._capacity_kwh b) by lra.
  assert (Huc : 0 <= u * Fl._capacity_kwh b) by nra.
  assert (Hk : 0 <= Fl._capacity_kwh b * Fl._one_way_efficiency b) by nra.
  assert (Huk : 0 <= u * (Fl._capacity_kwh b * Fl._one_way_efficiency b))
    by nra.
  assert (Hreq : 0 <= fl (a / Fl._one_way_efficiency b))
    by (apply (fl_nonneg u fl Hfl), Rdiv_nonneg; lra).
  pose proof (fl_bounds u fl Hfl _ _ Hempty) as Havail.
  pose proof (Rabs_le_bounds _ _ Hempty) as Hempty'.
  assert (Hext :
            - (4 * u * Fl._capacity_kwh b * (1 + u))
            <= Rmin (fl (a / Fl._one_way_efficiency b))
                 (fl (Fl._energy_kwh b' - Fl._min_energy_kwh b))
            <= 4 * u * Fl._capacity_kwh b * (1 + u)).
  { unfold Rmin; destruct (Rle_dec _ _); nra. }
  split.
  - set (ext := Rmin _ _) in *; clearbody ext.
    assert (Hq : - (4 * u * (Fl._capacity_kwh b * Fl._one_way_efficiency b)
                    * (1 + u))
                 <= ext * Fl._one_way_efficiency b
                 <= 4 * u * (Fl._capacity_kwh b * Fl._one_way_efficiency b)
                    * (1 + u)) by nra.
    assert (Hqabs : Rabs (ext * Fl._one_way_efficiency b)
                    <= 4 * u * (Fl._capacity_kwh b
                                * Fl._one_way_efficiency b) * (1 + u))
      by (apply Rabs_le; lra).
    pose proof (fl_bounds u fl Hfl _ _ Hqabs) as Hc.
    assert (Huuk : u * (u * (Fl._capacity_kwh b * Fl._one_way_efficiency b))
                   <= / 100 * (u * (Fl._capacity_kwh b
                                    * Fl._one_way_efficiency b))) by nra.
    assert (Hu2k : 0 <= u * (u * (Fl._capacity_kwh b
                                  * Fl._one_way_efficiency b))) by nra.
    assert (Hu3k : u * (u * (u * (Fl._capacity_kwh b
                                  * Fl._one_way_efficiency b)))
                   <= / 100 * (u * (u * (Fl._capacity_kwh b
                                         * Fl._one_way_efficiency b))))
      by nra.
    apply Rabs_le; nra.
  - unfold Rmin; destruct (Rle_dec _ _) as [Hle | Hgt]; [| exact Hdrain2].
    apply Rabs_le_bounds in Hdrain2.
    assert (H1 : fl (Fl._energy_kwh b'
                     - fl (a / Fl._one_way_efficiency b))
                 <= fl (Fl._energy_kwh b'))
      by (apply (fl_monotone _ _ Hfl); lra).
    assert (H2 : fl (Fl._energy_kwh b'
                     - fl (Fl._energy_kwh b' - Fl._min_energy_kwh b))
                 <= fl (Fl._energy_kwh b'
                        - fl (a / Fl._one_way_efficiency b)))
      by (apply (fl_monotone _ _ Hfl); lra).
    rewrite Hrep' in H1.
    apply Rabs_le; lra.
Qed.

(** X7. The state of charge on floats: for a battery built with
    [capacity_kwh > 0], [0 < efficiency <= 1] and [0 <= min_soc <= 0.5],
    after any finite sequence of [charge] and [discharge] calls with
    non-negative arguments [get_soc()] returns a percentage between
    [100 x min_soc] and 100, up to [1000 u].  Here [u] is the unit roundoff of the
    arithmetic, [2^-53] on binary64. *)
Theorem get_soc_range
    (capacity_kwh efficiency min_soc : R)
    (cs : list (@Fl.battery_call (rounded fl))) :
  capacity_kwh > 0 -> 0 < efficiency <= 1 -> 0 <= min_soc <= 0.5 ->
  Forall (fun c : @Fl.battery_call (rounded fl) => 0 <= Fl.call_arg c) cs ->
  exists (b0 : @Fl.Battery (rounded fl)) outs b soc,
    Fl.__init__ (ops := rounded fl) capacity_kwh efficiency min_soc = Ok b0 /\
    Fl.calls cs b0 = (Ok outs, b) /\
    Fl.get_soc (ops := rounded fl) b = (Ok soc, b) /\
    100 * min_soc - 1000 * u <= soc <= 100 + 1000 * u.
Proof.
  intros Hcap Heff Hsoc Hargs.
  pose proof (unit_roundoff_range _ _ Hfl) as Hu.
  destruct (rounded_init u fl Hfl capacity_kwh efficiency min_soc Hcap
              ltac:(lra) Hsoc)
    as (b0 & E0 & Hwf0 & Hb0 & Kc & Km & _).
  destruct (rounded_calls_keep u fl Hfl cs b0 Hwf0 Hb0 Hargs)
    as (outs & b & E & _ & [Hlo Hhi] & Lc & Lm & _).
  rewrite Lm, Km, Lc, Kc in Hlo; rewrite Lc, Kc in Hhi.
  assert (Hcm : 0 <= capacity_kwh * min_soc) by nra.
  pose proof (fl_near_nonneg u fl Hfl _ Hcm) as Hmen.
  assert (Huc : 0 <= u * capacity_kwh) by nra.
  assert (Hucm : u * (capacity_kwh * min_soc) <= u * capacity_kwh * 0.5)
    by nra.
  destruct (rounded_soc_range b min_soc) as (soc & Esoc & Hrange);
    try (rewrite ?Lc, ?Kc; nra).
  exists b0, outs, b, soc.
  repeat split; try assumption; lra.
Qed.

End FloatAccounting.


(* ===================================================================== *)
(** * Inverter.update on floats *)
(* ===================================================================== *)

Section FloatRecovery.

Variables (u : R) (fl : R -> R).
Hypothesis Hfl : rounding u fl.

Lemma rounded_update_spec (h : R) (c : @Fl.FailureClock (rounded fl)) :
  Fl.update (ops := rounded fl) h c =
    (Ok tt,
     if Fl._is_failing c then
       if leb (fl (Fl._failure_hours_remaining c - h)) 0
       then Fl.mkFailureClock (ops := rounded fl) false 0
       else Fl.mkFailureClock (ops := rounded fl) true
              (fl (Fl._failure_hours_remaining c - h))
     else c).
Proof.
  unfold Fl.update; cbv [bind get put ret].
  destruct (Fl._is_failing c) eqn:E; [| reflexivity].
  cbn; destruct (leb _ 0); reflexivity.
Qed.

(** After [k] updates of a failure of [r] hours: either the clock still
    runs, and the remaining time is the exact one up to [k u r], or the
    inverter has recovered, which cannot happen before
    [k dt >= r (1 - k u)]. *)
Lemma update_keeps_track (dt r : R) (k : nat)
    (c : @Fl.FailureClock (rounded fl)) :
  0 < dt -> 0 < r ->
  (Fl._is_failing c = true /\
   0 < Fl._failure_hours_remaining c <= r /\
   fl (Fl._failure_hours_remaining c) = Fl._failure_hours_remaining c /\
   Rabs (Fl._failure_hours_remaining c - (r - INR k * dt)) <= INR k * u * r)
  \/ (Fl._is_failing c = false /\ Fl._failure_hours_remaining c = 0 /\
      r * (1 - INR k * u) <= INR k * dt) ->
  exists c',
    Fl.update (ops := rounded fl) dt c = (Ok tt, c') /\
    ((Fl._is_failing c' = true /\
      0 < Fl._failure_hours_remaining c' <= r /\
      fl (Fl._failure_hours_remaining c') = Fl._failure_hours_remaining c' /\
      Rabs (Fl._failure_hours_remaining c' - (r - INR (S k) * dt))
        <= INR (S k) * u * r)
     \/ (Fl._is_failing c' = false /\ Fl._failure_hours_remaining c' = 0 /\
         r * (1 - INR (S k) * u) <= INR (S k) * dt)).
Proof.
  intros Hdt Hr Hinv.
  pose proof (unit_roundoff_range _ _ Hfl) as Hu.
  pose proof (pos_INR k) as Hk.
  assert (Hur : 0 <= u * r) by nra.
  assert (Hkur : 0 <= INR k * (u * r)) by nra.
  rewrite rounded_update_spec, S_INR.
  eexists; split; [reflexivity |].
  destruct Hinv as [(Hf & Hrem & Hrep & Herr) | (Hf & Hrem & Hlate)];
    rewrite Hf.
  - apply Rabs_le_bounds in Herr.
    set (x := Fl._failure_hours_remaining c - dt).
    destruct (leb_spec (fl x) 0) as [Hdone | Hrun]; cbn.
    + (* the clock has run out *)
      right; split; [reflexivity |]; split; [reflexivity |].
      assert (Hx : x <= 0).
      { destruct (Rle_or_lt x 0) as [Hle | Hgt]; [assumption |].
        pose proof (fl_pos u fl Hfl x Hgt); lra. }
      unfold x in Hx; nra.
    + (* it still runs *)
      left; split; [reflexivity |].
      assert (Hx : 0 < x).
      { destruct (Rle_or_lt x 0) as [Hle | Hgt]; [| assumption].
        pose proof (fl_nonpos u fl Hfl x Hle); lra. }
      pose proof (fl_near_nonneg u fl Hfl x ltac:(lra)) as Hfx.
      assert (Hmono : fl x <= fl (Fl._failure_hours_remaining c))
        by (apply (fl_monotone _ _ Hfl); unfold x; lra).
      rewrite Hrep in Hmono.
      split; [lra |].
      split; [apply (fl_idempotent _ _ Hfl) |].
      assert (Hxu : x * u <= r * u) by (unfold x in *; nra).
      apply Rabs_le; unfold x in *; nra.
  - right; split; [assumption |]; split; [assumption |]; nra.
Qed.

Lemma updates_keep_track (dt r : R) (n : nat) :
  0 < dt -> 0 < r ->
  forall (k : nat) (c : @Fl.FailureClock (rounded fl)),
    (Fl._is_failing c = true /\
     0 < Fl._failure_hours_remaining c <= r /\
     fl (Fl._failure_hours_remaining c) = Fl._failure_hours_remaining c /\
     Rabs (Fl._failure_hours_remaining c - (r - INR k * dt)) <= INR k * u * r)
    \/ (Fl._is_failing c = false /\ Fl._failure_hours_remaining c = 0 /\
        r * (1 - INR k * u) <= INR k * dt) ->
    exists c',
      Fl.updates (ops := rounded fl) n dt c = (Ok tt, c') /\
      ((Fl._is_failing c' = true /\
        0 < Fl._failure_hours_remaining c' <= r /\
        fl (Fl._failure_hours_remaining c') = Fl._failure_hours_remaining c' /\
        Rabs (Fl._failure_hours_remaining c' - (r - INR (k + n) * dt))
          <= INR (k + n) * u * r)
       \/ (Fl._is_failing c' = false /\ Fl._failure_hours_remaining c' = 0 /\
           r * (1 - INR (k + n) * u) <= INR (k + n) * dt)).
Proof.
  intros Hdt Hr; induction n as [| n IH]; intros k c Hinv.
  - exists c; split; [reflexivity |].
    rewrite Nat.add_0_r; exact Hinv.
  - destruct (update_keeps_track dt r k c Hdt Hr Hinv) as (c1 & E1 & Hinv1).
    destruct (IH (S k) c1 Hinv1) as (c2 & E2 & Hinv2).
    exists c2; split.
    + cbn [Fl.updates]; unfold bind; rewrite E1; exact E2.
    + replace (k + S n)%nat with (S k + n)%nat by lia; exact Hinv2.
Qed.

(** X20. Recovery of a failed inverter on floats: with a failure of
    [r > 0] hours (a float) remaining and updates of [dt > 0] hours each,
    after [n] updates the inverter is operational when
    [n dt >= r (1 + n u)] and still failing when [n dt < r (1 - n u)];
    while it fails the remaining time is [r - n dt] up to [n u r], and
    once it is operational the remaining time is 0.  In between, rounding
    decides.  Here [u] is the unit roundoff of the
    arithmetic, [2^-53] on binary64. *)
Theorem inverter_recovers (n : nat) (dt r : R) :
  0 < dt -> 0 < r -> fl r = r ->
  exists c,
    Fl.updates (ops := rounded fl) n dt
      (Fl.mkFailureClock (ops := rounded fl) true r) = (Ok tt, c) /\
    (r * (1 + INR n * u) <= INR n * dt ->
     Fl._is_failing c = false /\ Fl._failure_hours_remaining c = 0) /\
    (INR n * dt < r * (1 - INR n * u) ->
     Fl._is_failing c = true /\
     Rabs (Fl._failure_hours_remaining c - (r - INR n * dt))
       <= INR n * u * r) /\
    (Fl._is_failing c = false -> Fl._failure_hours_remaining c = 0).
Proof.
  intros Hdt Hr Hrep.
  pose proof (unit_roundoff_range _ _ Hfl) as Hu.
  destruct (updates_keep_track dt r n Hdt Hr 0
              (Fl.mkFailureClock (ops := rounded fl) true r))
    as (c & E & Hinv).
  { left; cbn; repeat split; try lra; try assumption.
    rewrite Rabs_pos_eq; lra || (apply Req_le; lra). }
  cbn [Nat.add] in Hinv.
  exists c; split; [exact E |].
  pose proof (pos_INR n) as Hn.
  destruct Hinv as [(Hf & Hrem & _ & Herr) | (Hf & Hrem & Hlate)].
  - apply Rabs_le_bounds in Herr.
    split; [intros Hlong; exfalso; nra |].
    split; [intros _; split; [assumption | apply Rabs_le; lra] |].
    intros Hop; congruence.
  - split; [intros _; split; assumption |].
    split; [intros Hshort; exfalso; nra |].
    intros _; assumption.
Qed.

End FloatRecovery.


(* ===================================================================== *)
(** * The examples on floats *)
(* ===================================================================== *)

Lemma window_rounding : rounding window_u window.
Proof. apply snap_up_rounding; lra. Qed.

Lemma window_battery_built :
  Fl.__init__ (ops := rounded window) 13.5 0.9 0.05 = Ok window_battery.
Proof.
  pose proof sqrt09_bounds as Hs.
  unfold Fl.__init__, Fl.math_sqrt, window_battery, window; cbn.
  rewrite ltb_false by lra; cbn.
  rewrite (snap_up_inside _ _ (sqrt 0.9)) by lra.
  rewrite (snap_up_outside _ _ 0.5) by lra.
  rewrite (snap_up_outside _ _ (13.5 * 0.5)) by lra.
  rewrite (snap_up_outside _ _ (13.5 * 0.05)) by lra.
  do 2 f_equal; lra.
Qed.

Lemma window_battery_well_formed : well_formed window_battery.
Proof.
  unfold well_formed, window_battery, window; cbn.
  rewrite snap_up_outside by lra; lra.
Qed.

Lemma window_battery_within : within_bounds_up_to window_u window_battery.
Proof.
  unfold within_bounds_up_to, window_battery, window_u; cbn; lra.
Qed.

Lemma round_trip_up_to_rounding_witness :
  exists consumed b1 delivered b2,
    Fl.charge (ops := rounded window) 1 window_battery = (Ok consumed, b1) /\
    Fl.discharge (ops := rounded window) 1 b1 = (Ok delivered, b2) /\
    Rabs (delivered - 1) <= 3 * window_u * 1 /\
    Rabs (consumed - 1) <= 3 * window_u * 1 /\
    Fl._energy_kwh b1
      = window (Fl._energy_kwh window_battery
                + window (1 * Fl._one_way_efficiency window_battery)) /\
    Fl._energy_kwh b2
      = window (Fl._energy_kwh b1
                - window (1 / Fl._one_way_efficiency window_battery)) /\
    Rabs (window (1 * Fl._one_way_efficiency window_battery)
          - 1 * Fl._one_way_efficiency window_battery)
      <= window_u * (1 * Fl._one_way_efficiency window_battery) /\
    Rabs (window (1 / Fl._one_way_efficiency window_battery)
          - 1 / Fl._one_way_efficiency window_battery)
      <= window_u * (1 / Fl._one_way_efficiency window_battery).
Proof.
  assert (Hinv : 1.05 < 1 / 0.9487 < 1.06).
  { split.
    - apply (Rmult_lt_reg_r 0.9487); [lra |].
      unfold Rdiv; rewrite Rmult_assoc, Rinv_l by lra; lra.
    - apply (Rmult_lt_reg_r 0.9487); [lra |].
      unfold Rdiv; rewrite Rmult_assoc, Rinv_l by lra; lra. }
  apply (round_trip_up_to_rounding window_u window window_rounding
           window_battery 1).
  - cbn; lra.
  - lra.
  - unfold window; cbn.
    rewrite (snap_up_inside _ _ (1 * 0.9487)) by lra.
    rewrite (snap_up_outside _ _ (13.5 - 6.75)) by lra; lra.
  - unfold window; cbn.
    rewrite (snap_up_inside _ _ (1 * 0.9487)) by lra.
    rewrite (snap_up_outside _ _ (1 / 0.9487)) by lra.
    rewrite (snap_up_outside _ _ (6.75 + 0.9487)) by lra.
    rewrite (snap_up_outside _ _ (6.75 + 0.9487 - 0.675)) by lra; lra.
Defined.

Lemma charge_accounting_witness :
  exists consumed b',
    Fl.charge (ops := rounded window) 10 window_battery = (Ok consumed, b') /\
    consumed <= 10 * (1 + 3 * window_u) /\
    - (5 * window_u * (Fl._capacity_kwh window_battery
                       / Fl._one_way_efficiency window_battery))
      <= consumed /\
    (consumed < 10 * (1 - 3 * window_u) ->
     Rabs (Fl._energy_kwh b' - Fl._capacity_kwh window_battery)
       <= 4 * window_u * Fl._capacity_kwh window_battery) /\
    Fl._capacity_kwh b' = Fl._capacity_kwh window_battery /\
    Fl._min_energy_kwh b' = Fl._min_energy_kwh window_battery /\
    Fl._one_way_efficiency b' = Fl._one_way_efficiency window_battery.
Proof.
  apply (charge_accounting window_u window window_rounding window_battery 10
           window_battery_well_formed window_battery_within).
  lra.
Defined.

Lemma discharge_accounting_witness :
  exists supplied b',
    Fl.discharge (ops := rounded window) 20 window_battery
      = (Ok supplied, b') /\
    supplied <= 20 * (1 + 3 * window_u) /\
    - (5 * window_u * (Fl._capacity_kwh window_battery
                       * Fl._one_way_efficiency window_battery))
      <= supplied /\
    (supplied < 20 * (1 - 3 * window_u) ->
     Rabs (Fl._energy_kwh b' - Fl._min_energy_kwh window_battery)
       <= 4 * window_u * Fl._capacity_kwh window_battery) /\
    Fl._capacity_kwh b' = Fl._capacity_kwh window_battery /\
    Fl._min_energy_kwh b' = Fl._min_energy_kwh window_battery /\
    Fl._one_way_efficiency b' = Fl._one_way_efficiency window_battery.
Proof.
  apply (discharge_accounting window_u window window_rounding window_battery
           20 window_battery_well_formed window_battery_within).
  lra.
Defined.

Lemma saturating_charge_witness :
  exists consumed b' soc,
    Fl.charge (ops := rounded window) 10 window_battery = (Ok consumed, b') /\
    Rabs (Fl._energy_kwh b' - Fl._capacity_kwh window_battery)
      <= 4 * window_u * Fl._capacity_kwh window_battery /\
    Fl.get_soc (ops := rounded window) b' = (Ok soc, b') /\
    Rabs (soc - 100) <= 1000 * window_u /\
    Fl.is_full (ops := rounded window) b' = (Ok true, b') /\
    forall a, 0 <= a ->
      exists consumed' b'',
        Fl.charge (ops := rounded window) a b' = (Ok consumed', b'') /\
        Rabs consumed'
          <= 5 * window_u * (Fl._capacity_kwh window_battery
                             / Fl._one_way_efficiency window_battery) /\
        Rabs (Fl._energy_kwh b'' - Fl._capacity_kwh window_battery)
          <= 4 * window_u * Fl._capacity_kwh window_battery.
Proof.
  destruct (saturating_charge window_u window window_rounding window_battery
              10 window_battery_well_formed window_battery_within)
    as (consumed & b' & soc & Ec & Hen & Esoc & Hsoc & Hfull & Hnext).
  - cbn; lra.
  - lra.
  - unfold window; cbn.
    rewrite (snap_up_outside _ _ (13.5 - 6.75)) by lra.
    rewrite (snap_up_outside _ _ (10 * 0.9487)) by lra; lra.
  - exists consumed, b', soc.
    repeat (split; [assumption |]).
    split; [apply Hfull; unfold window_u; lra | exact Hnext].
Defined.

Lemma draining_discharge_witness :
  exists supplied b',
    Fl.discharge (ops := rounded window) 20 window_battery
      = (Ok supplied, b') /\
    Rabs (Fl._energy_kwh b' - Fl._min_energy_kwh window_battery)
      <= 4 * window_u * Fl._capacity_kwh window_battery /\
    forall a, 0 <= a ->
      exists supplied' b'',
        Fl.discharge (ops := rounded window) a b' = (Ok supplied', b'') /\
        Rabs supplied'
          <= 5 * window_u * (Fl._capacity_kwh window_battery
                             * Fl._one_way_efficiency window_battery) /\
        Rabs (Fl._energy_kwh b'' - Fl._min_energy_kwh window_battery)
          <= 4 * window_u * Fl._capacity_kwh window_battery.
Proof.
  assert (Hreq : 21 < 20 / 0.9487).
  { apply (Rmult_lt_reg_r 0.9487); [lra |].
    unfold Rdiv; rewrite Rmult_assoc, Rinv_l by lra; lra. }
  apply (draining_discharge window_u window window_rounding window_battery 20
           window_battery_well_formed window_battery_within).
  - lra.
  - unfold window; cbn.
    rewrite (snap_up_outside _ _ (6.75 - 0.675)) by lra.
    rewrite (snap_up_outside _ _ (20 / 0.9487)) by lra; lra.
Defined.

Lemma get_soc_range_witness :
  exists (b0 : @Fl.Battery (rounded window)) outs b soc,
    Fl.__init__ (ops := rounded window) 13.5 0.9 0.05 = Ok b0 /\
    Fl.calls [Fl.Discharge (ops := rounded window) 20;
              Fl.Charge (ops := rounded window) 100] b0 = (Ok outs, b) /\
    Fl.get_soc (ops := rounded window) b = (Ok soc, b) /\
    100 * 0.05 - 1000 * window_u <= soc <= 100 + 1000 * window_u.
Proof.
  apply (get_soc_range window_u window window_rounding 13.5 0.9 0.05);
    try lra.
  repeat constructor; cbn; lra.
Defined.

Lemma inverter_recovers_witness :
  exists c,
    Fl.updates (ops := rounded window) 3 1
      (Fl.mkFailureClock (ops := rounded window) true 2) = (Ok tt, c) /\
    (2 * (1 + INR 3 * window_u) <= INR 3 * 1 ->
     Fl._is_failing c = false /\ Fl._failure_hours_remaining c = 0) /\
    (INR 3 * 1 < 2 * (1 - INR 3 * window_u) ->
     Fl._is_failing c = true /\
     Rabs (Fl._failure_hours_remaining c - (2 - INR 3 * 1))
       <= INR 3 * window_u * 2) /\
    (Fl._is_failing c = false -> Fl._failure_hours_remaining c = 0).
Proof.
  apply (inverter_recovers window_u window window_rounding 3 1 2);
    try lra.
  unfold window; apply snap_up_outside; lra.
Defined.

(** On the floats of the program, ten updates of 0.1 h do not end a
    failure of 1 h: the subtractions leave 1.4e-16 h on the clock. *)
Example ten_updates_leave_a_remainder :
  exists c,
    Binary64.ten_updates = (Ok tt, c) /\
    Fl._is_failing c = true /\
    Fl.fltb Fl.lit_0 (Fl._failure_hours_remaining c) = true.
Proof.
  eexists; split; [vm_compute; reflexivity |].
  split; vm_compute; reflexivity.
Qed.
